(** * proyecto-io-colas: M/M/c queue analysis, simulation, cost optimisation
      and distribution fitting

    A shallow embedding of [src/queue_models.py], [src/optimizer.py] and
    [src/distribution_fitter.py].

    Numbers.  The Python code computes with binary64 floats.  The embedding
    computes with exact rationals ([Q]): every arithmetic operation returns
    the exact value, so rounding is idealised away and statements about
    numeric results are statements up to [==] ([Qeq]).  What is kept of the
    float semantics is what changes control flow:
    - a division of Python floats by zero raises [ZeroDivisionError];
    - a division whose operand is a numpy float64 (everything that has
      passed through [scipy.special.factorial]) does not raise on a zero
      divisor but yields inf or nan, a value outside the rationals: the
      model stops there with the outcome [NonFinite];
    - the binary64 range is made explicit in module [Binary64Range]
      below, which repeats the analytic model and the optimiser with
      range checks: a power out of range raises [OverflowError], a
      factorial out of range is [inf].  The definitions outside that
      module are the exact-arithmetic reading of the same statements; the
      two agree wherever the powers [(lam/mu)**n] and the factorials
      [factorial(n)] that are evaluated stay within the range (lemmas
      [calculate_metrics64_in_range], [optimize64_in_range] and
      [sensitivity_analysis64_in_range]).

    Inputs are typed as the docstrings declare them: rates and costs are
    Python floats, server counts are Python ints ([Z]).

    Libraries.  Calls into SciPy, NumPy's random generator and SimPy are
    outside the repository.  The statistics routines and the random
    generator are parameters of the model (the record [Library] and the
    variables of section [Simulation]); SimPy's event loop is modelled
    in that section from its scheduling rules: events are processed by
    time, then priority, then insertion order.  The Python list objects that a simulator and its
    results share live in a store ([gmap] from locations to lists). *)

From stdpp Require Import gmap.
From Stdlib Require Import ZArith QArith Qround Qabs Qpower Qfield Qminmax.
From Stdlib Require Import List String Bool Lia Lqa Sorted.
Import ListNotations.

Open Scope Q_scope.

(* ================================================================== *)
(** * Python runtime: exceptions, outcomes, arithmetic *)

Module Py.

(** The exceptions that the modelled code or the library calls it makes
    can raise. *)
Inductive exn : Type :=
| ZeroDivisionError
| OverflowError
| KeyError (key : string)
| TypeError
| ValueError
| AttributeError (name : string)
| IndexError
| LibraryError (what : string).

(** Outcome of a computation: a value, a raised exception, or a float that
    left the finite numbers (numpy's inf or nan, which raise nothing). *)
Inductive res (A : Type) : Type :=
| Ok (a : A)
| Raise (e : exn)
| NonFinite.

Arguments Ok {A} a.
Arguments Raise {A} e.
Arguments NonFinite {A}.

Definition bind {A B : Type} (m : res A) (k : A -> res B) : res B :=
  match m with
  | Ok a => k a
  | Raise e => Raise e
  | NonFinite => NonFinite
  end.

Definition raises {A : Type} (m : res A) : bool :=
  match m with Raise _ => true | _ => false end.

(** A list comprehension whose element expression can fail: elements are
    evaluated left to right and the first failure ends the evaluation. *)
Fixpoint comprehension {A B : Type} (f : A -> res B) (xs : list A)
  : res (list B) :=
  match xs with
  | [] => Ok []
  | x :: xs' =>
      bind (f x) (fun y =>
      bind (comprehension f xs') (fun ys => Ok (y :: ys)))
  end.

(** [x < y] on floats. *)
Definition Qltb (x y : Q) : bool := negb (Qle_bool y x).

(** [x / y] where both operands are Python floats (or ints). *)
Definition pydiv (x y : Q) : res Q :=
  if Qeq_bool y 0 then Raise ZeroDivisionError else Ok (x / y).

(** [x / y] where an operand is a numpy float64. *)
Definition npdiv (x y : Q) : res Q :=
  if Qeq_bool y 0 then NonFinite else Ok (x / y).

(** [x ** n] for a Python float [x] and a Python int [n], read in exact
    arithmetic: the value is the exact power.  The same operation with the
    binary64 range, where a result out of range raises [OverflowError], is
    [Binary64Range.pypow64]. *)
Definition pypow (x : Q) (n : Z) : res Q :=
  if (n <? 0)%Z && Qeq_bool x 0 then Raise ZeroDivisionError
  else Ok (x ^ n).

(** [range(a, b)] and [range(b)]. *)
Definition range2 (a b : Z) : list Z :=
  map (fun i => (a + Z.of_nat i)%Z) (seq 0 (Z.to_nat (b - a))).

Definition range (b : Z) : list Z := range2 0 b.

(** The builtin [sum]: left to right, starting from [0]. *)
Definition sum (xs : list Q) : Q := fold_left Qplus xs 0.

(** [n!] for a natural number, as an integer. *)
Definition Zfact (n : nat) : Z :=
  fold_left Z.mul (map Z.of_nat (seq 1 n)) 1%Z.

(** [scipy.special.factorial(n)] (inexact mode) for an int [n], read in
    exact arithmetic: [n!], and [0] for negative [n].  With the binary64
    range, where the result is [inf] from [171!] on, it is
    [Binary64Range.factorial64]. *)
Definition factorial (n : Z) : Q :=
  if (n <? 0)%Z then 0 else inject_Z (Zfact (Z.to_nat n)).

(** [int(np.ceil(x))]. *)
Definition int_ceil (x : Q) : Z := Qceiling x.

End Py.

Import Py.

Declare Scope py_scope.
Notation "x <- m ;; k" := (bind m (fun x => k))
  (at level 100, m at next level, right associativity) : py_scope.
Open Scope py_scope.

(* ================================================================== *)
(** * [queue_models.py]: the analytic M/M/c model *)

(** An [MMcQueue] object: the three constructor arguments and the derived
    utilisation. *)
Record MMcQueue : Type := mkMMcQueue {
  lambda_rate : Q;
  mu_rate : Q;
  c : Z;
  rho : Q
}.

(** [MMcQueue.__init__]: stores the arguments and computes
    [rho = lambda_rate / (c_servers * mu_rate)].  Nothing is validated. *)
Definition MMcQueue_init (lambda_rate mu_rate : Q) (c_servers : Z)
  : res MMcQueue :=
  rho <- pydiv lambda_rate (inject_Z c_servers * mu_rate) ;;
  Ok (mkMMcQueue lambda_rate mu_rate c_servers rho).

(** [MMcQueue.is_stable]. *)
Definition is_stable (self : MMcQueue) : bool := Qltb (rho self) 1.

(** One element of the comprehension in [_calculate_p0]:
    [(lam/mu)**n / factorial(n)]. *)
Definition p0_term (lam mu : Q) (n : Z) : res Q :=
  r <- pydiv lam mu ;;
  p <- pypow r n ;;
  npdiv p (factorial n).

(** [MMcQueue._calculate_p0], read in exact arithmetic: what the
    statements compute when no power and no factorial leaves the binary64
    range (see [_calculate_p0_64_in_range]).  The function with the
    range checks is [Binary64Range._calculate_p0_64]. *)
Definition _calculate_p0 (self : MMcQueue) : res Q :=
  let c := c self in
  let lam := lambda_rate self in
  let mu := mu_rate self in
  let rho := rho self in
  terms <- comprehension (p0_term lam mu) (range c) ;;
  let sum_term := sum terms in
  t <- p0_term lam mu c ;;
  i <- pydiv 1 (1 - rho) ;;
  let last_term := t * i in
  npdiv 1 (sum_term + last_term).

(** The dictionary returned for a stable queue. *)
Record Metrics : Type := mkMetrics {
  m_rho : Q;
  m_utilization_percent : Q;
  m_P0 : Q;
  m_Pw_erlang_c : Q;
  m_Lq : Q;
  m_L : Q;
  m_Wq : Q;
  m_W : Q;
  m_lambda : Q;
  m_mu : Q;
  m_c : Z
}.

(** The dictionary returned by [calculate_metrics]: key ['stable'] is
    [False] with only ['rho'] and ['message'], or [True] with the full
    set of keys. *)
Inductive MetricsResult : Type :=
| Unstable (rho : Q) (message : string)
| Stable (m : Metrics).

(** [MMcQueue.calculate_metrics]. *)
Definition calculate_metrics (self : MMcQueue) : res MetricsResult :=
  if negb (is_stable self) then
    Ok (Unstable (rho self) "Sistema inestable: rho >= 1")
  else
    let c := c self in
    let lam := lambda_rate self in
    let mu := mu_rate self in
    let rho := rho self in
    p0 <- _calculate_p0 self ;;
    t <- p0_term lam mu c ;;
    i <- pydiv 1 (1 - rho) ;;
    let pw := t * i * p0 in
    lq <- npdiv (pw * rho) (1 - rho) ;;
    wq <- npdiv lq lam ;;
    a <- pydiv lam mu ;;
    let l := lq + a in
    s <- pydiv 1 mu ;;
    let w := wq + s in
    Ok (Stable (mkMetrics rho (rho * 100) p0 pw lq l wq w lam mu c)).

(** An entry of the unstable dictionary: a float, a bool or a string. *)
Inductive entry : Type :=
| Float (x : Q)
| Bool (b : bool)
| Str (s : string).

(** Subscripting the unstable dictionary, which holds the three keys
    ['stable'], ['rho'] and ['message']. *)
Definition unstable_getitem (key : string) (rho : Q) (message : string)
  : res entry :=
  if String.eqb key "stable" then Ok (Bool false)
  else if String.eqb key "rho" then Ok (Float rho)
  else if String.eqb key "message" then Ok (Str message)
  else Raise (KeyError key).

(** An entry used as a number: a bool counts as 0 or 1, a string is not
    a number. *)
Definition as_float (e : entry) : res Q :=
  match e with
  | Float x => Ok x
  | Bool b => Ok (if b then 1 else 0)
  | Str _ => Raise TypeError
  end.

(** Subscripting the metrics dictionary for a number: [field] is the
    entry under [key] in the stable layout; in the unstable layout every
    key but the three above is missing. *)
Definition metric (key : string) (field : Metrics -> Q) (d : MetricsResult)
  : res Q :=
  match d with
  | Stable m => Ok (field m)
  | Unstable rho message =>
      e <- unstable_getitem key rho message ;; as_float e
  end.

Definition stable_flag (d : MetricsResult) : bool :=
  match d with Stable _ => true | Unstable _ _ => false end.

Definition metrics_rho (d : MetricsResult) : Q :=
  match d with Stable m => m_rho m | Unstable r _ => r end.


(* ================================================================== *)
(** * [optimizer.py]: the cost optimiser *)

(** A [CostOptimizer] object. *)
Record CostOptimizer : Type := mkCostOptimizer {
  o_lambda_rate : Q;
  o_mu_rate : Q;
  cost_server : Q;
  cost_waiting : Q
}.

(** The sentinel [1e10] returned for an infeasible point. *)
Definition sentinel : Q := 10000000000.

(** [CostOptimizer.objective_function]; [c] may be an int or a float. *)
Definition objective_function (self : CostOptimizer) (c : Q) : res Q :=
  let c := int_ceil c in
  if (c <=? 0)%Z then Ok sentinel else
  queue <- MMcQueue_init (o_lambda_rate self) (o_mu_rate self) c ;;
  if negb (is_stable queue) then Ok sentinel else
  metrics <- calculate_metrics queue ;;
  if negb (stable_flag metrics) then Ok sentinel else
  lq <- metric "Lq" m_Lq metrics ;;
  let total_cost := inject_Z c * cost_server self + lq * cost_waiting self in
  Ok total_cost.

(** A float variable that starts at [np.inf]. *)
Inductive bound : Type :=
| Finite (q : Q)
| PosInf.

(** [x < b] for a finite [x]. *)
Definition lt_bound (x : Q) (b : bound) : bool :=
  match b with
  | Finite q => Qltb x q
  | PosInf => true
  end.

(** One entry of [all_results]. *)
Record EvalRow : Type := mkEvalRow {
  r_c : Z;
  r_cost : Q;
  r_Lq : Q;
  r_Wq : Q;
  r_rho : Q;
  r_meets_sla : bool
}.

(** The dictionary returned by [optimize]: the failure layout has only
    ['success'] and ['message']; the success layout has the optimum, its
    cost split, its metrics, the table and the SLA. *)
Inductive OptimizationResult : Type :=
| Infeasible (message : string)
| Optimal (optimal_c : Z) (total_cost : bound) (server_cost : Q)
    (waiting_cost : Q) (metrics : MetricsResult)
    (all_results : list EvalRow) (sla_wq : option Q).

Definition success (r : OptimizationResult) : bool :=
  match r with Optimal _ _ _ _ _ _ _ => true | Infeasible _ => false end.

(** The local variables of [optimize] that the loop updates. *)
Record OptState : Type := mkOptState {
  best_c : option Z;
  best_cost : bound;
  best_metrics : option MetricsResult;
  results : list EvalRow
}.

(** Truth value of the optional SLA argument: [None] and [0.0] are falsy. *)
Definition truthy (sla_wq : option Q) : bool :=
  match sla_wq with
  | None => false
  | Some s => negb (Qeq_bool s 0)
  end.

(** A [for] loop whose body can raise: the state is threaded through the
    iterations, the first failure leaves the loop. *)
Fixpoint for_each {S A : Type} (xs : list A) (body : S -> A -> res S)
  (s : S) : res S :=
  match xs with
  | [] => Ok s
  | x :: xs' => s' <- body s x ;; for_each xs' body s'
  end.

(** The body of the loop of [optimize]; [continue] returns the state
    unchanged. *)
Definition optimize_body (self : CostOptimizer) (sla_wq : option Q)
  (st : OptState) (c : Z) : res OptState :=
  queue <- MMcQueue_init (o_lambda_rate self) (o_mu_rate self) c ;;
  if negb (is_stable queue) then Ok st else
  metrics <- calculate_metrics queue ;;
  violated <- match sla_wq with
              | None => Ok false
              | Some s => wq <- metric "Wq" m_Wq metrics ;; Ok (Qltb s wq)
              end ;;
  if (violated : bool) then Ok st else
  cost <- objective_function self (inject_Z c) ;;
  lq <- metric "Lq" m_Lq metrics ;;
  wq <- metric "Wq" m_Wq metrics ;;
  let rho := metrics_rho metrics in
  let meets := if truthy sla_wq
               then match sla_wq with
                    | Some s => Qle_bool wq s
                    | None => true
                    end
               else true in
  let results' := results st ++ [mkEvalRow c cost lq wq rho meets] in
  if lt_bound cost (best_cost st)
  then Ok (mkOptState (Some c) (Finite cost) (Some metrics) results')
  else Ok (mkOptState (best_c st) (best_cost st) (best_metrics st) results').

(** [CostOptimizer.optimize]. *)
Definition optimize (self : CostOptimizer) (c_min c_max : Z)
  (sla_wq : option Q) : res OptimizationResult :=
  r <- pydiv (o_lambda_rate self) (o_mu_rate self) ;;
  let c_stability := (int_ceil r + 1)%Z in
  let c_min := Z.max c_min c_stability in
  st <- for_each (range2 c_min (c_max + 1)) (optimize_body self sla_wq)
          (mkOptState None PosInf None []) ;;
  match best_c st with
  | None => Ok (Infeasible "No se encontró solución factible")
  | Some bc =>
      match best_metrics st with
      | None => Raise TypeError
      | Some m =>
          lq <- metric "Lq" m_Lq m ;;
          Ok (Optimal bc (best_cost st) (inject_Z bc * cost_server self)
                (lq * cost_waiting self) m (results st) sla_wq)
      end
  end.


(** The dictionary returned by [sensitivity_analysis]: seven parallel
    lists, and the keys ['optimal_c'] and ['optimal_cost'], which are set
    only when some cost was recorded. *)
Record Sensitivity : Type := mkSensitivity {
  c_values : list Z;
  total_costs : list Q;
  server_costs : list Q;
  waiting_costs : list Q;
  utilizations : list Q;
  wq_values : list Q;
  lq_values : list Q;
  optimal_c : option Z;
  optimal_cost : option Q
}.

(** Subscripting a key that may be missing. *)
Definition subscript {A : Type} (key : string) (v : option A) : res A :=
  match v with
  | Some a => Ok a
  | None => Raise (KeyError key)
  end.

(** [xs[i]] on a list. *)
Definition item {A : Type} (xs : list A) (i : nat) : res A :=
  match nth_error xs i with
  | Some a => Ok a
  | None => Raise IndexError
  end.

(** [np.argmin] on a non-empty list: the index of the first minimum. *)
Fixpoint argmin_from (best : Q) (best_i i : nat) (xs : list Q) : nat :=
  match xs with
  | [] => best_i
  | x :: xs' =>
      if Qltb x best then argmin_from x i (S i) xs'
      else argmin_from best best_i (S i) xs'
  end.

Definition argmin (xs : list Q) : res nat :=
  match xs with
  | [] => Raise ValueError
  | x :: xs' => Ok (argmin_from x 0%nat 1%nat xs')
  end.

(** The body of the loop of [sensitivity_analysis]. *)
Definition sensitivity_body (self : CostOptimizer) (results : Sensitivity)
  (c : Z) : res Sensitivity :=
  queue <- MMcQueue_init (o_lambda_rate self) (o_mu_rate self) c ;;
  if negb (is_stable queue) then Ok results else
  metrics <- calculate_metrics queue ;;
  let server_cost := inject_Z c * cost_server self in
  lq <- metric "Lq" m_Lq metrics ;;
  let waiting_cost := lq * cost_waiting self in
  let total_cost := server_cost + waiting_cost in
  wq <- metric "Wq" m_Wq metrics ;;
  lq' <- metric "Lq" m_Lq metrics ;;
  Ok (mkSensitivity
        (c_values results ++ [c])
        (total_costs results ++ [total_cost])
        (server_costs results ++ [server_cost])
        (waiting_costs results ++ [waiting_cost])
        (utilizations results ++ [metrics_rho metrics])
        (wq_values results ++ [wq])
        (lq_values results ++ [lq'])
        (optimal_c results) (optimal_cost results)).

(** [CostOptimizer.sensitivity_analysis]; [c_range] is [None] or a pair. *)
Definition sensitivity_analysis (self : CostOptimizer)
  (c_range : option (Z * Z)) : res Sensitivity :=
  c_range <- match c_range with
             | Some r => Ok r
             | None =>
                 r <- pydiv (o_lambda_rate self) (o_mu_rate self) ;;
                 let c_stability := (int_ceil r + 1)%Z in
                 Ok (c_stability, (c_stability + 20)%Z)
             end ;;
  let '(c_min, c_max) := c_range in
  results <- for_each (range2 c_min (c_max + 1)) (sensitivity_body self)
               (mkSensitivity [] [] [] [] [] [] [] None None) ;;
  match total_costs results with
  | [] => Ok results
  | _ :: _ =>
      min_idx <- argmin (total_costs results) ;;
      oc <- item (c_values results) min_idx ;;
      ocost <- item (total_costs results) min_idx ;;
      Ok (mkSensitivity (c_values results) (total_costs results)
            (server_costs results) (waiting_costs results)
            (utilizations results) (wq_values results) (lq_values results)
            (Some oc) (Some ocost))
  end.


(* ================================================================== *)
(** * The closed-form M/M/c formulas, as the specification writes them *)

Module Formula.
Section Params.
Variables (lam mu : Q) (c : Z).

(** Utilisation [ρ = λ/(c·μ)]. *)
Definition rho : Q := lam / (inject_Z c * mu).

(** [(λ/μ)^n / n!]. *)
Definition term (n : Z) : Q := (lam / mu) ^ n / factorial n.

(** [P0 = 1 / ( Σ_{n<c} (λ/μ)^n/n! + (λ/μ)^c/c! · 1/(1-ρ) )]. *)
Definition P0 : Q :=
  1 / (sum (map term (range c)) + term c * (1 / (1 - rho))).

(** [Pwait = (λ/μ)^c/c! · 1/(1-ρ) · P0]. *)
Definition Pwait : Q := term c * (1 / (1 - rho)) * P0.

(** [Lq = Pwait·ρ/(1-ρ)], [Wq = Lq/λ], [L = Lq + λ/μ], [W = Wq + 1/μ]. *)
Definition Lq : Q := Pwait * rho / (1 - rho).
Definition Wq : Q := Lq / lam.
Definition L : Q := Lq + lam / mu.
Definition W : Q := Wq + 1 / mu.

(** The metrics record assembled from the formulas. *)
Definition metrics : Metrics :=
  mkMetrics rho (rho * 100) P0 Pwait Lq L Wq W lam mu c.
End Params.
End Formula.

(* ================================================================== *)
(** * The iterative evaluation of the Erlang sum the specification asks for *)

Module Iterative.

(** [term_0 = 1], [term_n = term_{n-1}·(λ/μ)/n]. *)
Fixpoint term (a : Q) (n : nat) : Q :=
  match n with
  | O => 1
  | S k => term a k * a / inject_Z (Z.of_nat (S k))
  end.

(** [Σ_{n<c} term_n], accumulated term by term. *)
Fixpoint partial_sum (a : Q) (c : nat) : Q :=
  match c with
  | O => 0
  | S k => partial_sum a k + term a k
  end.

(** [P0] from the accumulated sum and the incremental last term. *)
Definition P0 (lam mu : Q) (c : nat) : Q :=
  let a := lam / mu in
  let rho := lam / (inject_Z (Z.of_nat c) * mu) in
  1 / (partial_sum a c + term a c * (1 / (1 - rho))).

End Iterative.

(* ================================================================== *)
(** * The analytic model and the optimiser with the binary64 range made
      explicit *)

Module Binary64Range.

(** Every finite binary64 value is below [2^1024] in magnitude, so an
    operation whose exact result reaches [2^1024] cannot return it. *)
Definition limit : Q := inject_Z (2 ^ 1024).

Definition representable (x : Q) : bool := Qltb (Qabs x) limit.

(** [x ** n] on Python floats raises [OverflowError] when the result is
    out of range. *)
Definition pypow64 (x : Q) (n : Z) : res Q :=
  p <- pypow x n ;;
  if representable p then Ok p else Raise OverflowError.

(** [scipy.special.factorial(n)] returns [inf] when [n!] is out of
    range. *)
Definition factorial64 (n : Z) : bound :=
  if representable (factorial n) then Finite (factorial n) else PosInf.

(** [(lam/mu)**n / factorial(n)]; a finite float divided by [inf] is
    [0.0]. *)
Definition p0_term64 (lam mu : Q) (n : Z) : res Q :=
  r <- pydiv lam mu ;;
  p <- pypow64 r n ;;
  match factorial64 n with
  | Finite f => npdiv p f
  | PosInf => Ok 0
  end.

(** [MMcQueue._calculate_p0], the same statements with the range checks
    on the powers and factorials. *)
Definition _calculate_p0_64 (self : MMcQueue) : res Q :=
  let c := c self in
  let lam := lambda_rate self in
  let mu := mu_rate self in
  let rho := rho self in
  terms <- comprehension (p0_term64 lam mu) (range c) ;;
  let sum_term := sum terms in
  t <- p0_term64 lam mu c ;;
  i <- pydiv 1 (1 - rho) ;;
  let last_term := t * i in
  npdiv 1 (sum_term + last_term).

(** The powers and factorials that the metrics of a queue with up to [c]
    servers need are all within the binary64 range. *)
Definition in_binary64_range (lam mu : Q) (c : Z) : bool :=
  forallb (fun n => representable ((lam / mu) ^ n)
                    && representable (factorial n))
    (range (c + 1)).

(** [MMcQueue.calculate_metrics], with the range checks. *)
Definition calculate_metrics64 (self : MMcQueue) : res MetricsResult :=
  if negb (is_stable self) then
    Ok (Unstable (rho self) "Sistema inestable: rho >= 1")
  else
    let c := c self in
    let lam := lambda_rate self in
    let mu := mu_rate self in
    let rho := rho self in
    p0 <- _calculate_p0_64 self ;;
    t <- p0_term64 lam mu c ;;
    i <- pydiv 1 (1 - rho) ;;
    let pw := t * i * p0 in
    lq <- npdiv (pw * rho) (1 - rho) ;;
    wq <- npdiv lq lam ;;
    a <- pydiv lam mu ;;
    let l := lq + a in
    s <- pydiv 1 mu ;;
    let w := wq + s in
    Ok (Stable (mkMetrics rho (rho * 100) p0 pw lq l wq w lam mu c)).

(** [CostOptimizer.objective_function], with the range checks. *)
Definition objective_function64 (self : CostOptimizer) (c : Q) : res Q :=
  let c := int_ceil c in
  if (c <=? 0)%Z then Ok sentinel else
  queue <- MMcQueue_init (o_lambda_rate self) (o_mu_rate self) c ;;
  if negb (is_stable queue) then Ok sentinel else
  metrics <- calculate_metrics64 queue ;;
  if negb (stable_flag metrics) then Ok sentinel else
  lq <- metric "Lq" m_Lq metrics ;;
  let total_cost := inject_Z c * cost_server self + lq * cost_waiting self in
  Ok total_cost.

(** The body of the loop of [optimize], with the range checks. *)
Definition optimize_body64 (self : CostOptimizer) (sla_wq : option Q)
  (st : OptState) (c : Z) : res OptState :=
  queue <- MMcQueue_init (o_lambda_rate self) (o_mu_rate self) c ;;
  if negb (is_stable queue) then Ok st else
  metrics <- calculate_metrics64 queue ;;
  violated <- match sla_wq with
              | None => Ok false
              | Some s => wq <- metric "Wq" m_Wq metrics ;; Ok (Qltb s wq)
              end ;;
  if (violated : bool) then Ok st else
  cost <- objective_function64 self (inject_Z c) ;;
  lq <- metric "Lq" m_Lq metrics ;;
  wq <- metric "Wq" m_Wq metrics ;;
  let rho := metrics_rho metrics in
  let meets := if truthy sla_wq
               then match sla_wq with
                    | Some s => Qle_bool wq s
                    | None => true
                    end
               else true in
  let results' := results st ++ [mkEvalRow c cost lq wq rho meets] in
  if lt_bound cost (best_cost st)
  then Ok (mkOptState (Some c) (Finite cost) (Some metrics) results')
  else Ok (mkOptState (best_c st) (best_cost st) (best_metrics st) results').

(** [CostOptimizer.optimize], with the range checks. *)
Definition optimize64 (self : CostOptimizer) (c_min c_max : Z)
  (sla_wq : option Q) : res OptimizationResult :=
  r <- pydiv (o_lambda_rate self) (o_mu_rate self) ;;
  let c_stability := (int_ceil r + 1)%Z in
  let c_min := Z.max c_min c_stability in
  st <- for_each (range2 c_min (c_max + 1)) (optimize_body64 self sla_wq)
          (mkOptState None PosInf None []) ;;
  match best_c st with
  | None => Ok (Infeasible "No se encontró solución factible")
  | Some bc =>
      match best_metrics st with
      | None => Raise TypeError
      | Some m =>
          lq <- metric "Lq" m_Lq m ;;
          Ok (Optimal bc (best_cost st) (inject_Z bc * cost_server self)
                (lq * cost_waiting self) m (results st) sla_wq)
      end
  end.

(** The body of the loop of [sensitivity_analysis], with the range
    checks. *)
Definition sensitivity_body64 (self : CostOptimizer) (results : Sensitivity)
  (c : Z) : res Sensitivity :=
  queue <- MMcQueue_init (o_lambda_rate self) (o_mu_rate self) c ;;
  if negb (is_stable queue) then Ok results else
  metrics <- calculate_metrics64 queue ;;
  let server_cost := inject_Z c * cost_server self in
  lq <- metric "Lq" m_Lq metrics ;;
  let waiting_cost := lq * cost_waiting self in
  let total_cost := server_cost + waiting_cost in
  wq <- metric "Wq" m_Wq metrics ;;
  lq' <- metric "Lq" m_Lq metrics ;;
  Ok (mkSensitivity
        (c_values results ++ [c])
        (total_costs results ++ [total_cost])
        (server_costs results ++ [server_cost])
        (waiting_costs results ++ [waiting_cost])
        (utilizations results ++ [metrics_rho metrics])
        (wq_values results ++ [wq])
        (lq_values results ++ [lq'])
        (optimal_c results) (optimal_cost results)).

(** [CostOptimizer.sensitivity_analysis], with the range checks. *)
Definition sensitivity_analysis64 (self : CostOptimizer)
  (c_range : option (Z * Z)) : res Sensitivity :=
  c_range <- match c_range with
             | Some r => Ok r
             | None =>
                 r <- pydiv (o_lambda_rate self) (o_mu_rate self) ;;
                 let c_stability := (int_ceil r + 1)%Z in
                 Ok (c_stability, (c_stability + 20)%Z)
             end ;;
  let '(c_min, c_max) := c_range in
  results <- for_each (range2 c_min (c_max + 1)) (sensitivity_body64 self)
               (mkSensitivity [] [] [] [] [] [] [] None None) ;;
  match total_costs results with
  | [] => Ok results
  | _ :: _ =>
      min_idx <- argmin (total_costs results) ;;
      oc <- item (c_values results) min_idx ;;
      ocost <- item (total_costs results) min_idx ;;
      Ok (mkSensitivity (c_values results) (total_costs results)
            (server_costs results) (waiting_costs results)
            (utilizations results) (wq_values results) (lq_values results)
            (Some oc) (Some ocost))
  end.

End Binary64Range.

(* ================================================================== *)
(** * What the optimiser is specified to compute *)

(** [b] is the first minimum of [cost] over the list [xs]: strictly
    cheaper than everything before it, at most as expensive as everything
    after it. *)
Definition first_min {A : Type} (cost : A -> Q) (xs : list A) (b : A)
  : Prop :=
  exists before after,
    xs = before ++ b :: after /\
    (forall x, In x before -> cost b < cost x) /\
    (forall x, In x after -> cost b <= cost x).

Module OptimizerSpec.
Section Params.
Variables (lam mu cost_server cost_waiting : Q) (sla_wq : option Q).

(** The true lower search bound [max(cMin, ⌈λ/μ⌉+1)]. *)
Definition true_min (c_min : Z) : Z := Z.max c_min (Qceiling (lam / mu) + 1).

(** [Z(c) = c·serverCost + Lq(c)·waitingCost]. *)
Definition Zcost (c : Z) : Q :=
  inject_Z c * cost_server + Formula.Lq lam mu c * cost_waiting.

(** [c] is stable: [ρ(c) < 1]. *)
Definition stable (c : Z) : bool := Qltb (Formula.rho lam mu c) 1.

(** [Wq(c)] does not exceed the SLA threshold, when there is one. *)
Definition within_sla (c : Z) : bool :=
  match sla_wq with
  | None => true
  | Some s => Qle_bool (Formula.Wq lam mu c) s
  end.

Definition feasible (c : Z) : bool := stable c && within_sla c.

(** The feasible server counts of the search range, in scan order. *)
Definition feasible_range (c_min c_max : Z) : list Z :=
  filter feasible (range2 (true_min c_min) (c_max + 1)).

(** The table entry of a feasible [c]. *)
Definition row (c : Z) : EvalRow :=
  mkEvalRow c (Zcost c) (Formula.Lq lam mu c) (Formula.Wq lam mu c)
    (Formula.rho lam mu c)
    (if truthy sla_wq
     then match sla_wq with
          | Some s => Qle_bool (Formula.Wq lam mu c) s
          | None => true
          end
     else true).

(** The effect of one iteration of the scan on a feasible [c]: the row is
    appended, and [c] becomes the incumbent when strictly cheaper. *)
Definition record (st : OptState) (c : Z) : OptState :=
  let results' := results st ++ [row c] in
  if lt_bound (Zcost c) (best_cost st)
  then mkOptState (Some c) (Finite (Zcost c))
         (Some (Stable (Formula.metrics lam mu c))) results'
  else mkOptState (best_c st) (best_cost st) (best_metrics st) results'.

Definition scan_step (st : OptState) (c : Z) : OptState :=
  if within_sla c then record st c else st.

(** The loop invariant of [optimize]: after the feasible counts [seen]
    have been recorded, the table lists their rows in order and the
    incumbent is the first minimum of the cost over [seen]. *)
Definition scan_inv (seen : list Z) (st : OptState) : Prop :=
  results st = map row seen /\
  match best_c st with
  | None => seen = [] /\ best_cost st = PosInf /\ best_metrics st = None
  | Some b =>
      best_cost st = Finite (Zcost b) /\
      best_metrics st = Some (Stable (Formula.metrics lam mu b)) /\
      first_min Zcost seen b
  end.
End Params.

(** The range [sensitivity_analysis] scans: the caller's pair, or the
    automatic [(⌈λ/μ⌉+1, ⌈λ/μ⌉+21)]. *)
Definition sensitivity_range (lam mu : Q) (c_range : option (Z * Z))
  : Z * Z :=
  match c_range with
  | Some r => r
  | None =>
      let c_stability := (Qceiling (lam / mu) + 1)%Z in
      (c_stability, (c_stability + 20)%Z)
  end.

End OptimizerSpec.

(* ================================================================== *)
(** * [distribution_fitter.py]: the distribution fitter *)

(** A float that may be [nan]. *)
Definition float_or_nan : Type := option Q.

(** What the code uses of a [scipy.stats] distribution object: maximum
    likelihood [fit], [logpdf] over a sample, and [cdf] at a point (the
    last two take the fitted parameters). *)
Record Distribution : Type := mkDistribution {
  d_name : string;
  d_fit : list Q -> res (list Q);
  d_logpdf : list Q -> list Q -> res (list Q);
  d_cdf : Q -> list Q -> Q
}.

(** The library calls the fitter makes.  They are parameters of the
    model: [getattr(stats, name)], [np.log] on the sample size,
    [stats.kstest] and [stats.chisquare]. *)
Record Library : Type := mkLibrary {
  stats_getattr : string -> res Distribution;
  np_log : Z -> res Q;
  stats_kstest : list Q -> (Q -> Q) -> res (Q * Q);
  stats_chisquare : list Q -> list Q -> res (Q * float_or_nan)
}.

(** A Python [dict] with string keys: insertion order is kept, and
    assigning to an existing key replaces its value in place. *)
Fixpoint dict_set {V : Type} (d : list (string * V)) (k : string) (v : V)
  : list (string * V) :=
  match d with
  | [] => [(k, v)]
  | (k', v') :: d' =>
      if String.eqb k' k then (k, v) :: d'
      else (k', v') :: dict_set d' k v
  end.

Fixpoint dict_get {V : Type} (d : list (string * V)) (k : string)
  : option V :=
  match d with
  | [] => None
  | (k', v') :: d' => if String.eqb k' k then Some v' else dict_get d' k
  end.

(** One value of the dictionary [fit_distributions] returns. *)
Record FitInfo : Type := mkFitInfo {
  params : list Q;
  dist_object : Distribution;
  log_likelihood : Q;
  aic : Q;
  bic : Q
}.

(** A [DistributionFitter] object, with what it has printed so far (each
    line names the family and the exception). *)
Record DistributionFitter : Type := mkDistributionFitter {
  fitted_distributions : list (string * FitInfo);
  printed : list (string * exn)
}.

(** [DistributionFitter.__init__]. *)
Definition DistributionFitter_init : DistributionFitter :=
  mkDistributionFitter [] [].

(** The default value of the [distributions] argument. *)
Definition default_distributions : list string :=
  ["expon"; "gamma"; "lognorm"; "weibull_min"]%string.

(** [np.histogram(data, bins=20)].  The outer edges are the extremes of
    the data ([(0, 1)] for no data, widened by one half on each side when
    they coincide); the edges are [np.linspace(first, last, 21)]; a value
    falls in the bin whose half-open interval contains it, the last bin
    being closed on the right. *)
Definition outer_edges (a : list Q) : Q * Q :=
  match a with
  | [] => (0, 1)
  | x :: xs =>
      let first_edge := fold_left Qmin xs x in
      let last_edge := fold_left Qmax xs x in
      if Qeq_bool first_edge last_edge
      then (first_edge - (1 # 2), last_edge + (1 # 2))
      else (first_edge, last_edge)
  end.

Definition n_bins : nat := 20.

Definition linspace (first_edge last_edge : Q) : list Q :=
  let step := (last_edge - first_edge) / inject_Z (Z.of_nat n_bins) in
  map (fun i => inject_Z (Z.of_nat i) * step + first_edge)
    (seq 0 (S n_bins)).

Definition bin_index (first_edge last_edge x : Q) : Z :=
  let i := Qfloor ((x - first_edge) / (last_edge - first_edge)
                   * inject_Z (Z.of_nat n_bins)) in
  if (i =? Z.of_nat n_bins)%Z then (i - 1)%Z else i.

Definition histogram (data : list Q) : list Q * list Q :=
  let '(first_edge, last_edge) := outer_edges data in
  let observed :=
    map (fun i =>
           inject_Z (Z.of_nat (List.length
             (filter (fun x => (bin_index first_edge last_edge x =? Z.of_nat i)%Z)
                data))))
      (seq 0 n_bins) in
  (observed, linspace first_edge last_edge).

(** The loop that fills [expected]: for [i] in
    [range(len(bin_edges) - 1)], the probability mass of bin [i] under
    the fitted [cdf] times the sample size. *)
Definition expected_counts (cdf : Q -> Q) (bin_edges : list Q)
  (n : nat) : list Q :=
  map (fun i =>
         (cdf (nth (S i) bin_edges 0) - cdf (nth i bin_edges 0))
         * inject_Z (Z.of_nat n))
    (seq 0 (List.length bin_edges - 1)).

(** [observed[mask]] and [expected[mask]] for [mask = expected > 5]. *)
Definition masked_bins (observed expected : list Q) : list (Q * Q) :=
  filter (fun oe => Qltb 5 (snd oe)) (combine observed expected).

(** The dictionary returned by [goodness_of_fit_tests]. *)
Record GoodnessOfFit : Type := mkGoodnessOfFit {
  ks_statistic : Q;
  ks_pvalue : Q;
  chi2_statistic : Q;
  chi2_pvalue : float_or_nan
}.

Section Fitter.
Variable lib : Library.

(** The body of the [try] block of [fit_distributions]. *)
Definition fit_one (data : list Q) (dist_name : string) : res FitInfo :=
  dist <- stats_getattr lib dist_name ;;
  params <- d_fit dist data ;;
  lps <- d_logpdf dist data params ;;
  let log_likelihood := sum lps in
  let k := inject_Z (Z.of_nat (List.length params)) in
  let n := Z.of_nat (List.length data) in
  let aic := 2 * k - 2 * log_likelihood in
  ln_n <- np_log lib n ;;
  let bic := k * ln_n - 2 * log_likelihood in
  Ok (mkFitInfo params dist log_likelihood aic bic).

(** The loop of [fit_distributions]: [except Exception] prints and goes
    on with the next family. *)
Fixpoint fit_loop (data : list Q) (distributions : list string)
  (results : list (string * FitInfo)) (out : list (string * exn))
  : res (list (string * FitInfo) * list (string * exn)) :=
  match distributions with
  | [] => Ok (results, out)
  | dist_name :: rest =>
      match fit_one data dist_name with
      | Ok info => fit_loop data rest (dict_set results dist_name info) out
      | Raise e => fit_loop data rest results (out ++ [(dist_name, e)])
      | NonFinite => NonFinite
      end
  end.

(** [DistributionFitter.fit_distributions]: returns the results and the
    object with [fitted_distributions] replaced by them. *)
Definition fit_distributions (self : DistributionFitter) (data : list Q)
  (distributions : list string)
  : res (list (string * FitInfo) * DistributionFitter) :=
  r <- fit_loop data distributions [] (printed self) ;;
  let '(results, out) := r in
  Ok (results, mkDistributionFitter results out).

(** [info[criterion]] followed by the comparison with a float: the
    numeric keys give their value, the two other keys of the dictionary
    give an object that cannot be compared with a float, any other key is
    missing. *)
Definition criterion_value (info : FitInfo) (criterion : string) : res Q :=
  if String.eqb criterion "aic" then Ok (aic info)
  else if String.eqb criterion "bic" then Ok (bic info)
  else if String.eqb criterion "log_likelihood" then Ok (log_likelihood info)
  else if String.eqb criterion "params" then Raise TypeError
  else if String.eqb criterion "dist_object" then Raise TypeError
  else Raise (KeyError criterion).

(** The variables [best_name], [best_value], [best_params] of
    [get_best_distribution]. *)
Record Best : Type := mkBest {
  best_name : option string;
  best_value : bound;
  best_params : option (list Q)
}.

Definition best_body (criterion : string) (b : Best)
  (item : string * FitInfo) : res Best :=
  let '(name, info) := item in
  value <- criterion_value info criterion ;;
  if lt_bound value (best_value b)
  then Ok (mkBest (Some name) (Finite value) (Some (params info)))
  else Ok b.

(** [DistributionFitter.get_best_distribution]: returns the triple and
    the object (which a refit changes). *)
Definition get_best_distribution (self : DistributionFitter)
  (data : list Q) (criterion : string) : res (Best * DistributionFitter) :=
  self' <- (match fitted_distributions self with
            | [] =>
                r <- fit_distributions self data default_distributions ;;
                Ok (snd r)
            | _ :: _ => Ok self
            end) ;;
  b <- for_each (fitted_distributions self') (best_body criterion)
         (mkBest None PosInf None) ;;
  Ok (b, self').

(** [DistributionFitter.goodness_of_fit_tests]; [distribution] is a name
    or a distribution object. *)
Definition goodness_of_fit_tests (data : list Q)
  (distribution : string + Distribution) (params : list Q)
  : res GoodnessOfFit :=
  dist <- match distribution with
          | inl name => stats_getattr lib name
          | inr obj => Ok obj
          end ;;
  ks <- stats_kstest lib data (fun x => d_cdf dist x params) ;;
  let '(observed, bin_edges) := histogram data in
  let expected :=
    expected_counts (fun x => d_cdf dist x params) bin_edges
      (List.length data) in
  let kept := masked_bins observed expected in
  chi2 <- stats_chisquare lib (map fst kept) (map snd kept) ;;
  Ok (mkGoodnessOfFit (fst ks) (snd ks) (fst chi2) (snd chi2)).
End Fitter.

(** The loop invariant of [get_best_distribution] for a criterion read
    by [value]: nothing seen and the initial triple, or the triple of the
    first minimum of the criterion over the entries seen. *)
Definition best_inv (value : FitInfo -> Q) (seen : list (string * FitInfo))
  (b : Best) : Prop :=
  match best_name b with
  | None => seen = [] /\ b = mkBest None PosInf None
  | Some name =>
      exists info,
        b = mkBest (Some name) (Finite (value info)) (Some (params info)) /\
        first_min (fun item => value (snd item)) seen (name, info)
  end.

(* ================================================================== *)
(** * A small stand-in for the statistics library

    The theorems about the fitter hold for every [Library].  To run the
    fitter on concrete data an instance is needed; this one is
    deliberately small and rational-valued.  Its exponential family uses
    SciPy's closed-form estimate (location = sample minimum, scale = mean
    minus minimum); logarithms and distribution functions are replaced by
    rational stand-ins, and the chi-square statistic is Pearson's
    [Σ (o - e)² / e] with a [nan] p-value when fewer than two bins are
    given. *)

Module ToyStats.

Definition mean (xs : list Q) : Q :=
  sum xs / inject_Z (Z.of_nat (List.length xs)).

Definition clamp01 (x : Q) : Q := Qmax 0 (Qmin 1 x).

Definition expon : Distribution :=
  mkDistribution "expon"
    (fun data =>
       match data with
       | [] => Raise ValueError
       | x :: xs =>
           let loc := fold_left Qmin xs x in
           Ok [loc; mean data - loc]
       end)
    (fun data params =>
       match params with
       | [loc; scale] =>
           if Qeq_bool scale 0 then NonFinite
           else Ok (map (fun x => - (x - loc) / scale - (scale - 1)) data)
       | _ => Raise TypeError
       end)
    (fun x params =>
       match params with
       | [loc; scale] => clamp01 ((x - loc) / (4 * scale))
       | _ => 0
       end).

Definition getattr (name : string) : res Distribution :=
  if String.eqb name "expon" then Ok expon
  else Raise (AttributeError name).

Definition log (n : Z) : res Q :=
  if (n <=? 0)%Z then NonFinite else Ok (inject_Z n - 1).

Definition kstest (data : list Q) (cdf : Q -> Q) : res (Q * Q) :=
  match data with
  | [] => Raise ValueError
  | _ :: _ => Ok (0, 1)
  end.

Definition chisquare (f_obs f_exp : list Q) : res (Q * float_or_nan) :=
  let stat :=
    sum (map (fun oe => (fst oe - snd oe) * (fst oe - snd oe) / snd oe)
           (combine f_obs f_exp)) in
  Ok (stat,
      if (List.length f_obs <? 2)%nat then None else Some (1 / (1 + stat))).

Definition lib : Library := mkLibrary getattr log kstest chisquare.

End ToyStats.


(* ================================================================== *)
(** * [queue_models.py]: the discrete-event simulator *)

(** The heap of Python list objects: a simulator's three sample lists
    are objects that its results refer to, not copies. *)
Abbreviation store := (gmap nat (list Q)).

Definition alloc (σ : store) : nat * store :=
  let l := fresh (dom σ) in (l, <[l := []]> σ).

Definition deref (σ : store) (l : nat) : list Q := default [] (σ !! l).

(** [xs.append(x)] on the list object at [l]. *)
Definition list_append (l : nat) (x : Q) (σ : store) : store :=
  alter (fun xs => xs ++ [x]) l σ.

(** A [QueueSimulator] object. *)
Record QueueSimulator : Type := mkQueueSimulator {
  s_lambda_rate : Q;
  s_mu_rate : Q;
  c_servers : Z;
  sim_time : Q;
  wait_times : nat;
  system_times : nat;
  queue_lengths : nat
}.

(** [QueueSimulator.__init__] ([sim_time] defaults to 10000 in the
    source): the three lists are created empty. *)
Definition QueueSimulator_init (lambda_rate mu_rate : Q) (c_servers : Z)
  (sim_time : Q) (σ : store) : QueueSimulator * store :=
  let '(w, σ) := alloc σ in
  let '(s, σ) := alloc σ in
  let '(q, σ) := alloc σ in
  (mkQueueSimulator lambda_rate mu_rate c_servers sim_time w s q, σ).

(** The dictionary returned by [run_simulation]; the last three entries
    are the simulator's own list objects. *)
Record SimulationResult : Type := mkSimulationResult {
  Wq_simulated : float_or_nan;
  W_simulated : float_or_nan;
  Lq_simulated : float_or_nan;
  L_simulated : float_or_nan;
  total_customers : nat;
  r_sim_time : Q;
  r_wait_times : nat;
  r_system_times : nat;
  r_queue_lengths : nat
}.

(** [np.mean] of a list: [nan] when the list is empty. *)
Definition np_mean (xs : list Q) : float_or_nan :=
  match xs with
  | [] => None
  | _ :: _ => Some (sum xs / inject_Z (Z.of_nat (List.length xs)))
  end.

(** The events SimPy schedules for the two processes of the simulator. *)
Inductive event : Type :=
| GeneratorStart
| GeneratorWake
| CustomerStart
| Granted (arrive : Q)
| ServiceDone (arrive : Q)
| Released
| Until.

(** An entry of the event queue: SimPy orders entries by time, then
    priority (urgent before normal), then insertion number. *)
Record scheduled : Type := mkScheduled {
  at_time : Q;
  priority : nat;
  number : nat;
  what : event
}.

Definition URGENT : nat := 0.
Definition NORMAL : nat := 1.

(** [a] goes before [b] in the event queue. *)
Definition before (a b : scheduled) : bool :=
  match at_time a ?= at_time b with
  | Lt => true
  | Gt => false
  | Eq =>
      (priority a <? priority b)%nat
      || ((priority a =? priority b)%nat && (number a <? number b)%nat)
  end.

Fixpoint enqueue (s : scheduled) (queue : list scheduled) : list scheduled :=
  match queue with
  | [] => [s]
  | x :: rest => if before s x then s :: queue else x :: enqueue s rest
  end.

Section Simulation.
(** The pseudo-random generator: the global state that
    [np.random.seed(seed)] installs (it refuses some seeds) and one draw
    of [expon.rvs(scale=...)] from a state. *)
Variable G : Type.
Variable np_random_seed : Z -> res G.
Variable expon_rvs : Q -> G -> Q * G.

(** A running [simpy.Environment] with its one [Resource] and the
    global generator state. *)
Record Env : Type := mkEnv {
  now : Q;
  next_number : nat;
  queue : list scheduled;
  rng : G;
  users : nat;
  put_queue : list Q;
  customer_count : nat
}.

(** [env.schedule(event, priority, delay)]. *)
Definition schedule (e : Env) (prio : nat) (delay : Q) (ev : event) : Env :=
  mkEnv (now e) (S (next_number e))
    (enqueue (mkScheduled (now e + delay) prio (next_number e) ev) (queue e))
    (rng e) (users e) (put_queue e) (customer_count e).

(** [env.timeout(delay)]: a negative delay is refused. *)
Definition timeout (e : Env) (delay : Q) (ev : event) : res Env :=
  if Qltb delay 0 then Raise ValueError
  else Ok (schedule e NORMAL delay ev).

(** The resource serves the head of its queue when a server is free;
    the request then succeeds, which schedules the resumption of the
    customer that made it. *)
Definition trigger_put (capacity : Z) (e : Env) : Env :=
  match put_queue e with
  | [] => e
  | arrive :: rest =>
      if (Z.of_nat (users e) <? capacity)%Z
      then schedule
             (mkEnv (now e) (next_number e) (queue e) (rng e)
                (S (users e)) rest (customer_count e))
             NORMAL 0 (Granted arrive)
      else e
  end.

(** One draw from the global generator. *)
Definition draw (scale : Q) (e : Env) : Q * Env :=
  let '(x, g) := expon_rvs scale (rng e) in
  (x, mkEnv (now e) (next_number e) (queue e) g (users e) (put_queue e)
        (customer_count e)).

(** [QueueSimulator.customer_generator], from the start of the process
    ([resumed = false]) or from the [yield] in its loop
    ([resumed = true]) to the next [yield].  After the [yield] it counts
    the customer, starts the customer's process (an urgent event at the
    current time) and records [len(server.queue)]; then, in both cases,
    it draws the next gap and waits for it. *)
Definition customer_generator (self : QueueSimulator) (resumed : bool)
  (e : Env) (σ : store) : res (Env * store) :=
  let '(e, σ) :=
    if resumed then
      let e := mkEnv (now e) (next_number e) (queue e) (rng e) (users e)
                 (put_queue e) (S (customer_count e)) in
      let e := schedule e URGENT 0 CustomerStart in
      (e, list_append (queue_lengths self)
            (inject_Z (Z.of_nat (List.length (put_queue e)))) σ)
    else (e, σ) in
  scale <- pydiv 1 (s_lambda_rate self) ;;
  let '(interarrival, e) := draw scale e in
  e <- timeout e interarrival GeneratorWake ;;
  Ok (e, σ).

(** Where a customer process is suspended. *)
Inductive customer_at : Type :=
| AtStart
| AtRequest (arrive : Q)
| InService (arrive : Q).

(** [QueueSimulator.customer], from one suspension to the next.
    - From the start: [arrive] is the current time and the request joins
      the resource's queue.
    - From [yield req]: the wait is recorded, the service time drawn and
      waited for.
    - From the service timeout to the end: the system time is recorded
      and the server released (the release is itself an event, and so
      is the end of the process, which nothing waits for). *)
Definition customer (self : QueueSimulator) (at_ : customer_at) (e : Env)
  (σ : store) : res (Env * store) :=
  match at_ with
  | AtStart =>
      let arrive := now e in
      let e := mkEnv (now e) (next_number e) (queue e) (rng e) (users e)
                 (put_queue e ++ [arrive]) (customer_count e) in
      Ok (trigger_put (c_servers self) e, σ)
  | AtRequest arrive =>
      let wait := now e - arrive in
      let σ := list_append (wait_times self) wait σ in
      scale <- pydiv 1 (s_mu_rate self) ;;
      let '(service_time, e) := draw scale e in
      e <- timeout e service_time (ServiceDone arrive) ;;
      Ok (e, σ)
  | InService arrive =>
      let system_time := now e - arrive in
      let σ := list_append (system_times self) system_time σ in
      let e := mkEnv (now e) (next_number e) (queue e) (rng e)
                 (Nat.pred (users e)) (put_queue e) (customer_count e) in
      let e := schedule e NORMAL 0 Released in
      let e := mkEnv (now e) (S (next_number e)) (queue e) (rng e)
                 (users e) (put_queue e) (customer_count e) in
      Ok (e, σ)
  end.

(** What the processing of an event resumes. *)
Definition resume (self : QueueSimulator) (ev : event) (e : Env)
  (σ : store) : res (Env * store) :=
  match ev with
  | GeneratorStart => customer_generator self false e σ
  | GeneratorWake => customer_generator self true e σ
  | CustomerStart => customer self AtStart e σ
  | Granted arrive => customer self (AtRequest arrive) e σ
  | ServiceDone arrive => customer self (InService arrive) e σ
  | Released => Ok (trigger_put (c_servers self) e, σ)
  | Until => Ok (e, σ)
  end.

(** [env.run(until=...)]: events are processed in queue order until the
    [Until] event is reached (SimPy raises [RuntimeError] if the queue
    runs dry before).  [None] when [fuel] events were not enough. *)
Fixpoint env_run (fuel : nat) (self : QueueSimulator) (e : Env)
  (σ : store) : option (res (Env * store)) :=
  match fuel with
  | O => None
  | S fuel' =>
      match queue e with
      | [] => Some (Raise (LibraryError "RuntimeError"))
      | s :: rest =>
          let e := mkEnv (at_time s) (next_number e) rest (rng e)
                     (users e) (put_queue e) (customer_count e) in
          match what s with
          | Until => Some (Ok (e, σ))
          | ev =>
              match resume self ev e σ with
              | Ok (e', σ') => env_run fuel' self e' σ'
              | Raise x => Some (Raise x)
              | NonFinite => Some NonFinite
              end
          end
      end
  end.

(** [QueueSimulator.run_simulation]. *)
Definition run_simulation (fuel : nat) (self : QueueSimulator) (seed : Z)
  (σ : store) : option (res (SimulationResult * store)) :=
  match np_random_seed seed with
  | Raise x => Some (Raise x)
  | NonFinite => Some NonFinite
  | Ok g =>
  let env := mkEnv 0 0 [] g 0 [] 0 in
  if (c_servers self <=? 0)%Z then Some (Raise ValueError) else
  let env := schedule env URGENT 0 GeneratorStart in
  if Qle_bool (sim_time self) 0 then Some (Raise ValueError) else
  let env := schedule env URGENT (sim_time self) Until in
  match env_run fuel self env σ with
  | None => None
  | Some (Raise x) => Some (Raise x)
  | Some NonFinite => Some NonFinite
  | Some (Ok (_, σ)) =>
      let wq_sim := np_mean (deref σ (wait_times self)) in
      let w_sim := np_mean (deref σ (system_times self)) in
      let lq_sim := np_mean (deref σ (queue_lengths self)) in
      Some (a <- pydiv (s_lambda_rate self) (s_mu_rate self) ;;
            let l_sim := option_map (fun lq => lq + a) lq_sim in
            Ok (mkSimulationResult wq_sim w_sim lq_sim l_sim
                  (List.length (deref σ (wait_times self)))
                  (sim_time self)
                  (wait_times self) (system_times self)
                  (queue_lengths self), σ))
  end
  end.
End Simulation.

(** A sequence of [append] calls, each on the list object at a location,
    and the values it appends to the list at [l]. *)
Definition appends (acts : list (nat * Q)) (σ : store) : store :=
  fold_left (fun σ act => list_append (fst act) (snd act) σ) acts σ.

Definition samples_at (l : nat) (acts : list (nat * Q)) : list Q :=
  map snd (filter (fun act => (fst act =? l)%nat) acts).

(** The three sample lists of a simulator, by name. *)
Inductive sample_list : Type := WaitTimes | SystemTimes | QueueLengths.

Definition sample_list_eqb (a b : sample_list) : bool :=
  match a, b with
  | WaitTimes, WaitTimes | SystemTimes, SystemTimes
  | QueueLengths, QueueLengths => true
  | _, _ => false
  end.

Definition list_of (self : QueueSimulator) (which : sample_list) : nat :=
  match which with
  | WaitTimes => wait_times self
  | SystemTimes => system_times self
  | QueueLengths => queue_lengths self
  end.

(** Samples recorded in time order, each for one of the three lists, as
    [append] calls on the lists of [self]. *)
Definition locate (self : QueueSimulator)
  (samples : list (sample_list * Q)) : list (nat * Q) :=
  map (fun s => (list_of self (fst s), snd s)) samples.

Definition samples_for (which : sample_list)
  (samples : list (sample_list * Q)) : list Q :=
  map snd (filter (fun s => sample_list_eqb (fst s) which) samples).

(** Two simulator objects built with the same arguments. *)
Definition same_parameters (a b : QueueSimulator) : Prop :=
  s_lambda_rate a = s_lambda_rate b /\
  s_mu_rate a = s_mu_rate b /\
  c_servers a = c_servers b /\
  sim_time a = sim_time b.

(** A computation on a simulator and a store does the same on every
    simulator with the same parameters and in every store: the same
    outcome and the same samples, appended to that simulator's lists. *)
Definition same_everywhere {A : Type}
  (run : QueueSimulator -> store -> option (res (A * store)))
  (self : QueueSimulator) (σ : store) : Prop :=
  match run self σ with
  | Some (Ok (a, σ')) =>
      exists samples,
        σ' = appends (locate self samples) σ /\
        forall self' τ, same_parameters self self' ->
          run self' τ = Some (Ok (a, appends (locate self' samples) τ))
  | other =>
      forall self' τ, same_parameters self self' -> run self' τ = other
  end.

(** The dictionary [run_simulation] builds from the simulator and the
    store it leaves. *)
Definition result_of (self : QueueSimulator) (σ : store)
  : SimulationResult :=
  let lq_sim := np_mean (deref σ (queue_lengths self)) in
  mkSimulationResult
    (np_mean (deref σ (wait_times self)))
    (np_mean (deref σ (system_times self)))
    lq_sim
    (option_map (fun lq => lq + s_lambda_rate self / s_mu_rate self) lq_sim)
    (List.length (deref σ (wait_times self)))
    (sim_time self)
    (wait_times self) (system_times self) (queue_lengths self).

(* ================================================================== *)
(** * A small stand-in for the random generator

    The theorems about the simulator hold for every generator.  To run
    it on concrete parameters this instance is used: the state is a
    counter started at the seed (seeds are accepted in NumPy's range
    [0, 2^32 - 1]), and a draw returns the scale times one of
    [1/2, 1, 3/2, 2] in turn. *)

Module ToyRandom.

Definition seed (s : Z) : res Z :=
  if ((0 <=? s) && (s <? 2 ^ 32))%Z then Ok s else Raise ValueError.

Definition rvs (scale : Q) (g : Z) : Q * Z :=
  (scale * (inject_Z (1 + g mod 4) / 2), (g + 1)%Z).

End ToyRandom.

(* ================================================================== *)
(** * [optimizer.py]: scenario comparison and the sensitivity table *)

(** A scenario dictionary: each of its three keys may be missing. *)
Record Scenario : Type := mkScenario {
  sc_name : option string;
  sc_cost_server : option Q;
  sc_cost_waiting : option Q
}.

(** The dictionary of [optimize] with the entry ['scenario_name'] that
    [compare_scenarios] adds to it. *)
Record ScenarioResult : Type := mkScenarioResult {
  opt_result : OptimizationResult;
  scenario_name : string
}.

(** The body of the loop of [compare_scenarios]: the temporary optimiser
    takes the rates of [self] and the costs of the scenario, and runs
    [optimize()] with its default arguments. *)
Definition compare_body (self : CostOptimizer)
  (results : list ScenarioResult) (scenario : Scenario)
  : res (list ScenarioResult) :=
  cost_server <- subscript "cost_server" (sc_cost_server scenario) ;;
  cost_waiting <- subscript "cost_waiting" (sc_cost_waiting scenario) ;;
  let temp_optimizer :=
    mkCostOptimizer (o_lambda_rate self) (o_mu_rate self)
      cost_server cost_waiting in
  r <- optimize temp_optimizer 1 50 None ;;
  name <- subscript "name" (sc_name scenario) ;;
  Ok (results ++ [mkScenarioResult r name]).

(** [CostOptimizer.compare_scenarios]. *)
Definition compare_scenarios (self : CostOptimizer)
  (scenarios : list Scenario) : res (list ScenarioResult) :=
  for_each scenarios (compare_body self) [].

(** A complete scenario dictionary. *)
Definition scenario_of (spec : string * Q * Q) : Scenario :=
  let '(name, cost_server, cost_waiting) := spec in
  mkScenario (Some name) (Some cost_server) (Some cost_waiting).

Module SensitivitySpec.
Section Params.
Variables (lam mu cost_server cost_waiting : Q).

(** The seven parallel lists for the server counts [cs], before the
    optimum is added. *)
Definition table (cs : list Z) : Sensitivity :=
  mkSensitivity cs
    (map (fun c => inject_Z c * cost_server
                   + Formula.Lq lam mu c * cost_waiting) cs)
    (map (fun c => inject_Z c * cost_server) cs)
    (map (fun c => Formula.Lq lam mu c * cost_waiting) cs)
    (map (Formula.rho lam mu) cs)
    (map (Formula.Wq lam mu) cs)
    (map (Formula.Lq lam mu) cs)
    None None.

(** One iteration of the loop on a positive server count. *)
Definition step (results : Sensitivity) (c : Z) : Sensitivity :=
  if OptimizerSpec.stable lam mu c
  then mkSensitivity
         (c_values results ++ [c])
         (total_costs results
          ++ [inject_Z c * cost_server + Formula.Lq lam mu c * cost_waiting])
         (server_costs results ++ [inject_Z c * cost_server])
         (waiting_costs results ++ [Formula.Lq lam mu c * cost_waiting])
         (utilizations results ++ [Formula.rho lam mu c])
         (wq_values results ++ [Formula.Wq lam mu c])
         (lq_values results ++ [Formula.Lq lam mu c])
         (optimal_c results) (optimal_cost results)
  else results.
End Params.
End SensitivitySpec.

(** [b] is at index [k] of [xs] and is its first minimum. *)
Definition first_min_at {A : Type} (cost : A -> Q) (xs : list A) (k : nat)
  (b : A) : Prop :=
  nth_error xs k = Some b /\
  (forall j y, (j < k)%nat -> nth_error xs j = Some y -> cost b < cost y) /\
  (forall j y, nth_error xs j = Some y -> cost b <= cost y).

(* ================================================================== *)
(** * [queue_models.py]: invariants of the event loop *)

Definition is_customer_start (ev : event) : bool :=
  match ev with CustomerStart => true | _ => false end.

Definition is_granted (ev : event) : bool :=
  match ev with Granted _ => true | _ => false end.

Definition is_service_done (ev : event) : bool :=
  match ev with ServiceDone _ => true | _ => false end.

(** The number of scheduled events of one kind. *)
Definition count_events (p : event -> bool) (queue : list scheduled) : nat :=
  List.length (filter (fun s => p (what s)) queue).

(** The arrival time that an event of a customer carries. *)
Definition arrival_of (ev : event) : option Q :=
  match ev with
  | Granted arrive | ServiceDone arrive => Some arrive
  | _ => None
  end.

Definition time_le (a b : scheduled) : Prop := at_time a <= at_time b.

Section SimulationInvariant.
Variable G : Type.
Variable self : QueueSimulator.

(** The clock never runs backwards: the event queue is ordered by time
    and holds nothing earlier than [now], and every arrival time that a
    waiting or served customer remembers is in the past. *)
Definition order_inv (e : Env G) : Prop :=
  StronglySorted time_le (queue G e) /\
  Forall (fun s => now G e <= at_time s) (queue G e) /\
  Forall (fun arrive => arrive <= now G e) (put_queue G e) /\
  Forall (fun s => match arrival_of (what s) with
                   | Some arrive => arrive <= now G e
                   | None => True
                   end) (queue G e).

(** Where every customer is.  [pending] is the event queue, with the
    event being processed in front of it.  A server is in use for each
    customer that has been granted one or is in service; a customer that
    has recorded its wait but not yet its system time is in service; a
    customer that has been counted on arrival but has not recorded its
    wait has its process about to start, waits in the resource's queue,
    or has just been granted a server. *)
Definition count_inv (pending : list scheduled) (e : Env G) (σ : store)
  : Prop :=
  let W := deref σ (wait_times self) in
  let Sy := deref σ (system_times self) in
  let Ql := deref σ (queue_lengths self) in
  users G e = (count_events is_granted pending
               + count_events is_service_done pending)%nat /\
  (Z.of_nat (users G e) <= c_servers self)%Z /\
  List.length W =
    (List.length Sy + count_events is_service_done pending)%nat /\
  List.length Ql =
    (List.length W + count_events is_customer_start pending
     + List.length (put_queue G e) + count_events is_granted pending)%nat /\
  Forall (fun x => 0 <= x) W /\
  Forall (fun x => 0 <= x) Sy /\
  Forall (fun x => 0 <= x) Ql /\
  match Ql with [] => True | first :: _ => first = 0 end /\
  is_Some (σ !! wait_times self) /\
  is_Some (σ !! system_times self) /\
  is_Some (σ !! queue_lengths self).

Definition sim_inv (e : Env G) (σ : store) : Prop :=
  order_inv e /\ count_inv (queue G e) e σ.
End SimulationInvariant.

(* ================================================================== *)
(** * [data_processor.py]: the log processor

    A [pandas.DataFrame] of server logs is modelled by its length and
    the three columns the code reads, each of which may be missing.  A
    [datetime64] value of the column ['timestamp'] is the (possibly
    fractional) number of seconds since the epoch.  The square root that
    [np.std] takes is a parameter. *)

Record DataFrame : Type := mkDataFrame {
  n_rows : nat;
  arrival_time : option (list Q);
  timestamp : option (list Q);
  service_time : option (list Q)
}.

(** Every column of a frame has as many entries as the frame has rows. *)
Definition column_ok (n : nat) (col : option (list Q)) : Prop :=
  match col with
  | Some values => List.length values = n
  | None => True
  end.

Definition frame_ok (df : DataFrame) : Prop :=
  column_ok (n_rows df) (arrival_time df) /\
  column_ok (n_rows df) (timestamp df) /\
  column_ok (n_rows df) (service_time df).

(** A [DataProcessor] object; [data] is [None] until a file is loaded. *)
Record DataProcessor : Type := mkDataProcessor {
  dp_data : option DataFrame
}.

(** [DataProcessor.__init__]. *)
Definition DataProcessor_init : DataProcessor := mkDataProcessor None.

(** [np.diff]: the differences of consecutive entries. *)
Fixpoint np_diff (a : list Q) : list Q :=
  match a with
  | x :: (y :: _) as rest => (y - x) :: np_diff rest
  | _ => []
  end.

(** [df.columns] when [df] may be [None]. *)
Definition columns (df : option DataFrame) : res DataFrame :=
  match df with
  | Some d => Ok d
  | None => Raise (AttributeError "columns")
  end.

(** [timestamps.astype('datetime64[s]').astype(float)]: the conversion to
    whole seconds rounds down. *)
Definition whole_seconds (timestamps : list Q) : list Q :=
  map (fun t => inject_Z (Qfloor t)) timestamps.

(** [df = self.data] when the argument is [None]. *)
Definition frame_argument (self : DataProcessor) (df : option DataFrame)
  : option DataFrame :=
  match df with
  | None => dp_data self
  | Some _ => df
  end.

(** [DataProcessor.calculate_interarrival_times]. *)
Definition calculate_interarrival_times (self : DataProcessor)
  (df : option DataFrame) : res (list Q) :=
  let df := frame_argument self df in
  d <- columns df ;;
  match arrival_time d with
  | Some values => Ok (np_diff values)
  | None =>
      match timestamp d with
      | Some timestamps => Ok (np_diff (whole_seconds timestamps))
      | None => Raise ValueError
      end
  end.

(** The five numbers [get_statistics] reports for a sample. *)
Record Summary : Type := mkSummary {
  s_mean : Q;
  s_std : Q;
  s_min : Q;
  s_max : Q;
  s_median : Q
}.

(** The entry ['rates'] of the statistics. *)
Record Rates : Type := mkRates {
  lambda_per_second : Q;
  lambda_per_hour : Q;
  mu_per_second : Q;
  mu_per_hour : Q;
  traffic_intensity : Q
}.

(** The dictionary returned by [get_statistics]; the last two entries
    exist only when the frame has a column ['service_time']. *)
Record Statistics : Type := mkStatistics {
  total_requests : nat;
  st_interarrival : Summary;
  st_service_time : option Summary;
  st_rates : option Rates
}.

(** [np.mean] of a non-empty array. *)
Definition mean_value (a : list Q) : Q :=
  sum a / inject_Z (Z.of_nat (List.length a)).

(** [np.sort]. *)
Fixpoint insert_sorted (x : Q) (sorted : list Q) : list Q :=
  match sorted with
  | [] => [x]
  | y :: rest =>
      if Qle_bool x y then x :: sorted else y :: insert_sorted x rest
  end.

Definition np_sort (a : list Q) : list Q := fold_right insert_sorted [] a.

(** [np.median] of a non-empty array: the middle of the sorted values,
    or the mean of the two middle ones. *)
Definition np_median (a : list Q) : Q :=
  let sorted := np_sort a in
  let n := List.length a in
  if Nat.even n
  then (nth (n / 2 - 1) sorted 0 + nth (n / 2) sorted 0) / 2
  else nth (n / 2) sorted 0.

Section Statistics.
Variable np_sqrt : Q -> Q.

(** [np.std]: the root of the mean squared deviation. *)
Definition np_std (a : list Q) : Q :=
  let m := mean_value a in
  np_sqrt (mean_value (map (fun x => (x - m) * (x - m)) a)).

(** The dictionary of ['mean'], ['std'], ['min'], ['max'] and ['median'].
    On an empty array [np.mean] and [np.std] return [nan] with a warning,
    and [np.min], which comes next, raises [ValueError]. *)
Definition describe (a : list Q) : res Summary :=
  match a with
  | [] => Raise ValueError
  | x :: rest =>
      Ok (mkSummary (mean_value a) (np_std a)
            (fold_left Qmin rest x) (fold_left Qmax rest x) (np_median a))
  end.

(** [DataProcessor.get_statistics]. *)
Definition get_statistics (self : DataProcessor) (df : option DataFrame)
  : res Statistics :=
  let df := frame_argument self df in
  interarrival <- calculate_interarrival_times self df ;;
  d <- columns df ;;
  let service_times := service_time d in
  interarrival_stats <- describe interarrival ;;
  match service_times with
  | None => Ok (mkStatistics (n_rows d) interarrival_stats None None)
  | Some service_times =>
      service_stats <- describe service_times ;;
      lambda_rate <- npdiv 1 (mean_value interarrival) ;;
      mu_rate <- npdiv 1 (mean_value service_times) ;;
      intensity <- npdiv lambda_rate mu_rate ;;
      Ok (mkStatistics (n_rows d) interarrival_stats (Some service_stats)
            (Some (mkRates lambda_rate (lambda_rate * 3600)
                     mu_rate (mu_rate * 3600) intensity)))
  end.
End Statistics.

(** [timestamp.dt.hour]. *)
Definition hour_of (t : Q) : Z := ((Qfloor t / 3600) mod 24)%Z.

(** [df.groupby('hour').size()]: the hours that occur, in ascending
    order, each with its number of rows. *)
Definition count_hour (hours : list Z) (h : Z) : nat :=
  List.length (filter (Z.eqb h) hours).

Definition groupby_size (hours : list Z) : list (Z * nat) :=
  filter (fun entry => negb (snd entry =? 0)%nat)
    (map (fun h => (h, count_hour hours h)) (range 24)).

(** [Series.idxmax] and [Series.idxmin]: the first entry that holds the
    largest (smallest) value. *)
Fixpoint idxmax_from (best : Z * nat) (entries : list (Z * nat))
  : Z * nat :=
  match entries with
  | [] => best
  | entry :: rest =>
      if (snd best <? snd entry)%nat then idxmax_from entry rest
      else idxmax_from best rest
  end.

Fixpoint idxmin_from (best : Z * nat) (entries : list (Z * nat))
  : Z * nat :=
  match entries with
  | [] => best
  | entry :: rest =>
      if (snd entry <? snd best)%nat then idxmin_from entry rest
      else idxmin_from best rest
  end.

(** The dictionary returned by [detect_patterns]: the error layout, or
    the six entries. *)
Inductive Patterns : Type :=
| PatternsError (error : string)
| PatternsFound (peak_hour : Z) (peak_hour_requests : nat)
    (low_hour : Z) (low_hour_requests : nat)
    (hourly_distribution : list (Z * nat)) (peak_to_average_ratio : Q).

(** [DataProcessor.detect_patterns]. *)
Definition detect_patterns (self : DataProcessor) (df : option DataFrame)
  : res Patterns :=
  let df := frame_argument self df in
  d <- columns df ;;
  match timestamp d with
  | None => Ok (PatternsError "Se requiere columna timestamp")
  | Some timestamps =>
      let hourly_counts := groupby_size (map hour_of timestamps) in
      match hourly_counts with
      | [] => Raise ValueError
      | first :: rest =>
          let peak := idxmax_from first rest in
          let low := idxmin_from first rest in
          let counts :=
            map (fun entry => inject_Z (Z.of_nat (snd entry)))
              hourly_counts in
          ratio <- npdiv (inject_Z (Z.of_nat (snd peak)))
                     (mean_value counts) ;;
          Ok (PatternsFound (fst peak) (snd peak) (fst low) (snd low)
                hourly_counts ratio)
      end
  end.

(** The number of requests of an entry of the hourly table, as a cost. *)
Definition count_cost (entry : Z * nat) : Q :=
  inject_Z (Z.of_nat (snd entry)).

(** [np.cumsum]. *)
Fixpoint cumsum_from (acc : Q) (a : list Q) : list Q :=
  match a with
  | [] => []
  | x :: rest => (acc + x) :: cumsum_from (acc + x) rest
  end.

Definition np_cumsum (a : list Q) : list Q :=
  match a with
  | [] => []
  | x :: rest => x :: cumsum_from x rest
  end.

(** [round]: to the nearest integer, ties to the even one. *)
Definition round_half_even (x : Q) : Z :=
  let f := Qfloor x in
  match Qcompare (x - inject_Z f) (1 # 2) with
  | Lt => f
  | Gt => (f + 1)%Z
  | Eq => if Z.even f then f else (f + 1)%Z
  end.

(** [timedelta(seconds=t)], in seconds: a [timedelta] holds whole
    microseconds. *)
Definition timedelta_seconds (t : Q) : Q :=
  inject_Z (round_half_even (t * 1000000)) / 1000000.

(** [os.path.dirname]: what precedes the last slash, without trailing
    slashes unless it consists of slashes only. *)
Definition slash : Ascii.ascii := Ascii.ascii_of_nat 47.

Definition is_slash (ch : Ascii.ascii) : bool := Ascii.eqb ch slash.

Fixpoint drop_while (p : Ascii.ascii -> bool) (l : list Ascii.ascii)
  : list Ascii.ascii :=
  match l with
  | [] => []
  | ch :: rest => if p ch then drop_while p rest else l
  end.

Definition dirname (path : string) : string :=
  let chars := list_ascii_of_string path in
  let head := rev (drop_while (fun ch => negb (is_slash ch)) (rev chars)) in
  let head :=
    if forallb is_slash head then head
    else rev (drop_while is_slash (rev head)) in
  string_of_list_ascii head.

Section SyntheticData.
(** The outside world of [generate_synthetic_data]: NumPy's global
    generator ([np.random.seed], and [np.random.exponential] with a scale
    and a size), the parser [pd.to_datetime] (its result in seconds since
    the epoch), and the file system with [os.makedirs(..., exist_ok=True)]
    and [DataFrame.to_csv]. *)
Variable G : Type.
Variable np_random_seed : Z -> res G.
Variable np_random_exponential : Q -> Z -> G -> res (list Q * G).
Variable pd_to_datetime : string -> res Q.
Variable FS : Type.
Variable os_makedirs : string -> FS -> res FS.
Variable to_csv : DataFrame -> string -> FS -> res FS.

(** [DataProcessor.generate_synthetic_data]: returns the frame, and the
    generator and the file system as it leaves them.  The column
    ['request_id'], which nothing reads, and the line printed at the end
    are left out. *)
Definition generate_synthetic_data (n_requests : Z)
  (lambda_rate mu_rate : Q) (start_date output_file : string) (fs : FS)
  : res (DataFrame * G * FS) :=
  g <- np_random_seed 42 ;;
  let lambda_sec := lambda_rate / 3600 in
  let mu_sec := mu_rate / 3600 in
  scale <- pydiv 1 lambda_sec ;;
  drawn <- np_random_exponential scale n_requests g ;;
  let '(interarrival_times, g) := drawn in
  let arrival_times := np_cumsum interarrival_times in
  scale <- pydiv 1 mu_sec ;;
  drawn <- np_random_exponential scale n_requests g ;;
  let '(service_times, g) := drawn in
  start <- pd_to_datetime start_date ;;
  let timestamps :=
    map (fun t => start + timedelta_seconds t) arrival_times in
  let df :=
    mkDataFrame (Z.to_nat n_requests) (Some arrival_times)
      (Some timestamps) (Some service_times) in
  fs <- os_makedirs (dirname output_file) fs ;;
  fs <- to_csv df output_file fs ;;
  Ok (df, g, fs).
End SyntheticData.

(** Stand-ins for the outside world of [generate_synthetic_data], to run
    it: [size] draws of the stand-in generator, a parser that knows one
    date, and a file system that is the list of the paths written, in
    which the empty path cannot be created. *)
Module ToySystem.

Fixpoint draws (scale : Q) (size : nat) (g : Z) : list Q * Z :=
  match size with
  | O => ([], g)
  | S k =>
      let '(x, g) := ToyRandom.rvs scale g in
      let '(rest, g) := draws scale k g in
      (x :: rest, g)
  end.

Definition exponential (scale : Q) (size : Z) (g : Z) : res (list Q * Z) :=
  if Qltb scale 0 then Raise ValueError
  else if (size <? 0)%Z then Raise ValueError
  else Ok (draws scale (Z.to_nat size) g).

Definition to_datetime (date : string) : res Q :=
  if String.eqb date "1970-01-01" then Ok 0 else Raise ValueError.

Definition makedirs (path : string) (fs : list string)
  : res (list string) :=
  if String.eqb path "" then Raise (LibraryError "FileNotFoundError")
  else Ok fs.

Definition to_csv (df : DataFrame) (path : string) (fs : list string)
  : res (list string) := Ok (fs ++ [path]).

End ToySystem.

(* ================================================================== *)
(** * [distribution_fitter.py]: the data for the plots *)

(** [np.linspace(start, stop, num)]. *)
Definition np_linspace (start stop : Q) (num : nat) : list Q :=
  let step := (stop - start) / inject_Z (Z.of_nat (num - 1)) in
  map (fun i => start + inject_Z (Z.of_nat i) * step) (seq 0 num).

(** The dictionary returned by [plot_fit]. *)
Record PlotData : Type := mkPlotData {
  p_distribution : string;
  p_params : list Q;
  qq_theoretical : list Q;
  qq_sample : list Q;
  pdf_x : list Q;
  pdf_y : list Q;
  data_hist : list Q
}.

Section Plot.
Variable lib : Library.
(** The further library calls of [plot_fit]: the quantile function and
    the density of a distribution object, and [np.percentile]. *)
Variable d_ppf : Distribution -> list Q -> list Q -> res (list Q).
Variable d_pdf : Distribution -> list Q -> list Q -> res (list Q).
Variable np_percentile : list Q -> list Q -> res (list Q).

(** [DistributionFitter.plot_fit]; [distribution] and [params] default to
    [None].  [getattr] refuses a name that is [None], and [*params]
    refuses to unpack [None]. *)
Definition plot_fit (self : DistributionFitter) (data : list Q)
  (distribution : option string) (params : option (list Q))
  : res (PlotData * DistributionFitter) :=
  chosen <- match distribution with
            | None =>
                r <- get_best_distribution lib self data "aic" ;;
                Ok (best_name (fst r), best_params (fst r), snd r)
            | Some _ => Ok (distribution, params, self)
            end ;;
  let '(distribution, params, self) := chosen in
  name <- match distribution with
          | Some name => Ok name
          | None => Raise TypeError
          end ;;
  dist <- stats_getattr lib name ;;
  params <- match params with
            | Some params => Ok params
            | None => Raise TypeError
            end ;;
  theoretical_quantiles <-
    d_ppf dist (np_linspace (1 # 100) (99 # 100) 100) params ;;
  sample_quantiles <- np_percentile data (np_linspace 1 99 100) ;;
  bounds <- match data with
            | [] => Raise ValueError
            | x :: rest => Ok (fold_left Qmin rest x, fold_left Qmax rest x)
            end ;;
  let x := np_linspace (fst bounds) (snd bounds) 1000 in
  pdf_fitted <- d_pdf dist x params ;;
  Ok (mkPlotData name params theoretical_quantiles sample_quantiles x
        pdf_fitted data, self).
End Plot.

(* ================================================================== *)
(** * [app/dashboard.py]: what the dashboard computes *)

(** The lower bound of the sliders: [int(np.ceil(lambda_rate / mu_rate))
    + 1]. *)
Definition dashboard_c_min (lambda_rate mu_rate : Q) : res Z :=
  r <- pydiv lambda_rate mu_rate ;;
  Ok (int_ceil r + 1)%Z.

(** The five numbers of the tab "Queue Analysis", as they are shown:
    utilisation in percent, Lq, Wq in minutes, the probability of waiting
    in percent and W in minutes. *)
Record QueueAnalysis : Type := mkQueueAnalysis {
  shown_utilization : Q;
  shown_Lq : Q;
  shown_Wq : Q;
  shown_Pw : Q;
  shown_W : Q
}.

(** The body of the [try] block of that tab, with the range checks of
    [Binary64Range] on the powers and factorials. *)
Definition queue_analysis (lambda_rate mu_rate : Q) (c_selected : Z)
  : res QueueAnalysis :=
  queue <- MMcQueue_init lambda_rate mu_rate c_selected ;;
  metrics <- Binary64Range.calculate_metrics64 queue ;;
  utilization <- metric "utilization_percent" m_utilization_percent
                   metrics ;;
  lq <- metric "Lq" m_Lq metrics ;;
  wq <- metric "Wq" m_Wq metrics ;;
  pw <- metric "Pw_erlang_c" m_Pw_erlang_c metrics ;;
  w <- metric "W" m_W metrics ;;
  Ok (mkQueueAnalysis utilization lq (wq * 60) (pw * 100) (w * 60)).

(** The tab as a whole: only [ValueError] is caught (and shown as an
    error message); any other exception escapes. *)
Definition queue_analysis_tab (lambda_rate mu_rate : Q) (c_selected : Z)
  : res (option QueueAnalysis) :=
  match queue_analysis lambda_rate mu_rate c_selected with
  | Ok shown => Ok (Some shown)
  | Raise ValueError => Ok None
  | Raise e => Raise e
  | NonFinite => NonFinite
  end.

(** The slider "Maximum Servers to Evaluate" of the sidebar offers the
    values 5 to 30. *)
Definition c_max_slider_max : Z := 30.

(** The three numbers of the tab "Cost Optimization"; nothing is shown
    when the optimisation fails. *)
Definition cost_optimization_tab (lambda_rate mu_rate cost_server
  cost_waiting : Q) (c_max : Z) : res (option (Z * bound * Q)) :=
  c_min <- dashboard_c_min lambda_rate mu_rate ;;
  let optimizer :=
    mkCostOptimizer lambda_rate mu_rate cost_server cost_waiting in
  result <- Binary64Range.optimize64 optimizer c_min c_max None ;;
  match result with
  | Infeasible _ => Ok None
  | Optimal optimal_c total_cost _ _ metrics _ _ =>
      wq <- metric "Wq" m_Wq metrics ;;
      Ok (Some (optimal_c, total_cost, wq * 60))
  end.
(* ================================================================== *)
(** * Basic facts about the runtime operations *)

Lemma Qltb_lt (x y : Q) : Qltb x y = true <-> x < y.
Proof.
  unfold Qltb. rewrite negb_true_iff.
  destruct (Qle_bool y x) eqn:E.
  - apply Qle_bool_iff in E. split; [discriminate | intro H; exfalso; lra].
  - split; [intros _ | reflexivity].
    destruct (Qlt_le_dec x y) as [H | H]; [exact H |].
    apply Qle_bool_iff in H. congruence.
Qed.

Lemma Qltb_ge (x y : Q) : Qltb x y = false <-> y <= x.
Proof.
  unfold Qltb. rewrite negb_false_iff. apply Qle_bool_iff.
Qed.

Lemma Qeq_bool_false (x y : Q) : ~ x == y -> Qeq_bool x y = false.
Proof.
  intro H. destruct (Qeq_bool x y) eqn:E; [| reflexivity].
  apply Qeq_bool_iff in E. contradiction.
Qed.

Lemma pydiv_ok (x y : Q) : ~ y == 0 -> pydiv x y = Ok (x / y).
Proof. intro H. unfold pydiv. now rewrite Qeq_bool_false. Qed.

Lemma pydiv_zero (x y : Q) : y == 0 -> pydiv x y = Raise ZeroDivisionError.
Proof. intro H. unfold pydiv. now rewrite (Qeq_eq_bool _ _ H). Qed.

Lemma npdiv_ok (x y : Q) : ~ y == 0 -> npdiv x y = Ok (x / y).
Proof. intro H. unfold npdiv. now rewrite Qeq_bool_false. Qed.

Lemma pypow_nonneg (x : Q) (n : Z) : (0 <= n)%Z -> pypow x n = Ok (x ^ n).
Proof.
  intro H. unfold pypow.
  replace (n <? 0)%Z with false by (symmetry; apply Z.ltb_ge; exact H).
  reflexivity.
Qed.

Lemma in_range2 (a b n : Z) : In n (range2 a b) <-> (a <= n < b)%Z.
Proof.
  unfold range2. rewrite in_map_iff. split.
  - intros [i [<- Hi]]. apply in_seq in Hi. lia.
  - intro H. exists (Z.to_nat (n - a)). split; [lia |].
    apply in_seq. lia.
Qed.

Lemma in_range (b n : Z) : In n (range b) <-> (0 <= n < b)%Z.
Proof. apply in_range2. Qed.

Lemma range2_sorted (a b : Z) : StronglySorted Z.lt (range2 a b).
Proof.
  unfold range2. generalize (Z.to_nat (b - a)) as k. generalize 0%nat as s.
  intros s k. revert s. induction k as [| k IH]; intro s; simpl.
  - constructor.
  - constructor; [apply IH |].
    apply Forall_forall. intros z Hz. apply in_map_iff in Hz.
    destruct Hz as [i [<- Hi]]. apply in_seq in Hi. lia.
Qed.

Lemma comprehension_ok {A B : Type} (f : A -> res B) (g : A -> B)
  (xs : list A) :
  (forall x, In x xs -> f x = Ok (g x)) ->
  comprehension f xs = Ok (map g xs).
Proof.
  induction xs as [| x xs IH]; intro H; simpl; [reflexivity |].
  rewrite (H x (or_introl eq_refl)). simpl.
  rewrite IH by (intros y Hy; apply H; now right).
  reflexivity.
Qed.

Lemma Zfact_succ (n : nat) : Zfact (S n) = (Zfact n * Z.of_nat (S n))%Z.
Proof.
  unfold Zfact. rewrite seq_S, map_app, fold_left_app. reflexivity.
Qed.

Lemma Zfact_pos (n : nat) : (0 < Zfact n)%Z.
Proof.
  induction n as [| n IH]; [reflexivity |].
  rewrite Zfact_succ. lia.
Qed.

Lemma factorial_pos (n : Z) : (0 <= n)%Z -> 0 < factorial n.
Proof.
  intro H. unfold factorial.
  replace (n <? 0)%Z with false by (symmetry; apply Z.ltb_ge; exact H).
  change 0 with (inject_Z 0). rewrite <- Zlt_Qlt. apply Zfact_pos.
Qed.

Lemma fold_left_Qplus_ge (xs : list Q) (acc : Q) :
  Forall (fun x => 0 <= x) xs -> acc <= fold_left Qplus xs acc.
Proof.
  revert acc. induction xs as [| x xs IH]; intros acc H; simpl.
  - lra.
  - inversion H as [| ? ? Hx Hxs]; subst.
    specialize (IH (acc + x) Hxs). lra.
Qed.

Lemma sum_nonneg (xs : list Q) : Forall (fun x => 0 <= x) xs -> 0 <= sum xs.
Proof. apply fold_left_Qplus_ge. Qed.

Lemma Qdiv_pos (a b : Q) : 0 < a -> 0 < b -> 0 < a / b.
Proof.
  intros Ha Hb. apply Qlt_shift_div_l; [exact Hb | lra].
Qed.

(* ================================================================== *)
(** * The code computes the closed-form metrics on valid stable input *)

Section StableConfiguration.
Variables (lam mu : Q) (c : Z).
Hypothesis lam_pos : 0 < lam.
Hypothesis mu_pos : 0 < mu.
Hypothesis c_pos : (1 <= c)%Z.
Hypothesis stable : Formula.rho lam mu c < 1.

Let capacity_pos : 0 < inject_Z c * mu.
Proof.
  assert (0 < inject_Z c) by (change 0 with (inject_Z 0); rewrite <- Zlt_Qlt; lia).
  apply Qmult_lt_0_compat; assumption.
Qed.

Lemma term_pos (n : Z) : (0 <= n)%Z -> 0 < Formula.term lam mu n.
Proof.
  intro Hn. unfold Formula.term. apply Qdiv_pos.
  - apply Qpower_0_lt. apply Qdiv_pos; assumption.
  - apply factorial_pos. exact Hn.
Qed.

Lemma one_minus_rho_pos : 0 < 1 - Formula.rho lam mu c.
Proof. lra. Qed.

Lemma erlang_sum_nonneg :
  0 <= sum (map (Formula.term lam mu) (range c)).
Proof.
  apply sum_nonneg. apply Forall_forall. intros x Hx.
  apply in_map_iff in Hx. destruct Hx as [n [<- Hn]].
  apply in_range in Hn. apply Qlt_le_weak. apply term_pos. lia.
Qed.

Lemma last_term_pos :
  0 < Formula.term lam mu c * (1 / (1 - Formula.rho lam mu c)).
Proof.
  apply Qmult_lt_0_compat.
  - apply term_pos. lia.
  - apply Qdiv_pos; [lra | apply one_minus_rho_pos].
Qed.

Lemma MMcQueue_init_stable :
  MMcQueue_init lam mu c =
  Ok (mkMMcQueue lam mu c (Formula.rho lam mu c)).
Proof.
  unfold MMcQueue_init. rewrite pydiv_ok by lra. reflexivity.
Qed.

Lemma p0_term_ok (n : Z) :
  (0 <= n)%Z -> p0_term lam mu n = Ok (Formula.term lam mu n).
Proof.
  intro Hn. unfold p0_term. rewrite pydiv_ok by lra. simpl.
  rewrite pypow_nonneg by exact Hn. simpl.
  rewrite npdiv_ok; [reflexivity |].
  pose proof (factorial_pos n Hn). lra.
Qed.

Lemma _calculate_p0_stable :
  _calculate_p0 (mkMMcQueue lam mu c (Formula.rho lam mu c)) =
  Ok (Formula.P0 lam mu c).
Proof.
  unfold _calculate_p0. simpl.
  rewrite (comprehension_ok _ (Formula.term lam mu)).
  2:{ intros n Hn. apply in_range in Hn. apply p0_term_ok. lia. }
  simpl. rewrite p0_term_ok by lia. simpl.
  rewrite pydiv_ok by (pose proof one_minus_rho_pos; lra). simpl.
  rewrite npdiv_ok; [reflexivity |].
  pose proof erlang_sum_nonneg. pose proof last_term_pos. lra.
Qed.

Lemma P0_pos : 0 < Formula.P0 lam mu c.
Proof.
  unfold Formula.P0. apply Qdiv_pos; [lra |].
  pose proof erlang_sum_nonneg. pose proof last_term_pos. lra.
Qed.

Lemma calculate_metrics_stable :
  calculate_metrics (mkMMcQueue lam mu c (Formula.rho lam mu c)) =
  Ok (Stable (Formula.metrics lam mu c)).
Proof.
  unfold calculate_metrics, is_stable. simpl.
  rewrite (proj2 (Qltb_lt _ _) stable). simpl.
  rewrite _calculate_p0_stable. simpl.
  rewrite p0_term_ok by lia. simpl.
  pose proof one_minus_rho_pos as H1.
  rewrite pydiv_ok by lra. simpl.
  rewrite npdiv_ok by lra. simpl.
  rewrite npdiv_ok by lra. simpl.
  rewrite pydiv_ok by lra. simpl.
  rewrite pydiv_ok by lra. simpl.
  reflexivity.
Qed.
End StableConfiguration.

(* ================================================================== *)
(** * Little's Law *)



(** For a single server the formulas reduce to the classical M/M/1
    ones: [P0 = 1 - ρ], [Pwait = ρ] and [Lq = ρ²/(1-ρ)] with [ρ = λ/μ]. *)
Lemma single_server_reduction (lam mu : Q) :
  0 < lam -> lam < mu ->
  Formula.rho lam mu 1 == lam / mu /\
  Formula.P0 lam mu 1 == 1 - lam / mu /\
  Formula.Pwait lam mu 1 == lam / mu /\
  Formula.Lq lam mu 1 == (lam / mu) * (lam / mu) / (1 - lam / mu).
Proof.
  intros Hlam Hlt.
  assert (Hrho : Formula.rho lam mu 1 == lam / mu)
    by (unfold Formula.rho; field; lra).
  assert (Hterm0 : sum (map (Formula.term lam mu) (range 1)) == 1)
    by (unfold Formula.term; vm_compute; reflexivity).
  assert (Hterm1 : Formula.term lam mu 1 == lam / mu).
  { unfold Formula.term. change (factorial 1) with 1.
    change ((lam / mu) ^ 1) with (lam / mu). field. lra. }
  assert (Hp0 : Formula.P0 lam mu 1 == 1 - lam / mu).
  { unfold Formula.P0. rewrite Hterm0, Hterm1, Hrho. field. lra. }
  assert (Hpw : Formula.Pwait lam mu 1 == lam / mu).
  { unfold Formula.Pwait. rewrite Hp0, Hterm1, Hrho. field. lra. }
  repeat split; try assumption.
  unfold Formula.Lq. rewrite Hpw, Hrho. reflexivity.
Qed.

(* ================================================================== *)
(** * Construction of a queue configuration *)

Lemma capacity_zero (mu : Q) (c : Z) :
  inject_Z c * mu == 0 <-> c = 0%Z \/ mu == 0.
Proof.
  split.
  - intro H. destruct (Z.eq_dec c 0) as [Hc | Hc]; [now left | right].
    destruct (Qeq_dec mu 0) as [Hm | Hm]; [exact Hm | exfalso].
    assert (Hi : ~ inject_Z c == 0).
    { intro E. apply Hc. unfold Qeq in E. simpl in E. lia. }
    apply (Qmult_integral _ _) in H. tauto.
  - intros [-> | H]; [| rewrite H]; ring.
Qed.

(** C3 (counterexample).  A configuration with a negative arrival rate
    is constructed without any error, keeps the negative rate, reports
    itself stable, and [calculate_metrics] produces a full set of metrics
    from it (among them the "probability" [P0 = 2]). *)
Lemma negative_rate_accepted :
  exists q m,
    MMcQueue_init (-1) 1 1 = Ok q /\
    lambda_rate q = -1 /\
    is_stable q = true /\
    calculate_metrics q = Ok (Stable m) /\
    m_P0 m == 2 /\ m_Wq m == - (1 # 2).
Proof.
  eexists. eexists.
  split; [vm_compute; reflexivity |].
  split; [reflexivity |].
  split; [vm_compute; reflexivity |].
  split; [vm_compute; reflexivity |].
  split; vm_compute; reflexivity.
Qed.

(** C3 (amended).  The constructor validates nothing.  It fails exactly
    when [c·μ = 0], that is when [c = 0] or [μ = 0], and then with the
    [ZeroDivisionError] of the division that computes ρ; for every other
    triple, whatever the signs, it succeeds and the object holds λ, μ and
    c as given (nothing is clamped) with [ρ = λ/(c·μ)]. *)
Theorem MMcQueue_init_validates_nothing (lam mu : Q) (c : Z) :
  (raises (MMcQueue_init lam mu c) = true <-> c = 0%Z \/ mu == 0) /\
  (MMcQueue_init lam mu c = Raise ZeroDivisionError \/
   MMcQueue_init lam mu c =
     Ok (mkMMcQueue lam mu c (lam / (inject_Z c * mu)))).
Proof.
  unfold MMcQueue_init, pydiv.
  destruct (Qeq_bool (inject_Z c * mu) 0) eqn:E; simpl.
  - apply Qeq_bool_iff in E. apply capacity_zero in E.
    split; [tauto | now left].
  - apply Qeq_bool_neq in E. rewrite capacity_zero in E.
    split; [| now right].
    split; [discriminate | tauto].
Qed.

(* ================================================================== *)
(** * The empty-system probability *)

Lemma range_of_nat (n : nat) : range (Z.of_nat n) = map Z.of_nat (seq 0 n).
Proof.
  unfold range, range2. rewrite Z.sub_0_r, Nat2Z.id. reflexivity.
Qed.

Lemma sum_snoc (xs : list Q) (x : Q) : sum (xs ++ [x]) = sum xs + x.
Proof. unfold sum. rewrite fold_left_app. reflexivity. Qed.

Lemma factorial_succ (n : nat) :
  factorial (Z.of_nat (S n)) ==
  factorial (Z.of_nat n) * inject_Z (Z.of_nat (S n)).
Proof.
  unfold factorial.
  replace (Z.of_nat (S n) <? 0)%Z with false by (symmetry; apply Z.ltb_ge; lia).
  replace (Z.of_nat n <? 0)%Z with false by (symmetry; apply Z.ltb_ge; lia).
  rewrite !Nat2Z.id, Zfact_succ, inject_Z_mult. reflexivity.
Qed.

Lemma Qpower_succ_nat (a : Q) (n : nat) :
  a ^ Z.of_nat (S n) == a ^ Z.of_nat n * a.
Proof.
  rewrite Nat2Z.inj_succ. unfold Z.succ.
  rewrite Qpower_plus' by lia. reflexivity.
Qed.

(** The power-over-factorial term equals the term of the recurrence. *)
Lemma term_iterative (lam mu : Q) (n : nat) :
  Formula.term lam mu (Z.of_nat n) == Iterative.term (lam / mu) n.
Proof.
  unfold Formula.term. set (a := lam / mu). clearbody a.
  induction n as [| n IH].
  - reflexivity.
  - cbn [Iterative.term].
    rewrite <- IH, Qpower_succ_nat, factorial_succ.
    pose proof (factorial_pos (Z.of_nat n) (Nat2Z.is_nonneg n)) as Hf.
    assert (Hk : 0 < inject_Z (Z.of_nat (S n))).
    { change 0 with (inject_Z 0). rewrite <- Zlt_Qlt. lia. }
    field. split; lra.
Qed.

(** The comprehension's sum equals the accumulated partial sum. *)
Lemma sum_iterative (lam mu : Q) (c : nat) :
  sum (map (Formula.term lam mu) (range (Z.of_nat c))) ==
  Iterative.partial_sum (lam / mu) c.
Proof.
  rewrite range_of_nat. induction c as [| c IH].
  - reflexivity.
  - rewrite seq_S, !map_app. cbn [map Nat.add]. rewrite sum_snoc.
    cbn [Iterative.partial_sum]. rewrite IH, term_iterative. reflexivity.
Qed.

Lemma P0_iterative (lam mu : Q) (c : nat) :
  Formula.P0 lam mu (Z.of_nat c) == Iterative.P0 lam mu c.
Proof.
  unfold Formula.P0, Iterative.P0, Formula.rho. cbv zeta.
  rewrite sum_iterative, term_iterative. reflexivity.
Qed.


(** At the same input every term of the recurrence stays far inside the
    binary64 range. *)
Lemma iterative_terms_in_range_at_201_servers :
  forallb Binary64Range.representable
    (map (Iterative.term (200 / 1)) (seq 0 202)) = true.
Proof. vm_compute. reflexivity. Qed.



(* ================================================================== *)
(** * The cost optimiser *)

Lemma for_each_pure {S A : Type} (body : S -> A -> res S) (f : S -> A -> S)
  (P : A -> Prop) (xs : list A) :
  (forall s x, P x -> body s x = Ok (f s x)) ->
  Forall P xs ->
  forall s, for_each xs body s = Ok (fold_left f xs s).
Proof.
  intros Hbody Hxs. induction Hxs as [| x xs Hx _ IH]; intro s; simpl.
  - reflexivity.
  - rewrite (Hbody s x Hx). simpl. apply IH.
Qed.

Section Optimize.
Variables (lam mu cs cw : Q) (sla : option Q).
Hypothesis lam_pos : 0 < lam.
Hypothesis mu_pos : 0 < mu.

Let self := mkCostOptimizer lam mu cs cw.
Let c_stability := (Qceiling (lam / mu) + 1)%Z.

(** At or above [⌈λ/μ⌉+1] servers the queue is stable. *)
Lemma above_threshold (c : Z) :
  (c_stability <= c)%Z -> (1 <= c)%Z /\ Formula.rho lam mu c < 1.
Proof.
  unfold c_stability. intro Hc.
  pose proof (Qle_ceiling (lam / mu)) as Hceil.
  pose proof (Qdiv_pos lam mu lam_pos mu_pos) as Hratio.
  assert (Hlt : inject_Z (Qceiling (lam / mu)) < inject_Z c)
    by (rewrite <- Zlt_Qlt; lia).
  assert (Hcpos : 0 < inject_Z c) by lra.
  split.
  - assert (H0 : (0 < c)%Z) by (rewrite Zlt_Qlt; exact Hcpos). lia.
  - unfold Formula.rho. apply Qlt_shift_div_r.
    + apply Qmult_lt_0_compat; assumption.
    + assert (Hl : lam == lam / mu * mu) by (field; lra).
      assert (Hm : lam / mu * mu < inject_Z c * mu)
        by (apply Qmult_lt_r; [exact mu_pos | lra]).
      lra.
Qed.

Lemma above_threshold_stable (c : Z) :
  (c_stability <= c)%Z -> OptimizerSpec.stable lam mu c = true.
Proof.
  intro H. apply Qltb_lt. now apply above_threshold.
Qed.

Lemma objective_function_stable (c : Z) :
  (c_stability <= c)%Z ->
  objective_function self (inject_Z c) = Ok (OptimizerSpec.Zcost lam mu cs cw c).
Proof.
  intro Hc. destruct (above_threshold c Hc) as [H1 Hrho].
  unfold objective_function, int_ceil. rewrite Qceiling_Z.
  replace (c <=? 0)%Z with false by (symmetry; apply Z.leb_gt; lia).
  simpl. rewrite MMcQueue_init_stable by assumption. simpl.
  unfold is_stable. simpl. rewrite (proj2 (Qltb_lt _ _) Hrho). simpl.
  rewrite calculate_metrics_stable by assumption. reflexivity.
Qed.

Lemma optimize_body_stable (st : OptState) (c : Z) :
  (c_stability <= c)%Z ->
  optimize_body self sla st c =
  Ok (OptimizerSpec.scan_step lam mu cs cw sla st c).
Proof.
  intro Hc. destruct (above_threshold c Hc) as [H1 Hrho].
  unfold optimize_body. simpl.
  rewrite MMcQueue_init_stable by assumption. simpl.
  unfold is_stable. simpl. rewrite (proj2 (Qltb_lt _ _) Hrho). simpl.
  rewrite calculate_metrics_stable by assumption. simpl.
  unfold OptimizerSpec.scan_step, OptimizerSpec.within_sla.
  destruct sla as [s |]; simpl.
  - unfold Qltb. destruct (Qle_bool (Formula.Wq lam mu c) s) eqn:E; simpl.
    + rewrite (objective_function_stable c Hc). simpl.
      unfold OptimizerSpec.record, OptimizerSpec.row. simpl. rewrite E.
      destruct (lt_bound _ _); reflexivity.
    + reflexivity.
  - rewrite (objective_function_stable c Hc). simpl.
    unfold OptimizerSpec.record, OptimizerSpec.row. simpl.
    destruct (lt_bound _ _); reflexivity.
Qed.
End Optimize.

Lemma first_min_take {A : Type} (cost : A -> Q) (seen : list A) (b c : A) :
  first_min cost seen b -> cost c < cost b ->
  first_min cost (seen ++ [c]) c.
Proof.
  intros (before & after & -> & Hb & Ha) Hlt.
  exists (before ++ b :: after), []. split; [reflexivity |].
  split; [| intros x []].
  intros x Hx. apply in_app_or in Hx. destruct Hx as [Hx | [<- | Hx]].
  - specialize (Hb x Hx). lra.
  - exact Hlt.
  - specialize (Ha x Hx). lra.
Qed.

Lemma first_min_keep {A : Type} (cost : A -> Q) (seen : list A) (b c : A) :
  first_min cost seen b -> cost b <= cost c ->
  first_min cost (seen ++ [c]) b.
Proof.
  intros (before & after & -> & Hb & Ha) Hle.
  exists before, (after ++ [c]). split.
  - rewrite <- app_assoc. reflexivity.
  - split; [exact Hb |].
    intros x Hx. apply in_app_or in Hx. destruct Hx as [Hx | [<- | []]].
    + now apply Ha.
    + exact Hle.
Qed.

Lemma first_min_single {A : Type} (cost : A -> Q) (c : A) :
  first_min cost [c] c.
Proof. exists [], []. repeat split; intros x []. Qed.

Lemma first_min_in {A : Type} (cost : A -> Q) (xs : list A) (b : A) :
  first_min cost xs b ->
  In b xs /\ forall x, In x xs -> cost b <= cost x.
Proof.
  intros (before & after & -> & Hb & Ha).
  split; [apply in_or_app; right; now left |].
  intros x Hx. apply in_app_or in Hx. destruct Hx as [Hx | [<- | Hx]].
  - apply Qlt_le_weak. now apply Hb.
  - lra.
  - now apply Ha.
Qed.

Section Scan.
Variables (lam mu cs cw : Q) (sla : option Q).

Let Zcost := OptimizerSpec.Zcost lam mu cs cw.
Let row := OptimizerSpec.row lam mu cs cw sla.
Let record := OptimizerSpec.record lam mu cs cw sla.
Let scan_step := OptimizerSpec.scan_step lam mu cs cw sla.
Let within_sla := OptimizerSpec.within_sla lam mu sla.
Let scan_inv := OptimizerSpec.scan_inv lam mu cs cw sla.

Lemma scan_inv_init : scan_inv [] (mkOptState None PosInf None []).
Proof. split; [reflexivity | simpl; auto]. Qed.

Lemma record_inv (seen : list Z) (st : OptState) (c : Z) :
  scan_inv seen st -> scan_inv (seen ++ [c]) (record st c).
Proof.
  subst scan_inv record. unfold OptimizerSpec.scan_inv, OptimizerSpec.record.
  fold Zcost. fold row. cbv zeta.
  intros [Hres Hbest].
  destruct (best_c st) as [b |] eqn:Eb.
  - destruct Hbest as (Hcost & Hmet & Hmin). rewrite Hcost. simpl.
    destruct (Qltb (Zcost c) (Zcost b)) eqn:E; simpl.
    + apply Qltb_lt in E. split.
      * rewrite Hres, map_app. reflexivity.
      * repeat split. now apply first_min_take with (b := b).
    + apply Qltb_ge in E. split.
      * rewrite Hres, map_app. reflexivity.
      * repeat split; try assumption. now apply first_min_keep.
  - destruct Hbest as (-> & Hcost & Hmet). rewrite Hcost. simpl.
    split.
    + rewrite Hres. reflexivity.
    + repeat split. apply first_min_single.
Qed.

Lemma scan_fold_inv (xs seen : list Z) (st : OptState) :
  scan_inv seen st ->
  scan_inv (seen ++ filter within_sla xs) (fold_left scan_step xs st).
Proof.
  revert seen st. induction xs as [| c xs IH]; intros seen st H; simpl.
  - rewrite app_nil_r. exact H.
  - unfold scan_step at 2, OptimizerSpec.scan_step. fold within_sla.
    destruct (within_sla c).
    + replace (seen ++ c :: filter within_sla xs)
        with ((seen ++ [c]) ++ filter within_sla xs)
        by (rewrite <- app_assoc; reflexivity).
      apply IH. now apply record_inv.
    + now apply IH.
Qed.
End Scan.

Lemma StronglySorted_filter (f : Z -> bool) (xs : list Z) :
  StronglySorted Z.lt xs -> StronglySorted Z.lt (filter f xs).
Proof.
  induction 1 as [| x xs Hs IH Hx]; simpl; [constructor |].
  destruct (f x); [| exact IH].
  constructor; [exact IH |].
  apply Forall_forall. intros y Hy. apply filter_In in Hy.
  rewrite Forall_forall in Hx. now apply Hx.
Qed.

Lemma StronglySorted_after (before after : list Z) (b x : Z) :
  StronglySorted Z.lt (before ++ b :: after) -> In x after -> (b < x)%Z.
Proof.
  induction before as [| y before IH]; simpl; intros Hs Hx.
  - apply StronglySorted_inv in Hs. destruct Hs as [_ Hall].
    rewrite Forall_forall in Hall. now apply Hall.
  - apply StronglySorted_inv in Hs. destruct Hs as [Hs _]. now apply IH.
Qed.

(** In an ascending list the first minimum is the smallest element that
    attains the minimal cost. *)
Lemma first_min_smallest (cost : Z -> Q) (xs : list Z) (b : Z) :
  StronglySorted Z.lt xs -> first_min cost xs b ->
  In b xs /\
  (forall x, In x xs -> cost b <= cost x) /\
  (forall x, In x xs -> (x < b)%Z -> cost b < cost x).
Proof.
  intros Hs (before & after & -> & Hb & Ha).
  split; [apply in_or_app; right; now left |].
  split.
  - intros x Hx. apply in_app_or in Hx. destruct Hx as [Hx | [<- | Hx]].
    + apply Qlt_le_weak. now apply Hb.
    + lra.
    + now apply Ha.
  - intros x Hx Hlt. apply in_app_or in Hx. destruct Hx as [Hx | [<- | Hx]].
    + now apply Hb.
    + lia.
    + pose proof (StronglySorted_after _ _ _ _ Hs Hx). lia.
Qed.

(** Membership in the feasible range. *)
Lemma in_feasible_range (lam mu : Q) (sla : option Q) (c_min c_max c : Z) :
  In c (OptimizerSpec.feasible_range lam mu sla c_min c_max) <->
  (OptimizerSpec.true_min lam mu c_min <= c <= c_max)%Z /\
  Formula.rho lam mu c < 1 /\
  (forall s, sla = Some s -> Formula.Wq lam mu c <= s).
Proof.
  unfold OptimizerSpec.feasible_range, OptimizerSpec.feasible,
    OptimizerSpec.stable, OptimizerSpec.within_sla.
  rewrite filter_In, in_range2, andb_true_iff, Qltb_lt.
  assert (Hsla : (match sla with
                  | Some s => Qle_bool (Formula.Wq lam mu c) s
                  | None => true
                  end = true) <->
                 (forall s, sla = Some s -> Formula.Wq lam mu c <= s)).
  { destruct sla as [s |].
    - rewrite Qle_bool_iff. split.
      + intros H s' [= <-]. exact H.
      + intros H. now apply H.
    - split; [intros _ s' [=] | reflexivity]. }
  rewrite Hsla. intuition lia.
Qed.

(** The run of [optimize] on valid rates: the loop never raises, it
    leaves a state that satisfies the scan invariant for the feasible
    range, and the returned dictionary is built from that state. *)
Lemma optimize_run (lam mu cs cw : Q) (c_min c_max : Z) (sla : option Q) :
  0 < lam -> 0 < mu ->
  exists st,
    OptimizerSpec.scan_inv lam mu cs cw sla
      (OptimizerSpec.feasible_range lam mu sla c_min c_max) st /\
    optimize (mkCostOptimizer lam mu cs cw) c_min c_max sla =
    match best_c st with
    | None => Ok (Infeasible "No se encontró solución factible")
    | Some bc =>
        match best_metrics st with
        | None => Raise TypeError
        | Some m =>
            lq <- metric "Lq" m_Lq m ;;
            Ok (Optimal bc (best_cost st) (inject_Z bc * cs) (lq * cw) m
                  (results st) sla)
        end
    end.
Proof.
  intros Hlam Hmu.
  unfold optimize. simpl. rewrite pydiv_ok by lra. simpl.
  unfold int_ceil.
  set (lo := Z.max c_min (Qceiling (lam / mu) + 1)).
  rewrite (for_each_pure _ (OptimizerSpec.scan_step lam mu cs cw sla)
             (fun c => (Qceiling (lam / mu) + 1 <= c)%Z)).
  2:{ intros s x Hx. now apply optimize_body_stable. }
  2:{ apply Forall_forall. intros x Hx. apply in_range2 in Hx.
      subst lo. lia. }
  simpl. eexists. split; [| reflexivity].
  pose proof (scan_fold_inv lam mu cs cw sla (range2 lo (c_max + 1)) []
                _ (scan_inv_init lam mu cs cw sla)) as Hinv.
  simpl in Hinv.
  replace (OptimizerSpec.feasible_range lam mu sla c_min c_max)
    with (filter (OptimizerSpec.within_sla lam mu sla)
            (range2 lo (c_max + 1))); [exact Hinv |].
  unfold OptimizerSpec.feasible_range.
  apply filter_ext_in. intros x Hx. apply in_range2 in Hx.
  unfold OptimizerSpec.feasible.
  rewrite (above_threshold_stable lam mu Hlam Hmu x)
    by (unfold OptimizerSpec.true_min in Hx; subst lo; lia).
  reflexivity.
Qed.

(* ================================================================== *)
(** * Within the binary64 range the range-checked program is the exact one *)

Lemma in_binary64_range_spec (lam mu : Q) (c n : Z) :
  Binary64Range.in_binary64_range lam mu c = true ->
  (0 <= n <= c)%Z ->
  Binary64Range.representable ((lam / mu) ^ n) = true /\
  Binary64Range.representable (factorial n) = true.
Proof.
  unfold Binary64Range.in_binary64_range. rewrite forallb_forall.
  intros H Hn. apply andb_true_iff, H, in_range. lia.
Qed.

Lemma in_binary64_range_le (lam mu : Q) (c c' : Z) :
  (c' <= c)%Z ->
  Binary64Range.in_binary64_range lam mu c = true ->
  Binary64Range.in_binary64_range lam mu c' = true.
Proof.
  unfold Binary64Range.in_binary64_range. rewrite !forallb_forall.
  intros Hle H n Hn. apply H. apply in_range. apply in_range in Hn. lia.
Qed.

Lemma comprehension_ext {A B : Type} (f g : A -> res B) (xs : list A) :
  (forall x, In x xs -> f x = g x) ->
  comprehension f xs = comprehension g xs.
Proof.
  induction xs as [| x xs IH]; intro H; simpl; [reflexivity |].
  rewrite (H x) by now left.
  rewrite IH by (intros y Hy; apply H; now right). reflexivity.
Qed.

Lemma for_each_ext {S A : Type} (f g : S -> A -> res S) (xs : list A) :
  (forall s x, In x xs -> f s x = g s x) ->
  forall s, for_each xs f s = for_each xs g s.
Proof.
  induction xs as [| x xs IH]; intros H s; simpl; [reflexivity |].
  rewrite (H s x) by now left.
  destruct (g s x) as [s' | e |]; simpl; try reflexivity.
  apply IH. intros s'' y Hy. apply H. now right.
Qed.

Section InRange.
Variables (lam mu : Q) (servers : Z).
Hypothesis c_nonneg : (0 <= servers)%Z.
Hypothesis fits : Binary64Range.in_binary64_range lam mu servers = true.

Lemma p0_term64_in_range (n : Z) :
  (0 <= n <= servers)%Z ->
  Binary64Range.p0_term64 lam mu n = p0_term lam mu n.
Proof.
  intro Hn.
  destruct (in_binary64_range_spec lam mu servers n fits Hn) as [Hp Hf].
  unfold Binary64Range.p0_term64, p0_term, pydiv.
  destruct (Qeq_bool mu 0); [reflexivity |]. cbn [bind].
  unfold Binary64Range.pypow64. rewrite pypow_nonneg by lia. cbn [bind].
  rewrite Hp. cbn [bind]. unfold Binary64Range.factorial64. rewrite Hf.
  reflexivity.
Qed.

Lemma _calculate_p0_64_in_range (r : Q) :
  Binary64Range._calculate_p0_64 (mkMMcQueue lam mu servers r) =
  _calculate_p0 (mkMMcQueue lam mu servers r).
Proof.
  unfold Binary64Range._calculate_p0_64, _calculate_p0.
  cbn [lambda_rate mu_rate c rho].
  rewrite (comprehension_ext (Binary64Range.p0_term64 lam mu)
             (p0_term lam mu)).
  2:{ intros n Hn. apply in_range in Hn. apply p0_term64_in_range. lia. }
  rewrite p0_term64_in_range by lia. reflexivity.
Qed.

Lemma calculate_metrics64_in_range (r : Q) :
  Binary64Range.calculate_metrics64 (mkMMcQueue lam mu servers r) =
  calculate_metrics (mkMMcQueue lam mu servers r).
Proof.
  unfold Binary64Range.calculate_metrics64, calculate_metrics.
  rewrite _calculate_p0_64_in_range.
  cbn [lambda_rate mu_rate c rho].
  rewrite p0_term64_in_range by lia. reflexivity.
Qed.

Lemma sensitivity_body64_in_range (cs cw : Q) (results : Sensitivity) :
  Binary64Range.sensitivity_body64 (mkCostOptimizer lam mu cs cw) results
    servers =
  sensitivity_body (mkCostOptimizer lam mu cs cw) results servers.
Proof.
  unfold Binary64Range.sensitivity_body64, sensitivity_body.
  cbn [o_lambda_rate o_mu_rate]. unfold MMcQueue_init.
  destruct (pydiv lam (inject_Z servers * mu)) as [r | e |];
    try reflexivity.
  cbn [bind]. rewrite calculate_metrics64_in_range. reflexivity.
Qed.
End InRange.

Lemma objective_function64_in_range (lam mu cs cw x : Q) :
  Binary64Range.in_binary64_range lam mu (Qceiling x) = true ->
  Binary64Range.objective_function64 (mkCostOptimizer lam mu cs cw) x =
  objective_function (mkCostOptimizer lam mu cs cw) x.
Proof.
  intro Hfits.
  unfold Binary64Range.objective_function64, objective_function, int_ceil.
  cbn [o_lambda_rate o_mu_rate].
  destruct (Qceiling x <=? 0)%Z eqn:E; [reflexivity |].
  apply Z.leb_gt in E. unfold MMcQueue_init.
  destruct (pydiv lam (inject_Z (Qceiling x) * mu)) as [r | e |];
    try reflexivity.
  cbn [bind]. rewrite calculate_metrics64_in_range by (lia || assumption).
  reflexivity.
Qed.

Lemma optimize_body64_in_range (lam mu cs cw : Q) (sla : option Q)
  (st : OptState) (servers : Z) :
  (0 <= servers)%Z ->
  Binary64Range.in_binary64_range lam mu servers = true ->
  Binary64Range.optimize_body64 (mkCostOptimizer lam mu cs cw) sla st servers
  = optimize_body (mkCostOptimizer lam mu cs cw) sla st servers.
Proof.
  intros Hc Hfits.
  unfold Binary64Range.optimize_body64, optimize_body.
  rewrite objective_function64_in_range by (now rewrite Qceiling_Z).
  cbn [o_lambda_rate o_mu_rate]. unfold MMcQueue_init.
  destruct (pydiv lam (inject_Z servers * mu)) as [r | e |];
    try reflexivity.
  cbn [bind]. rewrite calculate_metrics64_in_range by assumption.
  reflexivity.
Qed.

(** [optimize] with the range checks is [optimize] in exact arithmetic
    when the counts that it scans keep the powers and factorials within
    the binary64 range. *)
Lemma optimize64_in_range (lam mu cs cw : Q) (c_min c_max : Z)
  (sla : option Q) :
  0 < lam -> 0 < mu ->
  (forall c, (Z.max c_min (Qceiling (lam / mu) + 1) <= c <= c_max)%Z ->
     Binary64Range.in_binary64_range lam mu c = true) ->
  Binary64Range.optimize64 (mkCostOptimizer lam mu cs cw) c_min c_max sla =
  optimize (mkCostOptimizer lam mu cs cw) c_min c_max sla.
Proof.
  intros Hlam Hmu Hfits.
  unfold Binary64Range.optimize64, optimize.
  cbn [o_lambda_rate o_mu_rate]. rewrite pydiv_ok by lra. cbn [bind].
  unfold int_ceil.
  rewrite (for_each_ext
             (Binary64Range.optimize_body64 (mkCostOptimizer lam mu cs cw) sla)
             (optimize_body (mkCostOptimizer lam mu cs cw) sla)).
  - reflexivity.
  - intros st c Hc. apply in_range2 in Hc.
    apply optimize_body64_in_range.
    + assert (H : (1 <= c)%Z)
        by (apply (above_threshold lam mu Hlam Hmu c); lia).
      lia.
    + apply Hfits. lia.
Qed.

(** The same for [sensitivity_analysis], on a range of counts that are
    not negative. *)
Lemma sensitivity_analysis64_in_range (lam mu cs cw : Q)
  (c_range : option (Z * Z)) :
  0 < mu ->
  (forall c,
     (fst (OptimizerSpec.sensitivity_range lam mu c_range) <= c <=
      snd (OptimizerSpec.sensitivity_range lam mu c_range))%Z ->
     (0 <= c)%Z /\ Binary64Range.in_binary64_range lam mu c = true) ->
  Binary64Range.sensitivity_analysis64 (mkCostOptimizer lam mu cs cw) c_range
  = sensitivity_analysis (mkCostOptimizer lam mu cs cw) c_range.
Proof.
  intros Hmu Hfits.
  unfold Binary64Range.sensitivity_analysis64, sensitivity_analysis.
  cbn [o_lambda_rate o_mu_rate].
  assert (Hrange :
    match c_range with
    | Some r => Ok r
    | None =>
        r <- pydiv lam mu ;;
        Ok ((int_ceil r + 1)%Z, (int_ceil r + 1 + 20)%Z)
    end = Ok (OptimizerSpec.sensitivity_range lam mu c_range)).
  { destruct c_range as [r |]; [reflexivity |].
    rewrite pydiv_ok by lra. reflexivity. }
  rewrite Hrange. cbn [bind].
  destruct (OptimizerSpec.sensitivity_range lam mu c_range) as [lo hi].
  cbn [fst snd] in Hfits.
  rewrite (for_each_ext
             (Binary64Range.sensitivity_body64 (mkCostOptimizer lam mu cs cw))
             (sensitivity_body (mkCostOptimizer lam mu cs cw))).
  - reflexivity.
  - intros st c Hc. apply in_range2 in Hc.
    destruct (Hfits c ltac:(lia)) as [H0 Hin].
    now apply sensitivity_body64_in_range.
Qed.

(** C1 (counterexample).  With λ = 200, μ = 1 and the search range
    [[1, 201]] the scan starts at [⌈λ/μ⌉+1 = 201], the count 201 is
    stable, and the evaluation of its metrics raises [OverflowError] at
    the power [(λ/μ)**134]: [optimize] does not return. *)
Lemma optimize_overflows_at_201_servers :
  0 < 200 /\ 0 < 1 /\
  range2 (OptimizerSpec.true_min 200 1 1) (201 + 1) = [201%Z] /\
  OptimizerSpec.stable 200 1 201 = true /\
  Binary64Range.optimize64 (mkCostOptimizer 200 1 50 20) 1 201 None =
  Raise OverflowError.
Proof.
  split; [reflexivity |]. split; [reflexivity |].
  split; [vm_compute; reflexivity |]. split; vm_compute; reflexivity.
Qed.

(** C1 (amended).  For every λ,μ>0, cost coefficients, bounds and
    optional SLA threshold such that, for every count c of
    [[max(cMin, ⌈λ/μ⌉+1), cMax]], the powers [(λ/μ)^n] and the factorials
    [n!] with [n <= c] are within the binary64 range, [optimize] returns
    normally; it scans the integers of [[max(cMin, ⌈λ/μ⌉+1), cMax]] and
    records exactly those that are stable and whose Wq does not exceed
    the SLA threshold, so that the evaluation table lists them in
    ascending order of c, each with its cost
    [Z(c) = c·serverCost + Lq(c)·waitingCost]; it fails only when no such
    c exists, and on success [optimal_c] is the smallest feasible c that
    attains the minimal cost over the feasible c (first minimum wins). *)
Theorem optimize_correct (lam mu cs cw : Q) (c_min c_max : Z)
  (sla : option Q) :
  0 < lam -> 0 < mu ->
  (forall c, (Z.max c_min (Qceiling (lam / mu) + 1) <= c <= c_max)%Z ->
     Binary64Range.in_binary64_range lam mu c = true) ->
  let feasible := OptimizerSpec.feasible_range lam mu sla c_min c_max in
  let Zc := OptimizerSpec.Zcost lam mu cs cw in
  (forall c, In c feasible <->
     (Z.max c_min (Qceiling (lam / mu) + 1) <= c <= c_max)%Z /\
     Formula.rho lam mu c < 1 /\
     (forall s, sla = Some s -> Formula.Wq lam mu c <= s)) /\
  StronglySorted Z.lt feasible /\
  exists r,
    Binary64Range.optimize64 (mkCostOptimizer lam mu cs cw) c_min c_max sla
    = Ok r /\
    match r with
    | Infeasible _ => feasible = []
    | Optimal oc total server waiting m rows sla' =>
        rows = map (OptimizerSpec.row lam mu cs cw sla) feasible /\
        map r_c rows = feasible /\
        (forall row, In row rows -> r_cost row = Zc (r_c row)) /\
        In oc feasible /\
        (forall c, In c feasible -> Zc oc <= Zc c) /\
        (forall c, In c feasible -> (c < oc)%Z -> Zc oc < Zc c) /\
        total = Finite (Zc oc) /\
        server = inject_Z oc * cs /\
        waiting = Formula.Lq lam mu oc * cw /\
        m = Stable (Formula.metrics lam mu oc) /\
        sla' = sla
    end.
Proof.
  intros Hlam Hmu Hfits feasible Zc.
  rewrite (optimize64_in_range lam mu cs cw c_min c_max sla Hlam Hmu Hfits).
  assert (Hsorted : StronglySorted Z.lt feasible)
    by (apply StronglySorted_filter, range2_sorted).
  split; [intro c; apply in_feasible_range |].
  split; [exact Hsorted |].
  destruct (optimize_run lam mu cs cw c_min c_max sla Hlam Hmu)
    as (st & [Hres Hbest] & ->).
  fold feasible in Hres, Hbest.
  destruct (best_c st) as [b |].
  - destruct Hbest as (Hcost & Hmet & Hmin). rewrite Hmet. simpl.
    eexists. split; [reflexivity |]. cbv beta iota.
    destruct (first_min_smallest _ _ _ Hsorted Hmin) as (Hin & Hle & Hlt).
    split; [exact Hres |].
    split.
    { rewrite Hres, map_map. simpl. apply map_id. }
    split.
    { intros row Hrow. rewrite Hres in Hrow. apply in_map_iff in Hrow.
      destruct Hrow as [x [<- _]]. reflexivity. }
    repeat split; assumption.
  - destruct Hbest as (Hnil & _ & _).
    eexists. split; [reflexivity |]. exact Hnil.
Qed.

(** The optimiser at λ = 120, μ = 30, costs 50 and 20, range [5, 15],
    no SLA: the powers of 4 and the factorials up to 15 are in range. *)
Lemma optimize_correct_witness :
  let feasible := OptimizerSpec.feasible_range 120 30 None 5 15 in
  let Zc := OptimizerSpec.Zcost 120 30 50 20 in
  (forall c, In c feasible <->
     (Z.max 5 (Qceiling (120 / 30) + 1) <= c <= 15)%Z /\
     Formula.rho 120 30 c < 1 /\
     (forall s, @None Q = Some s -> Formula.Wq 120 30 c <= s)) /\
  StronglySorted Z.lt feasible /\
  exists r,
    Binary64Range.optimize64 (mkCostOptimizer 120 30 50 20) 5 15 None
    = Ok r /\
    match r with
    | Infeasible _ => feasible = []
    | Optimal oc total server waiting m rows sla' =>
        rows = map (OptimizerSpec.row 120 30 50 20 None) feasible /\
        map r_c rows = feasible /\
        (forall row, In row rows -> r_cost row = Zc (r_c row)) /\
        In oc feasible /\
        (forall c, In c feasible -> Zc oc <= Zc c) /\
        (forall c, In c feasible -> (c < oc)%Z -> Zc oc < Zc c) /\
        total = Finite (Zc oc) /\
        server = inject_Z oc * 50 /\
        waiting = Formula.Lq 120 30 oc * 20 /\
        m = Stable (Formula.metrics 120 30 oc) /\
        sla' = None
    end.
Proof.
  apply (optimize_correct 120 30 50 20 5 15 None);
    [reflexivity | reflexivity |].
  intros c Hc. apply (in_binary64_range_le 120 30 15); [lia |].
  vm_compute. reflexivity.
Defined.

(** The specification's test: λ=120, μ=30, serverCost=50, waitingCost=20,
    scanning c in [5,15], the optimum is c = 5 and the table has the
    eleven counts 5..15 in ascending order. *)
Example optimize_120_30 :
  match Binary64Range.optimize64 (mkCostOptimizer 120 30 50 20) 5 15 None
  with
  | Ok (Optimal oc _ _ _ _ rows _) =>
      oc = 5%Z /\
      map r_c rows = [5; 6; 7; 8; 9; 10; 11; 12; 13; 14; 15]%Z
  | _ => False
  end.
Proof. vm_compute. split; reflexivity. Qed.

(** With an SLA of 0.005 hours on Wq the count 5 is skipped and the
    optimum moves to c = 6. *)
Example optimize_120_30_sla :
  match Binary64Range.optimize64 (mkCostOptimizer 120 30 50 20) 5 15
          (Some (5 # 1000))
  with
  | Ok (Optimal oc _ _ _ _ rows _) =>
      oc = 6%Z /\ map r_c rows = [6; 7; 8; 9; 10; 11; 12; 13; 14; 15]%Z
  | _ => False
  end.
Proof. vm_compute. split; reflexivity. Qed.

Lemma scan_inv_nil (lam mu cs cw : Q) (sla : option Q) (st : OptState) :
  OptimizerSpec.scan_inv lam mu cs cw sla [] st -> best_c st = None.
Proof.
  intros [_ H]. destruct (best_c st) as [b |]; [| reflexivity].
  destruct H as (_ & _ & before & after & Heq & _).
  destruct before; discriminate.
Qed.

(** ** A stable queue just above [λ/μ] waits long *)

Lemma iterative_term_pos (a : Q) (n : nat) : 0 < a -> 0 < Iterative.term a n.
Proof.
  intro Ha. induction n as [| n IH]; [reflexivity |].
  cbn [Iterative.term]. apply Qdiv_pos.
  - apply Qmult_lt_0_compat; assumption.
  - change 0 with (inject_Z 0). rewrite <- Zlt_Qlt. lia.
Qed.

(** Up to [n + 1 <= λ/μ] the terms of the Erlang sum do not decrease. *)
Lemma iterative_term_le (a : Q) (n : nat) :
  0 < a -> inject_Z (Z.of_nat (S n)) <= a ->
  Iterative.term a n <= Iterative.term a (S n).
Proof.
  intros Ha Hn. cbn [Iterative.term].
  pose proof (iterative_term_pos a n Ha) as Ht.
  assert (Hk : 0 < inject_Z (Z.of_nat (S n))).
  { change 0 with (inject_Z 0). rewrite <- Zlt_Qlt. lia. }
  apply Qle_shift_div_l; [exact Hk |].
  apply Qmult_le_l; assumption.
Qed.

(** So the first [n + 1] of them sum to at most [n + 1] times the last. *)
Lemma partial_sum_le (a : Q) (n : nat) :
  0 < a -> inject_Z (Z.of_nat n) <= a ->
  Iterative.partial_sum a (S n) <=
  inject_Z (Z.of_nat (S n)) * Iterative.term a n.
Proof.
  intro Ha. induction n as [| n IH]; intro Hn.
  - cbn. discriminate.
  - assert (Hle : inject_Z (Z.of_nat n) <= inject_Z (Z.of_nat (S n)))
      by (rewrite <- Zle_Qle; lia).
    specialize (IH ltac:(lra)).
    pose proof (iterative_term_le a n Ha Hn) as Hstep.
    change (Iterative.partial_sum a (S (S n)))
      with (Iterative.partial_sum a (S n) + Iterative.term a (S n)).
    assert (Hk : inject_Z (Z.of_nat (S (S n))) ==
                 inject_Z (Z.of_nat (S n)) + 1).
    { rewrite (Nat2Z.inj_succ (S n)). unfold Z.succ.
      rewrite inject_Z_plus. reflexivity. }
    rewrite Hk.
    assert (Hpos : 0 <= inject_Z (Z.of_nat (S n)))
      by (change 0 with (inject_Z 0); rewrite <- Zle_Qle; lia).
    assert (Hmul : inject_Z (Z.of_nat (S n)) * Iterative.term a n <=
                   inject_Z (Z.of_nat (S n)) * Iterative.term a (S n)).
    { rewrite !(Qmult_comm (inject_Z (Z.of_nat (S n)))).
      apply Qmult_le_compat_r; assumption. }
    lra.
Qed.

Lemma partial_sum_nonneg (a : Q) (n : nat) :
  0 < a -> 0 <= Iterative.partial_sum a n.
Proof.
  intro Ha. induction n as [| n IH]; [discriminate |].
  cbn [Iterative.partial_sum].
  pose proof (iterative_term_pos a n Ha). lra.
Qed.

(** With λ = 200, μ = 1 and 201 servers the mean wait in queue is more
    than a tenth of an hour. *)
Lemma Wq_at_201_servers : 1 # 10 < Formula.Wq 200 1 201.
Proof.
  unfold Formula.Wq, Formula.Lq, Formula.Pwait.
  change 201%Z with (Z.of_nat (S 200)).
  rewrite P0_iterative, term_iterative.
  unfold Iterative.P0, Formula.rho. cbv zeta.
  change (Iterative.term (200 / 1) (S 200))
    with (Iterative.term (200 / 1) 200 * (200 / 1) /
          inject_Z (Z.of_nat (S 200))).
  change (inject_Z (Z.of_nat (S 200))) with 201.
  pose proof (iterative_term_pos (200 / 1) 200 eq_refl) as Ht.
  pose proof (partial_sum_nonneg (200 / 1) (S 200) eq_refl) as Hs0.
  assert (Hs : Iterative.partial_sum (200 / 1) (S 200) <=
               201 * Iterative.term (200 / 1) 200).
  { apply (partial_sum_le (200 / 1) 200 eq_refl). discriminate. }
  set (s := Iterative.partial_sum (200 / 1) (S 200)) in *.
  set (t := Iterative.term (200 / 1) 200) in *.
  clearbody s t.
  assert (E : t * (200 / 1) / 201 * (1 / (1 - 200 / (201 * 1))) *
              (1 / (s + t * (200 / 1) / 201 * (1 / (1 - 200 / (201 * 1))))) *
              (200 / (201 * 1)) / (1 - 200 / (201 * 1)) / 200 ==
              200 * t / (s + 200 * t)).
  { field. lra. }
  rewrite E. apply Qlt_shift_div_l; lra.
Qed.

(** C6 (counterexample).  With λ = 200, μ = 1, the search range
    [[1, 201]] and an SLA of a tenth of an hour on Wq, the only count
    scanned is 201 and its Wq exceeds the threshold, so no count of the
    range is both stable and SLA-feasible; yet [optimize] raises
    [OverflowError] (at the power [(λ/μ)**134], before the SLA test)
    instead of returning the failure dictionary. *)
Lemma optimize_infeasible_overflows_at_201_servers :
  0 < 200 /\ 0 < 1 /\
  (forall c, (Z.max 1 (Qceiling (200 / 1) + 1) <= c <= 201)%Z ->
     OptimizerSpec.feasible 200 1 (Some (1 # 10)) c = false) /\
  Binary64Range.optimize64 (mkCostOptimizer 200 1 50 20) 1 201
    (Some (1 # 10)) = Raise OverflowError.
Proof.
  split; [reflexivity |]. split; [reflexivity |]. split.
  - intros c Hc. change (Qceiling (200 / 1)) with 200%Z in Hc.
    assert (c = 201%Z) as -> by lia.
    unfold OptimizerSpec.feasible, OptimizerSpec.within_sla.
    pose proof Wq_at_201_servers as Hwq.
    set (w := Formula.Wq 200 1 201) in *. clearbody w.
    apply andb_false_intro2.
    destruct (Qle_bool w (1 # 10)) eqn:E; [| reflexivity].
    apply Qle_bool_iff in E. lra.
  - vm_compute. reflexivity.
Qed.

(** C6 (amended).  For valid rates λ,μ>0 and every search range such
    that, for every count c of [[max(cMin, ⌈λ/μ⌉+1), cMax]], the powers
    [(λ/μ)^n] and the factorials [n!] with [n <= c] are within the
    binary64 range: if no integer c in [[max(cMin, ⌈λ/μ⌉+1), cMax]] is
    both stable and SLA-feasible, then [optimize] returns normally (it
    raises nothing) the failure dictionary: [success] is false, there is
    a diagnostic message, and there is no [optimal_c]. *)
Theorem optimize_infeasible (lam mu cs cw : Q) (c_min c_max : Z)
  (sla : option Q) :
  0 < lam -> 0 < mu ->
  (forall c, (Z.max c_min (Qceiling (lam / mu) + 1) <= c <= c_max)%Z ->
     Binary64Range.in_binary64_range lam mu c = true) ->
  (forall c, (Z.max c_min (Qceiling (lam / mu) + 1) <= c <= c_max)%Z ->
     OptimizerSpec.feasible lam mu sla c = false) ->
  exists r,
    Binary64Range.optimize64 (mkCostOptimizer lam mu cs cw) c_min c_max sla
    = Ok r /\
    success r = false /\
    r = Infeasible "No se encontró solución factible".
Proof.
  intros Hlam Hmu Hfits Hnone.
  rewrite (optimize64_in_range lam mu cs cw c_min c_max sla Hlam Hmu Hfits).
  destruct (optimize_run lam mu cs cw c_min c_max sla Hlam Hmu)
    as (st & Hinv & ->).
  assert (Hnil : OptimizerSpec.feasible_range lam mu sla c_min c_max = []).
  { unfold OptimizerSpec.feasible_range.
    destruct (filter _ _) as [| x xs] eqn:E; [reflexivity | exfalso].
    assert (Hx : In x (filter (OptimizerSpec.feasible lam mu sla)
                         (range2 (OptimizerSpec.true_min lam mu c_min)
                            (c_max + 1))))
      by (rewrite E; now left).
    apply filter_In in Hx. destruct Hx as [Hx Hf].
    apply in_range2 in Hx. unfold OptimizerSpec.true_min in Hx.
    rewrite Hnone in Hf by lia. discriminate. }
  rewrite Hnil in Hinv. rewrite (scan_inv_nil _ _ _ _ _ _ Hinv).
  eexists. repeat split.
Qed.

(** The specification's infeasibility test: cMax = 4 when λ/μ = 5 > 4.
    The range of counts is empty, so nothing is evaluated. *)
Lemma optimize_infeasible_witness :
  exists r,
    Binary64Range.optimize64 (mkCostOptimizer 150 30 50 20) 1 4 None
    = Ok r /\
    success r = false /\
    r = Infeasible "No se encontró solución factible".
Proof.
  apply (optimize_infeasible 150 30 50 20 1 4 None);
    [reflexivity | reflexivity | |];
    intros c Hc; change (Qceiling (150 / 30)) with 5%Z in Hc; lia.
Defined.

(** Infeasibility through the SLA alone: every stable count in the range
    waits longer than the threshold. *)
Example optimize_infeasible_sla :
  Binary64Range.optimize64 (mkCostOptimizer 120 30 50 20) 5 8 (Some 0) =
  Ok (Infeasible "No se encontró solución factible").
Proof. vm_compute. reflexivity. Qed.

(* ================================================================== *)
(** * Sensitivity analysis *)

(** C10.  If every integer c of the sensitivity range (the caller's, or
    the automatic one) yields a queue that is not stable,
    [sensitivity_analysis] returns a dictionary whose seven sequences are
    all empty and which has neither an [optimal_c] nor an [optimal_cost]
    key (and no success flag or message: the record has no such field),
    so that reading [optimal_c] or [optimal_cost] from it raises
    [KeyError]. *)
Theorem sensitivity_without_stable_queue (lam mu cs cw : Q)
  (c_range : option (Z * Z)) :
  (forall c,
     (fst (OptimizerSpec.sensitivity_range lam mu c_range) <= c <=
      snd (OptimizerSpec.sensitivity_range lam mu c_range))%Z ->
     exists q, MMcQueue_init lam mu c = Ok q /\ is_stable q = false) ->
  exists r,
    sensitivity_analysis (mkCostOptimizer lam mu cs cw) c_range = Ok r /\
    r = mkSensitivity [] [] [] [] [] [] [] None None /\
    subscript "optimal_c" (optimal_c r) = Raise (KeyError "optimal_c") /\
    subscript "optimal_cost" (optimal_cost r) =
      Raise (KeyError "optimal_cost").
Proof.
  intro Hunstable.
  assert (Hloop : forall lo hi,
            (forall c, (lo <= c <= hi)%Z ->
               exists q, MMcQueue_init lam mu c = Ok q /\
                         is_stable q = false) ->
            forall s,
              for_each (range2 lo (hi + 1))
                (sensitivity_body (mkCostOptimizer lam mu cs cw)) s = Ok s).
  { intros lo hi H s.
    rewrite (for_each_pure _ (fun s _ => s) (fun c => (lo <= c <= hi)%Z)).
    - f_equal. generalize (range2 lo (hi + 1)) as xs.
      induction xs; simpl; auto.
    - intros s' c Hc. destruct (H c Hc) as (q & Hq & Hs).
      unfold sensitivity_body. simpl. rewrite Hq. simpl. rewrite Hs.
      reflexivity.
    - apply Forall_forall. intros c Hc. apply in_range2 in Hc. lia. }
  unfold sensitivity_analysis.
  destruct c_range as [[lo hi] |]; simpl in *.
  - rewrite (Hloop lo hi Hunstable). simpl. eexists. repeat split.
  - assert (Hmu : ~ mu == 0).
    { destruct (Hunstable (Qceiling (lam / mu) + 1)%Z ltac:(lia))
        as (q & Hq & _).
      unfold MMcQueue_init, pydiv in Hq.
      destruct (Qeq_bool _ 0) eqn:E; [discriminate |].
      apply Qeq_bool_neq in E. rewrite capacity_zero in E. tauto. }
    rewrite pydiv_ok by exact Hmu. simpl. unfold int_ceil.
    rewrite (Hloop _ _ Hunstable). simpl. eexists. repeat split.
Qed.

(** λ = 120, μ = 30 and the range [1, 4]: four servers are not enough,
    so no count of the range is stable. *)
Lemma sensitivity_without_stable_queue_witness :
  exists r,
    sensitivity_analysis (mkCostOptimizer 120 30 50 20)
      (Some (1, 4)%Z) = Ok r /\
    r = mkSensitivity [] [] [] [] [] [] [] None None /\
    subscript "optimal_c" (optimal_c r) = Raise (KeyError "optimal_c") /\
    subscript "optimal_cost" (optimal_cost r) =
      Raise (KeyError "optimal_cost").
Proof.
  apply (sensitivity_without_stable_queue 120 30 50 20 (Some (1, 4)%Z)).
  simpl. intros c Hc.
  assert (Hcases : c = 1%Z \/ c = 2%Z \/ c = 3%Z \/ c = 4%Z) by lia.
  destruct Hcases as [-> | [-> | [-> | ->]]];
    eexists; split; reflexivity.
Defined.

(** When some count is stable the two keys are present. *)
Example sensitivity_with_stable_queue :
  (r <- sensitivity_analysis (mkCostOptimizer 120 30 50 20)
          (Some (3, 7)%Z) ;;
   subscript "optimal_c" (optimal_c r)) = Ok 5%Z.
Proof. vm_compute. reflexivity. Qed.

(* ================================================================== *)
(** * The distribution fitter *)

Lemma dict_get_set_same {V : Type} (d : list (string * V)) (k : string)
  (v : V) : dict_get (dict_set d k v) k = Some v.
Proof.
  induction d as [| [k' v'] d IH]; simpl.
  - now rewrite String.eqb_refl.
  - destruct (String.eqb k' k) eqn:E; simpl.
    + now rewrite String.eqb_refl.
    + now rewrite E.
Qed.

Lemma dict_get_set_other {V : Type} (d : list (string * V)) (k k' : string)
  (v : V) : k' <> k -> dict_get (dict_set d k v) k' = dict_get d k'.
Proof.
  intro Hne. induction d as [| [k0 v0] d IH]; simpl.
  - destruct (String.eqb k k') eqn:E; [| reflexivity].
    apply String.eqb_eq in E. congruence.
  - destruct (String.eqb k0 k) eqn:E; simpl.
    + apply String.eqb_eq in E. subst k0.
      destruct (String.eqb k k') eqn:E'; [| reflexivity].
      apply String.eqb_eq in E'. congruence.
    + destruct (String.eqb k0 k'); [reflexivity | exact IH].
Qed.

Section FitterFacts.
Variable lib : Library.
Variable data : list Q.

(** What a successful [try] block has computed. *)
Lemma fit_one_ok (name : string) (info : FitInfo) :
  fit_one lib data name = Ok info ->
  let k := inject_Z (Z.of_nat (List.length (params info))) in
  let n := Z.of_nat (List.length data) in
  aic info = 2 * k - 2 * log_likelihood info /\
  exists ln_n,
    np_log lib n = Ok ln_n /\
    bic info = k * ln_n - 2 * log_likelihood info.
Proof.
  unfold fit_one. intro H.
  destruct (stats_getattr lib name) as [dist | |]; try discriminate.
  simpl in H.
  destruct (d_fit dist data) as [ps | |]; try discriminate. simpl in H.
  destruct (d_logpdf dist data ps) as [lps | |]; try discriminate.
  simpl in H.
  destruct (np_log lib (Z.of_nat (List.length data))) as [ln_n | |] eqn:El;
    try discriminate.
  simpl in H. injection H as <-. simpl.
  split; [reflexivity |]. exists ln_n. split; reflexivity.
Qed.

(** The loop of [fit_distributions] from any intermediate state: a family
    whose fit succeeds ends up in the results with that fit, a family
    whose fit raises is printed and leaves the results as they were, and
    families that are not in the list are not touched. *)
Lemma fit_loop_spec (distributions : list string) :
  (forall name, In name distributions ->
     fit_one lib data name <> NonFinite) ->
  forall results out,
  exists results' out',
    fit_loop lib data distributions results out = Ok (results', out') /\
    incl out out' /\
    (forall name, ~ In name distributions ->
       dict_get results' name = dict_get results name) /\
    (forall name, In name distributions ->
       match fit_one lib data name with
       | Ok info => dict_get results' name = Some info
       | Raise e =>
           In (name, e) out' /\
           dict_get results' name = dict_get results name
       | NonFinite => False
       end).
Proof.
  induction distributions as [| d ds IH]; intros Hfin results out.
  - exists results, out. simpl. repeat split; auto using incl_refl.
    intros name [].
  - assert (Hfin' : forall name, In name ds ->
                      fit_one lib data name <> NonFinite)
      by (intros name Hn; apply Hfin; now right).
    specialize (IH Hfin'). simpl.
    pose proof (Hfin d (or_introl eq_refl)) as Hd.
    destruct (fit_one lib data d) as [info | e |] eqn:Ed; [| | congruence].
    + destruct (IH (dict_set results d info) out)
        as (results' & out' & Hrun & Hincl & Hout & Hin).
      exists results', out'. split; [exact Hrun |].
      split; [exact Hincl |]. split.
      * intros name Hname. rewrite Hout by (intro; apply Hname; now right).
        apply dict_get_set_other. intros ->. apply Hname. now left.
      * intros name Hname.
        destruct (in_dec string_dec name ds) as [Hds | Hds].
        -- specialize (Hin name Hds).
           destruct (fit_one lib data name) as [info' | e' |] eqn:En;
             [exact Hin | | exact Hin].
           destruct Hin as [Hp Hg]. split; [exact Hp |].
           rewrite Hg. apply dict_get_set_other. congruence.
        -- destruct Hname as [<- | Hname]; [| contradiction].
           rewrite Ed, (Hout d Hds). apply dict_get_set_same.
    + destruct (IH results (out ++ [(d, e)]))
        as (results' & out' & Hrun & Hincl & Hout & Hin).
      exists results', out'. split; [exact Hrun |].
      split; [intros x Hx; apply Hincl, in_or_app; now left |]. split.
      * intros name Hname. apply Hout. intro. apply Hname. now right.
      * intros name Hname.
        destruct (in_dec string_dec name ds) as [Hds | Hds].
        -- exact (Hin name Hds).
        -- destruct Hname as [<- | Hname]; [| contradiction].
           rewrite Ed. split; [| now apply Hout].
           apply Hincl, in_or_app. right. now left.
Qed.
End FitterFacts.

(** C7.  For every data sample and list of candidate families (no fit
    leaving the finite numbers), the batch fit returns normally whatever
    families fail: every family of the list is attempted, one whose fit
    raises is printed and skipped, and one whose fit succeeds is in the
    results with [AIC = 2k − 2·logLikelihood] and
    [BIC = k·ln(n) − 2·logLikelihood], k the number of fitted parameters
    and n the sample size. *)
Theorem fit_distributions_batch (lib : Library) (self : DistributionFitter)
  (data : list Q) (distributions : list string) :
  (forall name, In name distributions ->
     fit_one lib data name <> NonFinite) ->
  exists results self',
    fit_distributions lib self data distributions = Ok (results, self') /\
    fitted_distributions self' = results /\
    forall name, In name distributions ->
      match fit_one lib data name with
      | Ok info =>
          dict_get results name = Some info /\
          let k := inject_Z (Z.of_nat (List.length (params info))) in
          let n := Z.of_nat (List.length data) in
          aic info = 2 * k - 2 * log_likelihood info /\
          exists ln_n,
            np_log lib n = Ok ln_n /\
            bic info = k * ln_n - 2 * log_likelihood info
      | Raise e =>
          dict_get results name = None /\ In (name, e) (printed self')
      | NonFinite => False
      end.
Proof.
  intro Hfin.
  destruct (fit_loop_spec lib data distributions Hfin [] (printed self))
    as (results & out & Hrun & _ & _ & Hin).
  exists results, (mkDistributionFitter results out).
  unfold fit_distributions. rewrite Hrun. simpl.
  split; [reflexivity |]. split; [reflexivity |].
  intros name Hname. specialize (Hin name Hname).
  destruct (fit_one lib data name) as [info | e |] eqn:E.
  - split; [exact Hin |]. now apply (fit_one_ok lib data name).
  - destruct Hin as [Hp Hg]. split; [exact Hg | exact Hp].
  - exact Hin.
Qed.

(** The batch fit of the sample [1; 3] with the stand-in library. *)
Lemma fit_distributions_batch_witness :
  exists results self',
    fit_distributions ToyStats.lib DistributionFitter_init [1; 3]
      default_distributions = Ok (results, self') /\
    fitted_distributions self' = results /\
    forall name, In name default_distributions ->
      match fit_one ToyStats.lib [1; 3] name with
      | Ok info =>
          dict_get results name = Some info /\
          let k := inject_Z (Z.of_nat (List.length (params info))) in
          let n := Z.of_nat (List.length [1; 3]) in
          aic info = 2 * k - 2 * log_likelihood info /\
          exists ln_n,
            np_log ToyStats.lib n = Ok ln_n /\
            bic info = k * ln_n - 2 * log_likelihood info
      | Raise e =>
          dict_get results name = None /\ In (name, e) (printed self')
      | NonFinite => False
      end.
Proof.
  apply (fit_distributions_batch ToyStats.lib DistributionFitter_init
           [1; 3] default_distributions).
  intros name Hname. simpl in Hname.
  destruct Hname as [<- | [<- | [<- | [<- | []]]]]; vm_compute; discriminate.
Defined.

(** With the stand-in library three of the four default families fail
    and the fourth is still fitted. *)
Example fit_distributions_skips_failures :
  match fit_distributions ToyStats.lib DistributionFitter_init [1; 3]
          default_distributions with
  | Ok (results, self') =>
      map fst results = ["expon"%string] /\
      map fst (printed self') = ["gamma"; "lognorm"; "weibull_min"]%string
  | _ => False
  end.
Proof. vm_compute. split; reflexivity. Qed.

Section BestScan.
Variables (criterion : string) (value : FitInfo -> Q).
Hypothesis criterion_reads :
  forall info, criterion_value info criterion = Ok (value info).

Lemma best_body_inv (seen : list (string * FitInfo)) (b : Best)
  (item : string * FitInfo) :
  best_inv value seen b ->
  exists b',
    best_body criterion b item = Ok b' /\
    best_inv value (seen ++ [item]) b'.
Proof.
  destruct item as [name info]. unfold best_body, best_inv.
  rewrite criterion_reads. simpl. intro H.
  destruct (best_name b) as [bn |] eqn:Eb.
  - destruct H as (binfo & -> & Hmin). simpl.
    destruct (Qltb (value info) (value binfo)) eqn:E.
    + apply Qltb_lt in E. eexists. split; [reflexivity |]. simpl.
      exists info. split; [reflexivity |].
      now apply (first_min_take (fun item => value (snd item)) seen
                   (bn, binfo) (name, info)).
    + apply Qltb_ge in E. eexists. split; [reflexivity |]. simpl.
      exists binfo. split; [reflexivity |].
      now apply (first_min_keep (fun item => value (snd item)) seen
                   (bn, binfo) (name, info)).
  - destruct H as (-> & ->). simpl.
    eexists. split; [reflexivity |]. simpl.
    exists info. split; [reflexivity |].
    apply (first_min_single (fun item => value (snd item))).
Qed.

Lemma best_scan (xs seen : list (string * FitInfo)) (b : Best) :
  best_inv value seen b ->
  exists b',
    for_each xs (best_body criterion) b = Ok b' /\
    best_inv value (seen ++ xs) b'.
Proof.
  revert seen b. induction xs as [| item xs IH]; intros seen b H; simpl.
  - exists b. rewrite app_nil_r. auto.
  - destruct (best_body_inv seen b item H) as (b1 & -> & H1). simpl.
    destruct (IH _ _ H1) as (b' & Hrun & H').
    exists b'. split; [exact Hrun |].
    rewrite <- app_assoc in H'. exact H'.
Qed.
End BestScan.

Lemma get_best_distribution_nonempty (lib : Library)
  (self : DistributionFitter) (data : list Q) (criterion : string) :
  fitted_distributions self <> [] ->
  get_best_distribution lib self data criterion =
  (b <- for_each (fitted_distributions self) (best_body criterion)
          (mkBest None PosInf None) ;;
   Ok (b, self)).
Proof.
  intro H. unfold get_best_distribution.
  destruct (fitted_distributions self) eqn:E; [contradiction |].
  simpl. rewrite E. reflexivity.
Qed.

(** C9 (counterexample).  A previous call of [fit_distributions] that
    produced no successful fit (here: called with an empty list of
    families) leaves the cache empty; the next [get_best_distribution]
    then refits on its [data] argument, so that two different samples
    give two different answers, neither of them taken from previously
    cached fits. *)
Lemma get_best_distribution_refits_on_empty_cache :
  exists self,
    fit_distributions ToyStats.lib DistributionFitter_init [1; 3] [] =
      Ok ([], self) /\
    (exists b s ps,
       get_best_distribution ToyStats.lib self [2; 6] "aic" = Ok (b, s) /\
       best_name b = Some "expon"%string /\
       best_params b = Some ps /\ map Qred ps = [2; 2] /\
       map fst (fitted_distributions s) = ["expon"%string]) /\
    (exists b s ps,
       get_best_distribution ToyStats.lib self [5; 7] "aic" = Ok (b, s) /\
       best_name b = Some "expon"%string /\
       best_params b = Some ps /\ map Qred ps = [5; 1]).
Proof.
  eexists. split; [vm_compute; reflexivity |].
  split; do 3 eexists; repeat split; vm_compute; reflexivity.
Qed.

(** The cache is also empty after a call in which every family failed,
    as the default families do in the stand-in library on an empty
    sample. *)
Example fit_distributions_all_fail :
  match fit_distributions ToyStats.lib DistributionFitter_init []
          default_distributions with
  | Ok (results, self) =>
      results = [] /\ fitted_distributions self = [] /\
      List.length (printed self) = 4%nat
  | _ => False
  end.
Proof. vm_compute. repeat split. Qed.

(** C9 (amended).  If a previous call of [fit_distributions] has left at
    least one successful fit in the cache, a subsequent
    [get_best_distribution(data, criterion)] ignores its [data] argument:
    it does not refit (the object is returned unchanged), and for the
    criteria ['aic'] and ['bic'] it returns the cached family that is the
    first minimum of the criterion, with the parameters fitted in that
    previous call. *)
Theorem get_best_distribution_uses_cache (lib : Library)
  (self0 self : DistributionFitter) (data0 : list Q)
  (distributions : list string) (results : list (string * FitInfo))
  (data data' : list Q) (criterion : string) :
  fit_distributions lib self0 data0 distributions = Ok (results, self) ->
  results <> [] ->
  get_best_distribution lib self data criterion =
    get_best_distribution lib self data' criterion /\
  forall value,
    (criterion = "aic"%string /\ value = aic) \/
    (criterion = "bic"%string /\ value = bic) ->
    exists name info,
      get_best_distribution lib self data criterion =
        Ok (mkBest (Some name) (Finite (value info)) (Some (params info)),
            self) /\
      first_min (fun item => value (snd item)) results (name, info).
Proof.
  intros Hfit Hne.
  assert (Hcache : fitted_distributions self = results).
  { unfold fit_distributions in Hfit.
    destruct (fit_loop lib data0 distributions [] (printed self0))
      as [[r out] | |]; try discriminate.
    simpl in Hfit. now injection Hfit as <- <-. }
  assert (Hne' : fitted_distributions self <> []) by now rewrite Hcache.
  split.
  - now rewrite !get_best_distribution_nonempty.
  - intros value Hcrit.
    rewrite get_best_distribution_nonempty by exact Hne'.
    rewrite Hcache.
    assert (Hreads : forall info,
               criterion_value info criterion = Ok (value info))
      by (destruct Hcrit as [[-> ->] | [-> ->]]; reflexivity).
    destruct (best_scan criterion value Hreads results []
                (mkBest None PosInf None)) as (b & -> & Hinv).
    { split; reflexivity. }
    simpl in Hinv. unfold best_inv in Hinv.
    destruct (best_name b) as [name |].
    + destruct Hinv as (info & -> & Hmin).
      exists name, info. split; [reflexivity | exact Hmin].
    + destruct Hinv as [Hnil _]. contradiction.
Qed.

(** After a fit of the sample [1; 3], the best distribution asked for
    the samples [2; 6] and [5; 7] is the cached one both times. *)
Lemma get_best_distribution_uses_cache_witness :
  exists self results,
    fit_distributions ToyStats.lib DistributionFitter_init [1; 3]
      default_distributions = Ok (results, self) /\
    get_best_distribution ToyStats.lib self [2; 6] "aic" =
      get_best_distribution ToyStats.lib self [5; 7] "aic" /\
    forall value,
      ("aic"%string = "aic"%string /\ value = aic) \/
      ("aic"%string = "bic"%string /\ value = bic) ->
      exists name info,
        get_best_distribution ToyStats.lib self [2; 6] "aic" =
          Ok (mkBest (Some name) (Finite (value info))
                (Some (params info)), self) /\
        first_min (fun item => value (snd item)) results (name, info).
Proof.
  do 2 eexists. split; [vm_compute; reflexivity |].
  eapply (get_best_distribution_uses_cache ToyStats.lib
            DistributionFitter_init _ [1; 3] default_distributions _
            [2; 6] [5; 7] "aic").
  - vm_compute. reflexivity.
  - discriminate.
Defined.

(* ================================================================== *)
(** * Goodness of fit *)

Lemma masked_bins_spec (observed expected : list Q) (o e : Q) :
  In (o, e) (masked_bins observed expected) <->
  In (o, e) (combine observed expected) /\ 5 < e.
Proof.
  unfold masked_bins. rewrite filter_In. simpl. now rewrite Qltb_lt.
Qed.

(** C8 (counterexample).  On a sample of three observations no bin has
    an expected count above 5, so no bin survives the filter; the test is
    degenerate, yet the call returns an ordinary result whose chi-square
    statistic is 0, the statistic of a perfect fit, and the record has no
    field that says otherwise. *)
Lemma chi_square_degenerate_not_flagged :
  exists r,
    goodness_of_fit_tests ToyStats.lib [1; 2; 3] (inl "expon"%string)
      [1; 1] = Ok r /\
    masked_bins (fst (histogram [1; 2; 3]))
      (expected_counts (fun x => d_cdf ToyStats.expon x [1; 1])
         (snd (histogram [1; 2; 3])) 3) = [] /\
    chi2_statistic r = 0.
Proof.
  eexists. split; [vm_compute; reflexivity |].
  split; vm_compute; reflexivity.
Qed.

(** C8 (amended).  In the chi-square goodness-of-fit test the bins passed
    to the chi-square routine are exactly the bins of the 20-bin histogram
    whose expected count is above 5 (a bin with expected count ≤5 is
    excluded from the statistic).  There is no degenerate-test flag:
    whenever the two library calls succeed, the result holds the statistic
    and p-value that the chi-square routine computed from the surviving
    bins, however few they are. *)
Theorem goodness_of_fit_excludes_small_bins (lib : Library)
  (data : list Q) (distribution : string + Distribution)
  (params : list Q) (dist : Distribution) :
  let cdf := fun x => d_cdf dist x params in
  let observed := fst (histogram data) in
  let expected :=
    expected_counts cdf (snd (histogram data)) (List.length data) in
  let kept := masked_bins observed expected in
  List.length observed = 20%nat /\ List.length expected = 20%nat /\
  (forall o e, In (o, e) kept <->
     In (o, e) (combine observed expected) /\ 5 < e) /\
  (forall ks chi2,
     match distribution with
     | inl name => stats_getattr lib name
     | inr obj => Ok obj
     end = Ok dist ->
     stats_kstest lib data cdf = Ok ks ->
     stats_chisquare lib (map fst kept) (map snd kept) = Ok chi2 ->
     goodness_of_fit_tests lib data distribution params =
     Ok (mkGoodnessOfFit (fst ks) (snd ks) (fst chi2) (snd chi2))).
Proof.
  intros cdf observed expected kept.
  assert (Hobs : List.length observed = 20%nat).
  { subst observed. unfold histogram.
    destruct (outer_edges data) as [first_edge last_edge]. simpl.
    reflexivity. }
  assert (Hexp : List.length expected = 20%nat).
  { subst expected. unfold expected_counts, histogram.
    destruct (outer_edges data) as [first_edge last_edge]. simpl.
    reflexivity. }
  split; [exact Hobs |]. split; [exact Hexp |].
  split; [intros o e; apply masked_bins_spec |].
  intros ks chi2 Hdist Hks Hchi.
  unfold goodness_of_fit_tests. rewrite Hdist. simpl.
  fold cdf. rewrite Hks. simpl.
  subst kept expected observed.
  destruct (histogram data) as [obs edges]. simpl in *.
  rewrite Hchi. reflexivity.
Qed.

(* ================================================================== *)
(** * The simulator *)

Lemma appends_app (a1 a2 : list (nat * Q)) (σ : store) :
  appends (a1 ++ a2) σ = appends a2 (appends a1 σ).
Proof. unfold appends. apply fold_left_app. Qed.

Lemma deref_list_append (σ : store) (l l' : nat) (x : Q) :
  is_Some (σ !! l) ->
  deref (list_append l' x σ) l =
  deref σ l ++ (if (l' =? l)%nat then [x] else []).
Proof.
  intros [xs Hxs]. unfold deref, list_append.
  destruct (Nat.eqb_spec l' l) as [-> | Hne].
  - rewrite lookup_alter_eq, Hxs. reflexivity.
  - rewrite lookup_alter_ne by exact Hne. rewrite Hxs. simpl.
    now rewrite app_nil_r.
Qed.

Lemma list_append_is_Some (σ : store) (l l' : nat) (x : Q) :
  is_Some (σ !! l) -> is_Some (list_append l' x σ !! l).
Proof.
  intros [xs Hxs]. unfold list_append.
  destruct (Nat.eqb_spec l' l) as [-> | Hne].
  - rewrite lookup_alter_eq, Hxs. simpl. eauto.
  - rewrite lookup_alter_ne by exact Hne. eauto.
Qed.

(** Appending leaves what a list held and adds the new samples after
    it. *)
Lemma deref_appends (acts : list (nat * Q)) (σ : store) (l : nat) :
  is_Some (σ !! l) ->
  deref (appends acts σ) l = deref σ l ++ samples_at l acts.
Proof.
  revert σ. induction acts as [| [l' x] acts IH]; intros σ Hl.
  - unfold samples_at. simpl. now rewrite app_nil_r.
  - change (appends ((l', x) :: acts) σ)
      with (appends acts (list_append l' x σ)).
    rewrite IH by now apply list_append_is_Some.
    rewrite deref_list_append by exact Hl.
    unfold samples_at. simpl.
    destruct (l' =? l)%nat; simpl; now rewrite <- app_assoc.
Qed.

Lemma appends_is_Some (acts : list (nat * Q)) (σ : store) (l : nat) :
  is_Some (σ !! l) -> is_Some (appends acts σ !! l).
Proof.
  revert σ. induction acts as [| [l' x] acts IH]; intros σ H; [exact H |].
  apply (IH (list_append l' x σ)). now apply list_append_is_Some.
Qed.

Lemma locate_app (self : QueueSimulator) (s1 s2 : list (sample_list * Q)) :
  locate self (s1 ++ s2) = locate self s1 ++ locate self s2.
Proof. apply map_app. Qed.

(** When the three lists of a simulator are distinct objects, each list
    receives the samples recorded for it. *)
Lemma samples_at_locate (self : QueueSimulator) (which : sample_list)
  (samples : list (sample_list * Q)) :
  wait_times self <> system_times self ->
  wait_times self <> queue_lengths self ->
  system_times self <> queue_lengths self ->
  samples_at (list_of self which) (locate self samples) =
  samples_for which samples.
Proof.
  intros Hws Hwq Hsq. unfold samples_at, samples_for, locate.
  induction samples as [| [f x] samples IH]; [reflexivity |].
  cbn [map filter fst snd].
  assert (Heq : (list_of self f =? list_of self which)%nat =
                sample_list_eqb f which).
  { destruct f, which; simpl;
      first [apply Nat.eqb_refl | apply Nat.eqb_neq; congruence]. }
  rewrite Heq. destruct (sample_list_eqb f which); simpl; now rewrite IH.
Qed.

Lemma QueueSimulator_init_lists (lam mu : Q) (c : Z) (T : Q) (σ0 σ : store)
  (self : QueueSimulator) :
  QueueSimulator_init lam mu c T σ0 = (self, σ) ->
  (forall which, σ !! list_of self which = Some []) /\
  wait_times self <> system_times self /\
  wait_times self <> queue_lengths self /\
  system_times self <> queue_lengths self /\
  s_lambda_rate self = lam /\ s_mu_rate self = mu /\
  c_servers self = c /\ sim_time self = T.
Proof.
  unfold QueueSimulator_init, alloc. intros [= <- <-]. simpl.
  set (w := fresh (dom σ0)).
  set (σw := <[w := []]> σ0).
  set (s := fresh (dom σw)).
  set (σs := <[s := []]> σw).
  set (q := fresh (dom σs)).
  assert (Hs : s <> w).
  { intros E. apply (is_fresh (dom σw)). fold s. rewrite E.
    subst σw. rewrite dom_insert_L. set_solver. }
  assert (Hq : q <> w /\ q <> s).
  { split; intros E; apply (is_fresh (dom σs)); fold q; rewrite E;
      subst σs σw; rewrite !dom_insert_L; set_solver. }
  destruct Hq as [Hqw Hqs].
  split; [| repeat split; congruence].
  intros [| |]; simpl; subst σs σw.
  - rewrite lookup_insert_ne by exact Hqw.
    rewrite lookup_insert_ne by exact Hs. apply lookup_insert_eq.
  - rewrite lookup_insert_ne by exact Hqs. apply lookup_insert_eq.
  - apply lookup_insert_eq.
Qed.

Section SimulatorFacts.
Variable G : Type.
Variable np_random_seed : Z -> res G.
Variable expon_rvs : Q -> G -> Q * G.

Lemma resume_same (ev : event) (e : Env G) (self : QueueSimulator)
  (σ : store) :
  same_everywhere
    (fun self σ => Some (resume G expon_rvs self ev e σ)) self σ.
Proof.
  unfold same_everywhere.
  destruct ev; unfold resume, customer_generator, customer.
  - destruct (pydiv 1 (s_lambda_rate self)) as [scale | x |] eqn:Ed; simpl.
    + destruct (draw G expon_rvs scale e) as [gap e1] eqn:Edraw.
      destruct (timeout G e1 gap GeneratorWake) as [e' | x |] eqn:Et;
        simpl.
      * exists []. split; [reflexivity |].
        intros self' τ (Hl & _). rewrite <- Hl, Ed. simpl.
        now rewrite Edraw, Et.
      * intros self' τ (Hl & _). rewrite <- Hl, Ed. simpl.
        now rewrite Edraw, Et.
      * intros self' τ (Hl & _). rewrite <- Hl, Ed. simpl.
        now rewrite Edraw, Et.
    + intros self' τ (Hl & _). now rewrite <- Hl, Ed.
    + intros self' τ (Hl & _). now rewrite <- Hl, Ed.
  - destruct (pydiv 1 (s_lambda_rate self)) as [scale | x |] eqn:Ed; simpl.
    + destruct (draw G expon_rvs scale _) as [gap e1] eqn:Edraw.
      destruct (timeout G e1 gap GeneratorWake) as [e' | x |] eqn:Et;
        simpl.
      * eexists [(QueueLengths, _)]. split; [reflexivity |].
        intros self' τ (Hl & _). rewrite <- Hl, Ed. simpl.
        now rewrite Edraw, Et.
      * intros self' τ (Hl & _). rewrite <- Hl, Ed. simpl.
        now rewrite Edraw, Et.
      * intros self' τ (Hl & _). rewrite <- Hl, Ed. simpl.
        now rewrite Edraw, Et.
    + intros self' τ (Hl & _). now rewrite <- Hl, Ed.
    + intros self' τ (Hl & _). now rewrite <- Hl, Ed.
  - exists []. split; [reflexivity |]. intros self' τ (_ & _ & Hc & _).
    now rewrite Hc.
  - destruct (pydiv 1 (s_mu_rate self)) as [scale | x |] eqn:Ed; simpl.
    + destruct (draw G expon_rvs scale e) as [service_time e1] eqn:Edraw.
      destruct (timeout G e1 service_time (ServiceDone arrive))
        as [e' | x |] eqn:Et; simpl.
      * eexists [(WaitTimes, _)]. split; [reflexivity |].
        intros self' τ (_ & Hm & _). rewrite <- Hm, Ed. simpl.
        now rewrite Edraw, Et.
      * intros self' τ (_ & Hm & _). rewrite <- Hm, Ed. simpl.
        now rewrite Edraw, Et.
      * intros self' τ (_ & Hm & _). rewrite <- Hm, Ed. simpl.
        now rewrite Edraw, Et.
    + intros self' τ (_ & Hm & _). now rewrite <- Hm, Ed.
    + intros self' τ (_ & Hm & _). now rewrite <- Hm, Ed.
  - eexists [(SystemTimes, _)]. split; reflexivity.
  - exists []. split; [reflexivity |]. intros self' τ (_ & _ & Hc & _).
    now rewrite Hc.
  - exists []. split; reflexivity.
Qed.

Lemma env_run_same (fuel : nat) :
  forall (e : Env G) (self : QueueSimulator) (σ : store),
    same_everywhere (fun self σ => env_run G expon_rvs fuel self e σ)
      self σ.
Proof.
  induction fuel as [| fuel IH]; intros e self σ; unfold same_everywhere.
  - now intros.
  - cbn [env_run].
    destruct (queue G e) as [| s rest]; [now intros |].
    set (e0 := mkEnv G (at_time s) _ rest _ _ _ _).
    set (continue := fun (self : QueueSimulator) (σ : store) =>
           match resume G expon_rvs self (what s) e0 σ with
           | Ok (e', σ') => env_run G expon_rvs fuel self e' σ'
           | Raise x => Some (Raise x)
           | NonFinite => Some NonFinite
           end).
    assert (Hstep : same_everywhere continue self σ).
    { unfold same_everywhere, continue.
      pose proof (resume_same (what s) e0 self σ) as Hr.
      unfold same_everywhere in Hr.
      destruct (resume G expon_rvs self (what s) e0 σ)
        as [[e1 σ1] | x |] eqn:Er.
      - destruct Hr as (samples1 & -> & Hr).
        pose proof (IH e1 self (appends (locate self samples1) σ)) as Hrun.
        unfold same_everywhere in Hrun.
        destruct (env_run G expon_rvs fuel self e1 _)
          as [[[e2 σ2] | x |] |] eqn:E2.
        + destruct Hrun as (samples2 & -> & Hrun).
          exists (samples1 ++ samples2).
          split; [now rewrite locate_app, appends_app |].
          intros self' τ Hp. specialize (Hr self' τ Hp).
          injection Hr as ->.
          rewrite locate_app, appends_app. now apply Hrun.
        + intros self' τ Hp. specialize (Hr self' τ Hp).
          injection Hr as ->. now apply Hrun.
        + intros self' τ Hp. specialize (Hr self' τ Hp).
          injection Hr as ->. now apply Hrun.
        + intros self' τ Hp. specialize (Hr self' τ Hp).
          injection Hr as ->. now apply Hrun.
      - intros self' τ Hp. specialize (Hr self' τ Hp).
        now injection Hr as ->.
      - intros self' τ Hp. specialize (Hr self' τ Hp).
        now injection Hr as ->. }
    unfold same_everywhere, continue in Hstep.
    destruct (what s); try exact Hstep.
    exists []. split; reflexivity.
Qed.

(** A successful run appends the samples it records to the simulator's
    lists and builds its result from the lists as they then are; on any
    simulator with the same parameters, in any store, the same call
    records the same samples. *)
Lemma run_simulation_same (fuel : nat) (seed : Z) (self : QueueSimulator)
  (σ σ1 : store) (r : SimulationResult) :
  run_simulation G np_random_seed expon_rvs fuel self seed σ =
    Some (Ok (r, σ1)) ->
  exists samples,
    σ1 = appends (locate self samples) σ /\
    r = result_of self σ1 /\
    forall self' τ, same_parameters self self' ->
      run_simulation G np_random_seed expon_rvs fuel self' seed τ =
      Some (Ok (result_of self' (appends (locate self' samples) τ),
                appends (locate self' samples) τ)).
Proof.
  unfold run_simulation. intro Hrun.
  destruct (np_random_seed seed) as [g | x |]; try discriminate.
  destruct (c_servers self <=? 0)%Z eqn:Ec; [discriminate |].
  destruct (Qle_bool (sim_time self) 0) eqn:Et; [discriminate |].
  set (env := fun T : Q =>
         schedule G (schedule G (mkEnv G 0 0 [] g 0 [] 0) URGENT 0
                       GeneratorStart) URGENT T Until) in *.
  pose proof (env_run_same fuel (env (sim_time self)) self σ) as Hsame.
  unfold same_everywhere in Hsame.
  change (schedule G _ URGENT (sim_time self) Until)
    with (env (sim_time self)) in Hrun.
  destruct (env_run G expon_rvs fuel self (env (sim_time self)) σ)
    as [[[e' σ'] | x |] |]; try discriminate.
  destruct Hsame as (samples & -> & Hsame).
  unfold pydiv in Hrun.
  destruct (Qeq_bool (s_mu_rate self) 0) eqn:Em; [discriminate |].
  simpl in Hrun. injection Hrun as <- <-.
  exists samples. split; [reflexivity |]. split; [reflexivity |].
  intros self' τ Hp. pose proof Hp as (Hl & Hm & Hc & HT).
  rewrite <- Hc, Ec, <- HT, Et.
  change (schedule G _ URGENT (sim_time self) Until)
    with (env (sim_time self)).
  rewrite (Hsame self' τ Hp). unfold pydiv. rewrite <- Hm, Em. simpl.
  unfold result_of. rewrite <- Hl, <- Hm, <- HT. reflexivity.
Qed.

Lemma deref_samples (which : sample_list) (self : QueueSimulator)
  (samples : list (sample_list * Q)) (σ : store) :
  wait_times self <> system_times self ->
  wait_times self <> queue_lengths self ->
  system_times self <> queue_lengths self ->
  is_Some (σ !! list_of self which) ->
  deref (appends (locate self samples) σ) (list_of self which) =
  deref σ (list_of self which) ++ samples_for which samples.
Proof.
  intros Hws Hwq Hsq Hl. rewrite deref_appends by exact Hl.
  now rewrite samples_at_locate.
Qed.

(** C5.  Two successive [run_simulation] calls on the same simulator
    object with the same seed do not produce the same sample sequences:
    the lists are created once, in [__init__], and every run appends to
    them, so the second result holds the samples of the first run
    followed by the same samples again, and counts twice as many
    customers.  Both results refer to the same list objects. *)
Theorem repeated_run_accumulates (fuel : nat) (lam mu : Q) (c : Z) (T : Q)
  (seed : Z) (σ0 σ σ1 : store) (self : QueueSimulator)
  (r1 : SimulationResult) :
  QueueSimulator_init lam mu c T σ0 = (self, σ) ->
  run_simulation G np_random_seed expon_rvs fuel self seed σ =
    Some (Ok (r1, σ1)) ->
  exists r2 σ2,
    run_simulation G np_random_seed expon_rvs fuel self seed σ1 =
      Some (Ok (r2, σ2)) /\
    r_wait_times r2 = r_wait_times r1 /\
    r_system_times r2 = r_system_times r1 /\
    r_queue_lengths r2 = r_queue_lengths r1 /\
    deref σ2 (r_wait_times r2) =
      deref σ1 (r_wait_times r1) ++ deref σ1 (r_wait_times r1) /\
    deref σ2 (r_system_times r2) =
      deref σ1 (r_system_times r1) ++ deref σ1 (r_system_times r1) /\
    deref σ2 (r_queue_lengths r2) =
      deref σ1 (r_queue_lengths r1) ++ deref σ1 (r_queue_lengths r1) /\
    total_customers r2 = (2 * total_customers r1)%nat /\
    (total_customers r1 <> 0%nat ->
     deref σ2 (r_wait_times r2) <> deref σ1 (r_wait_times r1)).
Proof.
  intros Hinit Hrun.
  destruct (QueueSimulator_init_lists _ _ _ _ _ _ _ Hinit)
    as (Hnew & Hws & Hwq & Hsq & _).
  destruct (run_simulation_same fuel seed self σ σ1 r1 Hrun)
    as (samples & -> & -> & Hagain).
  assert (Hp : same_parameters self self) by (repeat split).
  rewrite (Hagain self _ Hp).
  assert (Hd1 : forall which,
            deref (appends (locate self samples) σ) (list_of self which) =
            samples_for which samples).
  { intro which. rewrite deref_samples; try assumption.
    - unfold deref. now rewrite Hnew.
    - rewrite Hnew. eauto. }
  assert (Hd2 : forall which,
            deref (appends (locate self samples)
                     (appends (locate self samples) σ))
              (list_of self which) =
            samples_for which samples ++ samples_for which samples).
  { intro which. rewrite deref_samples; try assumption.
    - now rewrite Hd1.
    - apply appends_is_Some. rewrite Hnew. eauto. }
  pose proof (Hd1 WaitTimes) as Hw1. pose proof (Hd1 SystemTimes) as Hs1.
  pose proof (Hd1 QueueLengths) as Hq1. pose proof (Hd2 WaitTimes) as Hw2.
  pose proof (Hd2 SystemTimes) as Hs2. pose proof (Hd2 QueueLengths) as Hq2.
  simpl in Hw1, Hs1, Hq1, Hw2, Hs2, Hq2.
  eexists. eexists. split; [reflexivity |]. simpl.
  rewrite Hw1, Hs1, Hq1, Hw2, Hs2, Hq2.
  repeat split; try reflexivity.
  - rewrite length_app. lia.
  - intros Hn Heq. apply (f_equal (@List.length Q)) in Heq.
    rewrite length_app in Heq. lia.
Qed.

(** Two simulators built with the same arguments and run once each with
    the same seed do produce the same sample sequences and the same
    estimates, whatever else the store holds. *)
Lemma fresh_simulators_agree (fuel : nat) (lam mu : Q) (c : Z) (T : Q)
  (seed : Z) (σ0 σa σa1 τ0 σb : store) (a b : QueueSimulator)
  (ra : SimulationResult) :
  QueueSimulator_init lam mu c T σ0 = (a, σa) ->
  run_simulation G np_random_seed expon_rvs fuel a seed σa =
    Some (Ok (ra, σa1)) ->
  QueueSimulator_init lam mu c T τ0 = (b, σb) ->
  exists rb σb1,
    run_simulation G np_random_seed expon_rvs fuel b seed σb =
      Some (Ok (rb, σb1)) /\
    deref σb1 (r_wait_times rb) = deref σa1 (r_wait_times ra) /\
    deref σb1 (r_system_times rb) = deref σa1 (r_system_times ra) /\
    deref σb1 (r_queue_lengths rb) = deref σa1 (r_queue_lengths ra) /\
    Wq_simulated rb = Wq_simulated ra /\
    W_simulated rb = W_simulated ra /\
    Lq_simulated rb = Lq_simulated ra /\
    L_simulated rb = L_simulated ra /\
    total_customers rb = total_customers ra.
Proof.
  intros Ha Hrun Hb.
  destruct (QueueSimulator_init_lists _ _ _ _ _ _ _ Ha)
    as (Hnewa & Hwsa & Hwqa & Hsqa & Hla & Hma & Hca & HTa).
  destruct (QueueSimulator_init_lists _ _ _ _ _ _ _ Hb)
    as (Hnewb & Hwsb & Hwqb & Hsqb & Hlb & Hmb & Hcb & HTb).
  destruct (run_simulation_same fuel seed a σa σa1 ra Hrun)
    as (samples & -> & -> & Hagain).
  assert (Hp : same_parameters a b) by (repeat split; congruence).
  rewrite (Hagain b σb Hp).
  assert (Hda : forall which,
            deref (appends (locate a samples) σa) (list_of a which) =
            samples_for which samples).
  { intro which. rewrite deref_samples; try assumption.
    - unfold deref. now rewrite Hnewa.
    - rewrite Hnewa. eauto. }
  assert (Hdb : forall which,
            deref (appends (locate b samples) σb) (list_of b which) =
            samples_for which samples).
  { intro which. rewrite deref_samples; try assumption.
    - unfold deref. now rewrite Hnewb.
    - rewrite Hnewb. eauto. }
  pose proof (Hda WaitTimes) as Hwa. pose proof (Hda SystemTimes) as Hsa.
  pose proof (Hda QueueLengths) as Hqa. pose proof (Hdb WaitTimes) as Hwb.
  pose proof (Hdb SystemTimes) as Hsb. pose proof (Hdb QueueLengths) as Hqb.
  simpl in Hwa, Hsa, Hqa, Hwb, Hsb, Hqb.
  eexists. eexists. split; [reflexivity |].
  unfold result_of. simpl.
  rewrite Hwa, Hsa, Hqa, Hwb, Hsb, Hqb, Hla, Hma, Hlb, Hmb.
  repeat split; reflexivity.
Qed.
End SimulatorFacts.

(** With the stand-in generator, λ = 2, μ = 1, one server and a horizon
    of 10, the first run records 10 served customers and the second run
    on the same object reports 20. *)
Lemma repeated_run_accumulates_witness :
  exists self σ r1 σ1,
    QueueSimulator_init 2 1 1 10 ∅ = (self, σ) /\
    run_simulation Z ToyRandom.seed ToyRandom.rvs 200 self 42 σ =
      Some (Ok (r1, σ1)) /\
    total_customers r1 = 10%nat /\
    exists r2 σ2,
      run_simulation Z ToyRandom.seed ToyRandom.rvs 200 self 42 σ1 =
        Some (Ok (r2, σ2)) /\
      r_wait_times r2 = r_wait_times r1 /\
      r_system_times r2 = r_system_times r1 /\
      r_queue_lengths r2 = r_queue_lengths r1 /\
      deref σ2 (r_wait_times r2) =
        deref σ1 (r_wait_times r1) ++ deref σ1 (r_wait_times r1) /\
      deref σ2 (r_system_times r2) =
        deref σ1 (r_system_times r1) ++ deref σ1 (r_system_times r1) /\
      deref σ2 (r_queue_lengths r2) =
        deref σ1 (r_queue_lengths r1) ++ deref σ1 (r_queue_lengths r1) /\
      total_customers r2 = (2 * total_customers r1)%nat /\
      (total_customers r1 <> 0%nat ->
       deref σ2 (r_wait_times r2) <> deref σ1 (r_wait_times r1)).
Proof.
  exists (fst (QueueSimulator_init 2 1 1 10 ∅)),
    (snd (QueueSimulator_init 2 1 1 10 ∅)).
  assert (Hrun : exists r1 σ1,
             run_simulation Z ToyRandom.seed ToyRandom.rvs 200
               (fst (QueueSimulator_init 2 1 1 10 ∅)) 42
               (snd (QueueSimulator_init 2 1 1 10 ∅)) =
             Some (Ok (r1, σ1)) /\ total_customers r1 = 10%nat).
  { eexists. eexists. split; vm_compute; reflexivity. }
  destruct Hrun as (r1 & σ1 & Hrun & Hcount).
  exists r1, σ1.
  split; [reflexivity |]. split; [exact Hrun |]. split; [exact Hcount |].
  apply (repeated_run_accumulates Z ToyRandom.seed ToyRandom.rvs 200
           2 1 1 10 42 ∅ _ _ _ _ eq_refl Hrun).
Defined.

(** The two results of that run, read when each is returned, and the
    first result read again after the second run. *)
Example repeated_run_counts :
  let '(self, σ) := QueueSimulator_init 2 1 1 10 ∅ in
  match run_simulation Z ToyRandom.seed ToyRandom.rvs 200 self 42 σ with
  | Some (Ok (r1, σ1)) =>
      match run_simulation Z ToyRandom.seed ToyRandom.rvs 200 self 42 σ1
      with
      | Some (Ok (r2, σ2)) =>
          total_customers r1 = 10%nat /\ total_customers r2 = 20%nat /\
          List.length (deref σ1 (r_queue_lengths r1)) = 13%nat /\
          List.length (deref σ2 (r_queue_lengths r2)) = 26%nat /\
          List.length (deref σ2 (r_queue_lengths r1)) = 26%nat
      | _ => False
      end
  | _ => False
  end.
Proof. vm_compute. repeat split. Qed.

(* ================================================================== *)
(** * Further properties of the analytic model *)

Lemma sum_cons_ge (x : Q) (xs : list Q) :
  Forall (fun y => 0 <= y) xs -> x <= sum (x :: xs).
Proof.
  intro H. unfold sum. simpl.
  pose proof (fold_left_Qplus_ge xs (0 + x) H). lra.
Qed.

Lemma range_pos_head (c : Z) :
  (1 <= c)%Z -> range c = 0%Z :: range2 1 c.
Proof.
  intro Hc. unfold range, range2.
  replace (Z.to_nat (c - 0)) with (S (Z.to_nat (c - 1))) by lia.
  simpl. f_equal. rewrite <- seq_shift, map_map.
  apply map_ext. intro i. lia.
Qed.

(** The Erlang sum of a stable configuration is at least its first
    term, which is 1. *)
Lemma erlang_sum_ge_1 (lam mu : Q) (c : Z) :
  0 < lam -> 0 < mu -> (1 <= c)%Z ->
  1 <= sum (map (Formula.term lam mu) (range c)).
Proof.
  intros Hlam Hmu Hc. rewrite (range_pos_head c Hc). cbn [map].
  assert (H0 : Formula.term lam mu 0 == 1) by reflexivity.
  rewrite <- H0 at 1. apply sum_cons_ge.
  apply Forall_forall. intros x Hx. apply in_map_iff in Hx.
  destruct Hx as [n [<- Hn]]. apply in_range2 in Hn.
  apply Qlt_le_weak. apply term_pos; try assumption. lia.
Qed.

(** The closed-form metrics of a stable configuration are in range. *)
Lemma formula_in_range (lam mu : Q) (c : Z) :
  0 < lam -> 0 < mu -> (1 <= c)%Z -> Formula.rho lam mu c < 1 ->
  0 < Formula.rho lam mu c /\
  0 < Formula.P0 lam mu c /\ Formula.P0 lam mu c <= 1 /\
  0 < Formula.Pwait lam mu c /\ Formula.Pwait lam mu c < 1 /\
  0 < Formula.Lq lam mu c /\ Formula.Lq lam mu c < Formula.L lam mu c /\
  0 < Formula.Wq lam mu c /\ Formula.Wq lam mu c < Formula.W lam mu c.
Proof.
  intros Hlam Hmu Hc Hrho.
  pose proof (erlang_sum_ge_1 lam mu c Hlam Hmu Hc) as Hsum.
  pose proof (last_term_pos lam mu c Hlam Hmu Hc Hrho) as Hlast.
  pose proof (P0_pos lam mu c Hlam Hmu Hc Hrho) as Hp0.
  assert (Hcap : 0 < inject_Z c * mu).
  { apply Qmult_lt_0_compat; [| exact Hmu].
    change 0 with (inject_Z 0). rewrite <- Zlt_Qlt. lia. }
  assert (Hrho0 : 0 < Formula.rho lam mu c)
    by (unfold Formula.rho; now apply Qdiv_pos).
  set (S := sum (map (Formula.term lam mu) (range c))) in *.
  set (T := Formula.term lam mu c * (1 / (1 - Formula.rho lam mu c))) in *.
  assert (HP0 : Formula.P0 lam mu c == 1 / (S + T)) by reflexivity.
  assert (Hp0le : Formula.P0 lam mu c <= 1).
  { rewrite HP0. apply Qle_shift_div_r; lra. }
  assert (HPw : Formula.Pwait lam mu c == T / (S + T)).
  { unfold Formula.Pwait. fold T. rewrite HP0. field. lra. }
  assert (Hpw0 : 0 < Formula.Pwait lam mu c).
  { rewrite HPw. apply Qdiv_pos; lra. }
  assert (Hpw1 : Formula.Pwait lam mu c < 1).
  { rewrite HPw. apply Qlt_shift_div_r; lra. }
  assert (Hlq : 0 < Formula.Lq lam mu c).
  { unfold Formula.Lq. apply Qdiv_pos; [| lra].
    apply Qmult_lt_0_compat; assumption. }
  assert (Hwq : 0 < Formula.Wq lam mu c)
    by (unfold Formula.Wq; now apply Qdiv_pos).
  assert (Ha : 0 < lam / mu) by now apply Qdiv_pos.
  assert (Hs : 0 < 1 / mu) by (apply Qdiv_pos; [lra | exact Hmu]).
  unfold Formula.L, Formula.W.
  repeat split; try assumption; lra.
Qed.

(** X1.  For every stable configuration (λ>0, μ>0, c≥1, ρ<1) whose
    powers [(λ/μ)^n] and factorials [n!] with [n <= c] are within the
    binary64 range, the metrics that [calculate_metrics] returns are in
    range: [0 < P0 <= 1], [0 < Pw < 1] (the Erlang-C probability),
    [0 < rho < 1], and the queue figures are positive and strictly below
    the system figures, [0 < Lq < L] and [0 < Wq < W]. *)
Theorem stable_metrics_in_range (lam mu : Q) (c : Z) :
  0 < lam -> 0 < mu -> (1 <= c)%Z -> Formula.rho lam mu c < 1 ->
  Binary64Range.in_binary64_range lam mu c = true ->
  exists q m,
    MMcQueue_init lam mu c = Ok q /\
    Binary64Range.calculate_metrics64 q = Ok (Stable m) /\
    0 < m_rho m /\ m_rho m < 1 /\
    0 < m_P0 m /\ m_P0 m <= 1 /\
    0 < m_Pw_erlang_c m /\ m_Pw_erlang_c m < 1 /\
    0 < m_Lq m /\ m_Lq m < m_L m /\
    0 < m_Wq m /\ m_Wq m < m_W m.
Proof.
  intros Hlam Hmu Hc Hrho Hfits.
  exists (mkMMcQueue lam mu c (Formula.rho lam mu c)),
    (Formula.metrics lam mu c).
  split; [now apply MMcQueue_init_stable |].
  split.
  { rewrite calculate_metrics64_in_range by (lia || assumption).
    now apply calculate_metrics_stable. }
  destruct (formula_in_range lam mu c Hlam Hmu Hc Hrho)
    as (H1 & H2 & H3 & H4 & H5 & H6 & H7 & H8 & H9).
  simpl. repeat split; assumption.
Qed.

(** X1 at λ = 120, μ = 30, c = 6. *)
Lemma stable_metrics_in_range_witness :
  exists q m,
    MMcQueue_init 120 30 6 = Ok q /\
    Binary64Range.calculate_metrics64 q = Ok (Stable m) /\
    0 < m_rho m /\ m_rho m < 1 /\
    0 < m_P0 m /\ m_P0 m <= 1 /\
    0 < m_Pw_erlang_c m /\ m_Pw_erlang_c m < 1 /\
    0 < m_Lq m /\ m_Lq m < m_L m /\
    0 < m_Wq m /\ m_Wq m < m_W m.
Proof.
  apply (stable_metrics_in_range 120 30 6); vm_compute; congruence.
Defined.

(** X2.  With a single server and 0 < λ < μ, [calculate_metrics] returns
    the classical M/M/1 figures: [rho = λ/μ], [P0 = 1 - ρ], [Pw = ρ],
    [Lq = ρ²/(1-ρ)], [L = ρ/(1-ρ)], [Wq = ρ/(μ-λ)] and [W = 1/(μ-λ)]. *)
Theorem single_server_metrics (lam mu : Q) :
  0 < lam -> lam < mu ->
  exists q m,
    MMcQueue_init lam mu 1 = Ok q /\
    calculate_metrics q = Ok (Stable m) /\
    m_rho m == lam / mu /\
    m_P0 m == 1 - lam / mu /\
    m_Pw_erlang_c m == lam / mu /\
    m_Lq m == (lam / mu) * (lam / mu) / (1 - lam / mu) /\
    m_L m == (lam / mu) / (1 - lam / mu) /\
    m_Wq m == (lam / mu) / (mu - lam) /\
    m_W m == 1 / (mu - lam).
Proof.
  intros Hlam Hlt.
  assert (Hmu : 0 < mu) by lra.
  destruct (single_server_reduction lam mu Hlam Hlt)
    as (Hrho & Hp0 & Hpw & Hlq).
  assert (Hstable : Formula.rho lam mu 1 < 1).
  { rewrite Hrho. apply Qlt_shift_div_r; lra. }
  exists (mkMMcQueue lam mu 1 (Formula.rho lam mu 1)),
    (Formula.metrics lam mu 1).
  split; [apply MMcQueue_init_stable; [exact Hmu | lia] |].
  split; [apply calculate_metrics_stable; try assumption; lia |].
  simpl. unfold Formula.L, Formula.W, Formula.Wq.
  repeat split; try assumption.
  - rewrite Hlq. field. lra.
  - rewrite Hlq. field. lra.
  - rewrite Hlq. field. lra.
Qed.

(** X2 at λ = 20, μ = 30. *)
Lemma single_server_metrics_witness :
  exists q m,
    MMcQueue_init 20 30 1 = Ok q /\
    calculate_metrics q = Ok (Stable m) /\
    m_rho m == 20 / 30 /\
    m_P0 m == 1 - 20 / 30 /\
    m_Pw_erlang_c m == 20 / 30 /\
    m_Lq m == (20 / 30) * (20 / 30) / (1 - 20 / 30) /\
    m_L m == (20 / 30) / (1 - 20 / 30) /\
    m_Wq m == (20 / 30) / (30 - 20) /\
    m_W m == 1 / (30 - 20).
Proof.
  apply (single_server_metrics 20 30); reflexivity.
Defined.

(** X3.  When the offered load reaches the capacity (λ ≥ c·μ, the
    boundary ρ = 1 included) [calculate_metrics] raises nothing and
    evaluates no power and no factorial: it returns the short dictionary,
    whose keys are ['stable'] (false), ['rho'] and ['message'] and no
    other.  Reading ['rho'] from it gives the utilisation; reading any
    other key, so any metric of the stable layout but ['rho'], raises
    [KeyError]. *)
Theorem calculate_metrics_unstable (lam mu : Q) (c : Z) :
  0 < mu -> (1 <= c)%Z -> inject_Z c * mu <= lam ->
  exists q message,
    MMcQueue_init lam mu c = Ok q /\
    is_stable q = false /\
    1 <= rho q /\
    message = "Sistema inestable: rho >= 1"%string /\
    Binary64Range.calculate_metrics64 q = Ok (Unstable (rho q) message) /\
    unstable_getitem "stable" (rho q) message = Ok (Bool false) /\
    unstable_getitem "rho" (rho q) message = Ok (Float (rho q)) /\
    unstable_getitem "message" (rho q) message = Ok (Str message) /\
    (forall key, ~ In key ["stable"; "rho"; "message"]%string ->
       unstable_getitem key (rho q) message = Raise (KeyError key)) /\
    (forall field,
       (d <- Binary64Range.calculate_metrics64 q ;; metric "rho" field d) =
       Ok (rho q)) /\
    (forall key field, ~ In key ["stable"; "rho"; "message"]%string ->
       (d <- Binary64Range.calculate_metrics64 q ;; metric key field d) =
       Raise (KeyError key)).
Proof.
  intros Hmu Hc Hload.
  assert (Hcap : 0 < inject_Z c * mu).
  { apply Qmult_lt_0_compat; [| exact Hmu].
    change 0 with (inject_Z 0). rewrite <- Zlt_Qlt. lia. }
  assert (Hrho : 1 <= Formula.rho lam mu c).
  { unfold Formula.rho. apply Qle_shift_div_l; [exact Hcap |].
    now rewrite Qmult_1_l. }
  exists (mkMMcQueue lam mu c (Formula.rho lam mu c)),
    "Sistema inestable: rho >= 1"%string.
  split; [now apply MMcQueue_init_stable |].
  assert (Hs : is_stable (mkMMcQueue lam mu c (Formula.rho lam mu c)) = false)
    by (apply Qltb_ge; exact Hrho).
  split; [exact Hs |]. split; [exact Hrho |]. split; [reflexivity |].
  assert (Hmissing : forall key r message,
            ~ In key ["stable"; "rho"; "message"]%string ->
            unstable_getitem key r message = Raise (KeyError key)).
  { intros key r message Hkey. unfold unstable_getitem.
    destruct (String.eqb_spec key "stable") as [-> | _];
      [exfalso; apply Hkey; simpl; auto |].
    destruct (String.eqb_spec key "rho") as [-> | _];
      [exfalso; apply Hkey; simpl; auto |].
    destruct (String.eqb_spec key "message") as [-> | _];
      [exfalso; apply Hkey; simpl; auto |].
    reflexivity. }
  unfold Binary64Range.calculate_metrics64. rewrite Hs. cbn [negb bind rho].
  do 4 (split; [reflexivity |]).
  split; [intros key Hkey; now apply Hmissing |].
  split; [reflexivity |].
  intros key field Hkey. cbn [metric]. now rewrite Hmissing.
Qed.

(** X3 at λ = 120, μ = 30, c = 4 (ρ = 1). *)
Lemma calculate_metrics_unstable_witness :
  exists q message,
    MMcQueue_init 120 30 4 = Ok q /\
    is_stable q = false /\
    1 <= rho q /\
    message = "Sistema inestable: rho >= 1"%string /\
    Binary64Range.calculate_metrics64 q = Ok (Unstable (rho q) message) /\
    unstable_getitem "stable" (rho q) message = Ok (Bool false) /\
    unstable_getitem "rho" (rho q) message = Ok (Float (rho q)) /\
    unstable_getitem "message" (rho q) message = Ok (Str message) /\
    (forall key, ~ In key ["stable"; "rho"; "message"]%string ->
       unstable_getitem key (rho q) message = Raise (KeyError key)) /\
    (forall field,
       (d <- Binary64Range.calculate_metrics64 q ;; metric "rho" field d) =
       Ok (rho q)) /\
    (forall key field, ~ In key ["stable"; "rho"; "message"]%string ->
       (d <- Binary64Range.calculate_metrics64 q ;; metric key field d) =
       Raise (KeyError key)).
Proof.
  apply (calculate_metrics_unstable 120 30 4); vm_compute; congruence.
Defined.

(** X4.  At the boundary λ = c·μ the helper [_calculate_p0], called on
    its own, first evaluates the powers and factorials up to c; when
    these are within the binary64 range it raises [ZeroDivisionError]
    from [1 / (1 - rho)].  It is the stability test of
    [calculate_metrics] that keeps the helper from being called there. *)
Theorem _calculate_p0_at_boundary (lam mu : Q) (c : Z) :
  0 < mu -> (1 <= c)%Z -> lam == inject_Z c * mu ->
  Binary64Range.in_binary64_range lam mu c = true ->
  exists q,
    MMcQueue_init lam mu c = Ok q /\
    Binary64Range._calculate_p0_64 q = Raise ZeroDivisionError /\
    exists message,
      Binary64Range.calculate_metrics64 q = Ok (Unstable (rho q) message).
Proof.
  intros Hmu Hc Hload Hfits.
  assert (Hcap : 0 < inject_Z c * mu).
  { apply Qmult_lt_0_compat; [| exact Hmu].
    change 0 with (inject_Z 0). rewrite <- Zlt_Qlt. lia. }
  assert (Hci : 0 < inject_Z c)
    by (change 0 with (inject_Z 0); rewrite <- Zlt_Qlt; lia).
  assert (Hrho : Formula.rho lam mu c == 1).
  { unfold Formula.rho. rewrite Hload. field. split; lra. }
  exists (mkMMcQueue lam mu c (Formula.rho lam mu c)).
  split; [now apply MMcQueue_init_stable |].
  split.
  - rewrite _calculate_p0_64_in_range by (lia || assumption).
    unfold _calculate_p0. simpl.
    rewrite (comprehension_ok _ (Formula.term lam mu)).
    2:{ intros n Hn. apply in_range in Hn. apply p0_term_ok; [exact Hmu | lia]. }
    simpl. rewrite p0_term_ok by (assumption || lia). simpl.
    rewrite pydiv_zero by (rewrite Hrho; ring). reflexivity.
  - eexists. unfold Binary64Range.calculate_metrics64, is_stable. simpl.
    replace (Qltb (Formula.rho lam mu c) 1) with false; [reflexivity |].
    symmetry. apply Qltb_ge. rewrite Hrho. lra.
Qed.

(** X4 at λ = 120, μ = 30, c = 4. *)
Lemma _calculate_p0_at_boundary_witness :
  exists q,
    MMcQueue_init 120 30 4 = Ok q /\
    Binary64Range._calculate_p0_64 q = Raise ZeroDivisionError /\
    exists message,
      Binary64Range.calculate_metrics64 q = Ok (Unstable (rho q) message).
Proof.
  apply (_calculate_p0_at_boundary 120 30 4); vm_compute; congruence.
Defined.

Lemma term_nonneg (lam mu : Q) (n : Z) :
  0 <= lam -> 0 < mu -> (0 <= n)%Z -> 0 <= Formula.term lam mu n.
Proof.
  intros Hlam Hmu Hn. unfold Formula.term.
  apply Qle_shift_div_l; [now apply factorial_pos |].
  rewrite Qmult_0_l. apply Qpower_0_le.
  apply Qle_shift_div_l; [exact Hmu | lra].
Qed.

(** X5.  With a zero arrival rate (μ > 0, c ≥ 1) the configuration is
    constructed and counts as stable, but [calculate_metrics] does not
    return finite metrics: the queue wait [Wq = Lq / lam] is the
    division of zero by zero, a [nan] that raises nothing. *)
Theorem zero_arrival_rate_not_finite (mu : Q) (servers : Z) :
  0 < mu -> (1 <= servers)%Z ->
  exists q,
    MMcQueue_init 0 mu servers = Ok q /\
    is_stable q = true /\
    (exists p0, _calculate_p0 q = Ok p0 /\ p0 == 1) /\
    calculate_metrics q = NonFinite.
Proof.
  intros Hmu Hc.
  assert (Hcap : 0 < inject_Z servers * mu).
  { apply Qmult_lt_0_compat; [| exact Hmu].
    change 0 with (inject_Z 0). rewrite <- Zlt_Qlt. lia. }
  assert (Hci : 0 < inject_Z servers)
    by (change 0 with (inject_Z 0); rewrite <- Zlt_Qlt; lia).
  assert (Hrho : Formula.rho 0 mu servers == 0)
    by (unfold Formula.rho; field; split; lra).
  set (q := mkMMcQueue 0 mu servers (Formula.rho 0 mu servers)).
  assert (Hs : is_stable q = true)
    by (apply Qltb_lt; simpl; rewrite Hrho; reflexivity).
  assert (Hratio : 0 / mu == 0) by (field; lra).
  assert (Htail : forall n, (1 <= n)%Z -> Formula.term 0 mu n == 0).
  { intros n Hn. unfold Formula.term. rewrite Hratio.
    rewrite Qpower_0 by lia. field.
    pose proof (factorial_pos n ltac:(lia)). lra. }
  assert (Hsum : sum (map (Formula.term 0 mu) (range servers)) == 1).
  { rewrite (range_pos_head servers Hc). cbn [map]. unfold sum. simpl.
    assert (Hacc : forall xs acc,
              (forall n, In n xs -> (1 <= n)%Z) ->
              fold_left Qplus (map (Formula.term 0 mu) xs) acc == acc).
    { induction xs as [| n xs IH]; intros acc Hxs; simpl; [reflexivity |].
      rewrite IH by (intros m Hm; apply Hxs; now right).
      rewrite (Htail n) by (apply Hxs; now left). ring. }
    rewrite Hacc by (intros n Hn; apply in_range2 in Hn; lia).
    reflexivity. }
  assert (Hp0 : _calculate_p0 q = Ok (Formula.P0 0 mu servers)).
  { unfold _calculate_p0, q. cbn [c lambda_rate mu_rate rho].
    rewrite (comprehension_ok _ (Formula.term 0 mu)).
    2:{ intros n Hn. apply in_range in Hn.
        apply p0_term_ok; [exact Hmu | lia]. }
    cbn [bind]. rewrite p0_term_ok by (assumption || lia). cbn [bind].
    rewrite pydiv_ok by (rewrite Hrho; lra). cbn [bind].
    rewrite npdiv_ok; [reflexivity |].
    rewrite Hsum, (Htail servers Hc). lra. }
  assert (Hp0v : Formula.P0 0 mu servers == 1).
  { unfold Formula.P0. rewrite Hsum, (Htail servers Hc), Hrho. reflexivity. }
  exists q. split; [now apply MMcQueue_init_stable |].
  split; [exact Hs |]. split; [eauto |].
  unfold calculate_metrics. rewrite Hs, Hp0. cbn [negb bind].
  unfold q. cbn [c lambda_rate mu_rate rho].
  rewrite p0_term_ok by (assumption || lia). cbn [bind].
  rewrite pydiv_ok by (rewrite Hrho; lra). cbn [bind].
  rewrite npdiv_ok by (rewrite Hrho; lra). cbn [bind].
  reflexivity.
Qed.

(** X5 at μ = 30, c = 2. *)
Lemma zero_arrival_rate_not_finite_witness :
  exists q,
    MMcQueue_init 0 30 2 = Ok q /\
    is_stable q = true /\
    (exists p0, _calculate_p0 q = Ok p0 /\ p0 == 1) /\
    calculate_metrics q = NonFinite.
Proof.
  apply (zero_arrival_rate_not_finite 30 2); vm_compute; congruence.
Defined.

(* ================================================================== *)
(** * Further properties of the optimiser *)

Lemma first_min_at_first_min {A : Type} (cost : A -> Q) (xs : list A)
  (k : nat) (b : A) :
  first_min_at cost xs k b -> first_min cost xs b.
Proof.
  intros (Hk & Hbefore & Hall).
  destruct (nth_error_split xs k Hk) as (l1 & l2 & -> & Hlen).
  exists l1, l2. split; [reflexivity |]. split.
  - intros x Hx. apply In_nth_error in Hx. destruct Hx as [j Hj].
    assert (Hjk : (j < k)%nat).
    { rewrite <- Hlen. apply nth_error_Some. congruence. }
    apply (Hbefore j x Hjk). rewrite nth_error_app1; [exact Hj | lia].
  - intros x Hx. apply In_nth_error in Hx. destruct Hx as [j Hj].
    apply (Hall (List.length l1 + S j)%nat x).
    rewrite nth_error_app2 by lia.
    replace (List.length l1 + S j - List.length l1)%nat with (S j) by lia.
    exact Hj.
Qed.

(** Two marked positions of a list coincide, or one precedes the other. *)
Lemma split_compare {A : Type} (l1 l2 l3 l4 : list A) (a b : A) :
  l1 ++ a :: l2 = l3 ++ b :: l4 ->
  a = b \/ (In a l3 /\ In b l2) \/ (In b l1 /\ In a l4).
Proof.
  revert l3. induction l1 as [| y l1 IH]; intros [| x l3] Heq;
    simpl in Heq.
  - left. congruence.
  - injection Heq as -> ->. right. left. split; [now left |].
    apply in_or_app. right. now left.
  - injection Heq as -> <-. right. right. split; [now left |].
    apply in_or_app. right. now left.
  - injection Heq as -> Heq.
    destruct (IH l3 Heq) as [H | [[H1 H2] | [H1 H2]]].
    + now left.
    + right. left. split; [now right | exact H2].
    + right. right. split; [now right | exact H2].
Qed.

(** The first minimum of a list is unique. *)
Lemma first_min_unique {A : Type} (cost : A -> Q) (xs : list A) (a b : A) :
  first_min cost xs a -> first_min cost xs b -> a = b.
Proof.
  intros (l1 & l2 & -> & Ha1 & Ha2) (l3 & l4 & Heq & Hb1 & Hb2).
  destruct (split_compare _ _ _ _ _ _ Heq) as [H | [[H1 H2] | [H1 H2]]].
  - exact H.
  - pose proof (Hb1 a H1). pose proof (Ha2 b H2). lra.
  - pose proof (Ha1 b H1). pose proof (Hb2 a H2). lra.
Qed.

Lemma argmin_from_spec (xs pre : list Q) (b : Q) (bi : nat) :
  first_min_at (fun x => x) pre bi b ->
  exists b',
    first_min_at (fun x => x) (pre ++ xs)
      (argmin_from b bi (List.length pre) xs) b'.
Proof.
  revert pre b bi. induction xs as [| x xs IH]; intros pre b bi Hinv.
  - simpl. rewrite app_nil_r. now exists b.
  - simpl. destruct Hinv as (Hb & Hbefore & Hall).
    replace (pre ++ x :: xs) with ((pre ++ [x]) ++ xs)
      by (rewrite <- app_assoc; reflexivity).
    replace (S (List.length pre)) with (List.length (pre ++ [x]))
      by (rewrite length_app; simpl; lia).
    assert (Hbi : (bi < List.length pre)%nat)
      by (apply nth_error_Some; congruence).
    destruct (Qltb x b) eqn:E.
    + apply Qltb_lt in E. apply IH. split; [| split].
      * rewrite nth_error_app2 by lia.
        replace (List.length pre - List.length pre)%nat with 0%nat by lia.
        reflexivity.
      * intros j y Hj Hy. rewrite nth_error_app1 in Hy by lia.
        pose proof (Hall j y Hy). simpl in *. lra.
      * intros j y Hy.
        destruct (Nat.lt_ge_cases j (List.length pre)) as [Hlt | Hge].
        -- rewrite nth_error_app1 in Hy by lia.
           pose proof (Hall j y Hy). simpl in *. lra.
        -- rewrite nth_error_app2 in Hy by lia.
           destruct (j - List.length pre)%nat as [| n]; simpl in Hy.
           ++ injection Hy as <-. lra.
           ++ destruct n; discriminate.
    + apply Qltb_ge in E. apply IH. split; [| split].
      * rewrite nth_error_app1 by lia. exact Hb.
      * intros j y Hj Hy. rewrite nth_error_app1 in Hy by lia.
        now apply (Hbefore j y).
      * intros j y Hy.
        destruct (Nat.lt_ge_cases j (List.length pre)) as [Hlt | Hge].
        -- rewrite nth_error_app1 in Hy by lia. now apply (Hall j y).
        -- rewrite nth_error_app2 in Hy by lia.
           destruct (j - List.length pre)%nat as [| n]; simpl in Hy.
           ++ injection Hy as <-. exact E.
           ++ destruct n; discriminate.
Qed.

(** [np.argmin] returns the index of the first minimum. *)
Lemma argmin_spec (x : Q) (xs : list Q) :
  exists k b,
    argmin (x :: xs) = Ok k /\ first_min_at (fun y => y) (x :: xs) k b.
Proof.
  destruct (argmin_from_spec xs [x] x 0) as [b Hb].
  - split; [reflexivity |]. split.
    + intros j y Hj. lia.
    + intros j y Hy. destruct j as [| j]; simpl in Hy.
      * injection Hy as <-. simpl. lra.
      * destruct j; discriminate.
  - exists (argmin_from x 0 1 xs), b. split; [reflexivity | exact Hb].
Qed.

(** The first minimum of the mapped costs, read back on the keys. *)
Lemma first_min_at_map {A : Type} (cost : A -> Q) (xs : list A) (k : nat)
  (b : Q) :
  first_min_at (fun y => y) (map cost xs) k b ->
  exists a, nth_error xs k = Some a /\ b = cost a /\
            first_min_at cost xs k a.
Proof.
  intros (Hk & Hbefore & Hall).
  rewrite nth_error_map in Hk.
  destruct (nth_error xs k) as [a |] eqn:Ha; [| discriminate].
  injection Hk as <-. exists a. split; [reflexivity |].
  split; [reflexivity |]. split; [exact Ha |]. split.
  - intros j y Hj Hy. apply (Hbefore j (cost y) Hj).
    rewrite nth_error_map, Hy. reflexivity.
  - intros j y Hy. apply (Hall j (cost y)).
    rewrite nth_error_map, Hy. reflexivity.
Qed.

Section SensitivityRun.
Variables (lam mu cs cw : Q).
Hypothesis lam_pos : 0 < lam.
Hypothesis mu_pos : 0 < mu.

Let self := mkCostOptimizer lam mu cs cw.

Lemma sensitivity_body_pos (results : Sensitivity) (c : Z) :
  (1 <= c)%Z ->
  sensitivity_body self results c =
  Ok (SensitivitySpec.step lam mu cs cw results c).
Proof.
  intro Hc. unfold sensitivity_body, SensitivitySpec.step. simpl.
  rewrite MMcQueue_init_stable by assumption. simpl.
  unfold is_stable, OptimizerSpec.stable. simpl.
  destruct (Qltb (Formula.rho lam mu c) 1) eqn:E; simpl; [| reflexivity].
  apply Qltb_lt in E.
  rewrite calculate_metrics_stable by assumption. reflexivity.
Qed.

Lemma sensitivity_fold (xs seen : list Z) :
  fold_left (SensitivitySpec.step lam mu cs cw) xs
    (SensitivitySpec.table lam mu cs cw seen) =
  SensitivitySpec.table lam mu cs cw
    (seen ++ filter (OptimizerSpec.stable lam mu) xs).
Proof.
  revert seen. induction xs as [| x xs IH]; intro seen; simpl.
  - now rewrite app_nil_r.
  - unfold SensitivitySpec.step at 2.
    destruct (OptimizerSpec.stable lam mu x).
    + replace (seen ++ x :: filter (OptimizerSpec.stable lam mu) xs)
        with ((seen ++ [x]) ++ filter (OptimizerSpec.stable lam mu) xs)
        by (rewrite <- app_assoc; reflexivity).
      rewrite <- IH. f_equal.
      unfold SensitivitySpec.table. simpl.
      rewrite !map_app. reflexivity.
    + apply IH.
Qed.

(** The run of [sensitivity_analysis] on a range of positive counts. *)
Lemma sensitivity_run (lo hi : Z) :
  (1 <= lo)%Z ->
  let seen := filter (OptimizerSpec.stable lam mu) (range2 lo (hi + 1)) in
  let t := SensitivitySpec.table lam mu cs cw seen in
  match seen with
  | [] => sensitivity_analysis self (Some (lo, hi)) = Ok t
  | _ :: _ =>
      exists oc,
        first_min (OptimizerSpec.Zcost lam mu cs cw) seen oc /\
        sensitivity_analysis self (Some (lo, hi)) =
        Ok (mkSensitivity (c_values t) (total_costs t) (server_costs t)
              (waiting_costs t) (utilizations t) (wq_values t)
              (lq_values t) (Some oc)
              (Some (OptimizerSpec.Zcost lam mu cs cw oc)))
  end.
Proof.
  intros Hlo seen t.
  assert (Hloop :
    for_each (range2 lo (hi + 1)) (sensitivity_body self)
      (mkSensitivity [] [] [] [] [] [] [] None None) = Ok t).
  { rewrite (for_each_pure _ (SensitivitySpec.step lam mu cs cw)
               (fun c => (1 <= c)%Z)).
    - f_equal. apply (sensitivity_fold _ []).
    - intros s x Hx. now apply sensitivity_body_pos.
    - apply Forall_forall. intros x Hx. apply in_range2 in Hx. lia. }
  unfold sensitivity_analysis. cbn [bind]. rewrite Hloop. cbn [bind].
  subst t. destruct seen as [| c0 rest] eqn:Hseen.
  - reflexivity.
  - cbn [SensitivitySpec.table total_costs c_values map].
    destruct (argmin_spec (OptimizerSpec.Zcost lam mu cs cw c0)
                (map (OptimizerSpec.Zcost lam mu cs cw) rest))
      as (k & b & Hk & Hmin).
    change (OptimizerSpec.Zcost lam mu cs cw c0
            :: map (OptimizerSpec.Zcost lam mu cs cw) rest)
      with (map (OptimizerSpec.Zcost lam mu cs cw) (c0 :: rest)) in Hk, Hmin.
    destruct (first_min_at_map _ _ _ _ Hmin) as (oc & Hoc & -> & Hfm).
    exists oc. split; [now apply (first_min_at_first_min _ _ k) |].
    change (inject_Z c0 * cs + Formula.Lq lam mu c0 * cw
            :: map (fun c => inject_Z c * cs + Formula.Lq lam mu c * cw) rest)
      with (map (OptimizerSpec.Zcost lam mu cs cw) (c0 :: rest)).
    rewrite Hk. cbn [bind]. unfold item.
    change (c0 :: rest) with (c0 :: rest) in Hoc. rewrite Hoc.
    rewrite nth_error_map, Hoc. reflexivity.
Qed.
End SensitivityRun.

Lemma ceiling_ratio_pos (lam mu : Q) :
  0 < lam -> 0 < mu -> (1 <= Qceiling (lam / mu))%Z.
Proof.
  intros Hlam Hmu.
  pose proof (Qle_ceiling (lam / mu)) as Hceil.
  pose proof (Qdiv_pos lam mu Hlam Hmu) as Hratio.
  assert (H : inject_Z 0 < inject_Z (Qceiling (lam / mu)))
    by (change (inject_Z 0) with 0; lra).
  rewrite <- Zlt_Qlt in H. lia.
Qed.

Lemma inject_Z_pos (c : Z) : (1 <= c)%Z -> 0 < inject_Z c.
Proof.
  intro H. change 0 with (inject_Z 0). rewrite <- Zlt_Qlt. lia.
Qed.

(** Every run of [optimize] on valid rates returns a dictionary, and it
    is the success layout exactly when some count is feasible. *)
Lemma optimize_total (lam mu cs cw : Q) (c_min c_max : Z) (sla : option Q) :
  0 < lam -> 0 < mu ->
  exists r,
    optimize (mkCostOptimizer lam mu cs cw) c_min c_max sla = Ok r /\
    match r with
    | Infeasible _ =>
        OptimizerSpec.feasible_range lam mu sla c_min c_max = []
    | Optimal oc total _ _ _ rows _ =>
        first_min (OptimizerSpec.Zcost lam mu cs cw)
          (OptimizerSpec.feasible_range lam mu sla c_min c_max) oc /\
        total = Finite (OptimizerSpec.Zcost lam mu cs cw oc) /\
        rows = map (OptimizerSpec.row lam mu cs cw sla)
                 (OptimizerSpec.feasible_range lam mu sla c_min c_max)
    end.
Proof.
  intros Hlam Hmu.
  destruct (optimize_run lam mu cs cw c_min c_max sla Hlam Hmu)
    as (st & [Hres Hbest] & ->).
  destruct (best_c st) as [b |].
  - destruct Hbest as (Hcost & Hmet & Hmin). rewrite Hmet. simpl.
    eexists. split; [reflexivity |]. cbv beta iota. now repeat split.
  - destruct Hbest as (Hnil & _ & _).
    eexists. split; [reflexivity |]. exact Hnil.
Qed.

(** X6.  For valid rates and a count x such that the powers [(λ/μ)^n]
    and the factorials [n!] with [n <= ⌈x⌉] are within the binary64
    range, [objective_function] does not raise: a count whose ceiling is
    not positive, or whose queue is unstable, costs the sentinel [1e10];
    every other count costs
    [Z(⌈x⌉) = ⌈x⌉·serverCost + Lq(⌈x⌉)·waitingCost], so a fractional count
    is priced as the next integer. *)
Theorem objective_function_cases (lam mu cs cw x : Q) :
  0 < lam -> 0 < mu ->
  Binary64Range.in_binary64_range lam mu (Qceiling x) = true ->
  Binary64Range.objective_function64 (mkCostOptimizer lam mu cs cw) x =
  Ok (if (Qceiling x <=? 0)%Z then sentinel
      else if OptimizerSpec.stable lam mu (Qceiling x)
           then OptimizerSpec.Zcost lam mu cs cw (Qceiling x)
           else sentinel).
Proof.
  intros Hlam Hmu Hfits.
  rewrite objective_function64_in_range by exact Hfits.
  unfold objective_function, int_ceil.
  destruct (Qceiling x <=? 0)%Z eqn:E; [reflexivity |].
  apply Z.leb_gt in E. cbn [o_lambda_rate o_mu_rate].
  rewrite MMcQueue_init_stable by (try assumption; lia). cbn [bind].
  unfold is_stable, OptimizerSpec.stable. cbn [rho].
  destruct (Qltb (Formula.rho lam mu (Qceiling x)) 1) eqn:Es;
    [| reflexivity].
  apply Qltb_lt in Es. cbn [negb].
  rewrite calculate_metrics_stable by (try assumption; lia).
  reflexivity.
Qed.

(** X6 at λ = 120, μ = 30, costs 50 and 20 and the count 4.5, priced as
    five servers. *)
Lemma objective_function_cases_witness :
  Binary64Range.objective_function64 (mkCostOptimizer 120 30 50 20) (9 # 2)
  = Ok (if (Qceiling (9 # 2) <=? 0)%Z then sentinel
        else if OptimizerSpec.stable 120 30 (Qceiling (9 # 2))
             then OptimizerSpec.Zcost 120 30 50 20 (Qceiling (9 # 2))
             else sentinel).
Proof.
  apply (objective_function_cases 120 30 50 20 (9 # 2)); reflexivity.
Defined.

(** X7.  The search of [optimize] starts at ⌈λ/μ⌉+1, so the count
    ⌈λ/μ⌉ is never evaluated, although it is stable whenever λ/μ is not
    an integer.  If moreover its waiting cost is below the cost of one
    server, that count is strictly cheaper than the optimum [optimize]
    reports, whatever the bounds and the SLA, as long as the powers and
    factorials of the counts scanned are within the binary64 range. *)
Theorem optimize_skips_stable_ceiling (lam mu cs cw : Q) (c_min c_max : Z)
  (sla : option Q) :
  0 < lam -> 0 < mu ->
  (forall c, (Z.max c_min (Qceiling (lam / mu) + 1) <= c <= c_max)%Z ->
     Binary64Range.in_binary64_range lam mu c = true) ->
  lam < inject_Z (Qceiling (lam / mu)) * mu ->
  0 <= cw ->
  Formula.Lq lam mu (Qceiling (lam / mu)) * cw < cs ->
  Formula.rho lam mu (Qceiling (lam / mu)) < 1 /\
  exists r,
    Binary64Range.optimize64 (mkCostOptimizer lam mu cs cw) c_min c_max sla
    = Ok r /\
    match r with
    | Infeasible _ => True
    | Optimal oc total _ _ _ rows _ =>
        (Qceiling (lam / mu) < oc)%Z /\
        ~ In (Qceiling (lam / mu)) (map r_c rows) /\
        exists t,
          total = Finite t /\
          OptimizerSpec.Zcost lam mu cs cw (Qceiling (lam / mu)) < t
    end.
Proof.
  intros Hlam Hmu Hfits Hfrac Hcw Hcheap.
  rewrite (optimize64_in_range lam mu cs cw c_min c_max sla Hlam Hmu Hfits).
  set (c0 := Qceiling (lam / mu)) in *.
  assert (Hc0 : (1 <= c0)%Z) by now apply ceiling_ratio_pos.
  assert (Hcap : 0 < inject_Z c0 * mu)
    by (apply Qmult_lt_0_compat; [now apply inject_Z_pos | exact Hmu]).
  assert (Hrho : Formula.rho lam mu c0 < 1).
  { unfold Formula.rho. apply Qlt_shift_div_r; [exact Hcap |].
    now rewrite Qmult_1_l. }
  split; [exact Hrho |].
  destruct (optimize_total lam mu cs cw c_min c_max sla Hlam Hmu)
    as (r & Hr & Hshape).
  exists r. split; [exact Hr |].
  destruct r as [msg | oc total server waiting m rows sla']; [exact I |].
  destruct Hshape as (Hmin & -> & ->).
  apply first_min_in in Hmin. destruct Hmin as [Hin _].
  apply in_feasible_range in Hin. destruct Hin as (Hrange & Hstable & _).
  unfold OptimizerSpec.true_min in Hrange. fold c0 in Hrange.
  assert (Hoc : (c0 + 1 <= oc)%Z) by lia.
  split; [lia |]. split.
  - rewrite map_map. cbn [OptimizerSpec.row r_c]. rewrite map_id.
    intro Hin. apply in_feasible_range in Hin.
    unfold OptimizerSpec.true_min in Hin. fold c0 in Hin. lia.
  - eexists. split; [reflexivity |].
    destruct (formula_in_range lam mu c0 Hlam Hmu Hc0 Hrho)
      as (_ & _ & _ & _ & _ & Hlq0 & _).
    destruct (formula_in_range lam mu oc Hlam Hmu ltac:(lia) Hstable)
      as (_ & _ & _ & _ & _ & Hlq & _).
    assert (Hcs : 0 < cs).
    { pose proof (Qmult_le_0_compat _ _ (Qlt_le_weak _ _ Hlq0) Hcw). lra. }
    assert (Hinj : inject_Z c0 + 1 <= inject_Z oc).
    { change 1 with (inject_Z 1). rewrite <- inject_Z_plus.
      rewrite <- Zle_Qle. exact Hoc. }
    assert (Hserver : (inject_Z c0 + 1) * cs <= inject_Z oc * cs)
      by (apply Qmult_le_compat_r; [exact Hinj | lra]).
    pose proof (Qmult_le_0_compat _ _ (Qlt_le_weak _ _ Hlq) Hcw) as Hw.
    unfold OptimizerSpec.Zcost. fold c0. lra.
Qed.

(** X7 at λ = 100, μ = 30, costs 50 and 1: four servers are stable
    (ρ = 5/6) and cheaper than anything the default search evaluates. *)
Lemma optimize_skips_stable_ceiling_witness :
  Formula.rho 100 30 (Qceiling (100 / 30)) < 1 /\
  exists r,
    Binary64Range.optimize64 (mkCostOptimizer 100 30 50 1) 1 50 None
    = Ok r /\
    match r with
    | Infeasible _ => True
    | Optimal oc total _ _ _ rows _ =>
        (Qceiling (100 / 30) < oc)%Z /\
        ~ In (Qceiling (100 / 30)) (map r_c rows) /\
        exists t,
          total = Finite t /\
          OptimizerSpec.Zcost 100 30 50 1 (Qceiling (100 / 30)) < t
    end.
Proof.
  apply (optimize_skips_stable_ceiling 100 30 50 1 1 50 None);
    [reflexivity | reflexivity | | reflexivity | discriminate
    | vm_compute; reflexivity].
  intros c Hc. apply (in_binary64_range_le 100 30 50); [lia |].
  vm_compute. reflexivity.
Defined.

Lemma sensitivity_default_range (lam mu cs cw : Q) :
  0 < mu ->
  sensitivity_analysis (mkCostOptimizer lam mu cs cw) None =
  sensitivity_analysis (mkCostOptimizer lam mu cs cw)
    (Some (OptimizerSpec.sensitivity_range lam mu None)).
Proof.
  intro Hmu. unfold sensitivity_analysis. cbn [o_lambda_rate o_mu_rate].
  rewrite pydiv_ok by lra. reflexivity.
Qed.

Lemma sensitivity_explicit_range (lam mu cs cw : Q)
  (c_range : option (Z * Z)) :
  0 < mu ->
  sensitivity_analysis (mkCostOptimizer lam mu cs cw) c_range =
  sensitivity_analysis (mkCostOptimizer lam mu cs cw)
    (Some (fst (OptimizerSpec.sensitivity_range lam mu c_range),
           snd (OptimizerSpec.sensitivity_range lam mu c_range))).
Proof.
  intro Hmu. destruct c_range as [[lo hi] |].
  - reflexivity.
  - now apply sensitivity_default_range.
Qed.

Lemma in_stable_range (lam mu : Q) (lo hi c : Z) :
  In c (filter (OptimizerSpec.stable lam mu) (range2 lo (hi + 1))) <->
  (lo <= c <= hi)%Z /\ Formula.rho lam mu c < 1.
Proof.
  rewrite filter_In, in_range2. unfold OptimizerSpec.stable.
  rewrite Qltb_lt. intuition lia.
Qed.

(** X8.  For valid rates and a range of positive server counts (the
    caller's, or the automatic one) whose powers [(λ/μ)^n] and factorials
    [n!] are within the binary64 range, [sensitivity_analysis] returns a
    table whose seven lists are aligned: the stable counts of the range
    in ascending order, and for each its total cost
    [c·serverCost + Lq(c)·waitingCost], the two parts of that cost, ρ, Wq
    and Lq.  The keys ['optimal_c'] and ['optimal_cost'] are present
    exactly when the table is not empty, and then name the smallest count
    of minimal total cost and that cost. *)
Theorem sensitivity_analysis_table (lam mu cs cw : Q)
  (c_range : option (Z * Z)) :
  0 < lam -> 0 < mu ->
  (1 <= fst (OptimizerSpec.sensitivity_range lam mu c_range))%Z ->
  (forall c,
     (fst (OptimizerSpec.sensitivity_range lam mu c_range) <= c <=
      snd (OptimizerSpec.sensitivity_range lam mu c_range))%Z ->
     Binary64Range.in_binary64_range lam mu c = true) ->
  exists r,
    Binary64Range.sensitivity_analysis64 (mkCostOptimizer lam mu cs cw)
      c_range = Ok r /\
    StronglySorted Z.lt (c_values r) /\
    (forall c, In c (c_values r) <->
       (fst (OptimizerSpec.sensitivity_range lam mu c_range) <= c <=
        snd (OptimizerSpec.sensitivity_range lam mu c_range))%Z /\
       Formula.rho lam mu c < 1) /\
    total_costs r = map (OptimizerSpec.Zcost lam mu cs cw) (c_values r) /\
    server_costs r = map (fun c => inject_Z c * cs) (c_values r) /\
    waiting_costs r =
      map (fun c => Formula.Lq lam mu c * cw) (c_values r) /\
    utilizations r = map (Formula.rho lam mu) (c_values r) /\
    wq_values r = map (Formula.Wq lam mu) (c_values r) /\
    lq_values r = map (Formula.Lq lam mu) (c_values r) /\
    match optimal_c r, optimal_cost r with
    | None, None => c_values r = []
    | Some oc, Some t =>
        In oc (c_values r) /\
        t = OptimizerSpec.Zcost lam mu cs cw oc /\
        (forall c, In c (c_values r) ->
           OptimizerSpec.Zcost lam mu cs cw oc <=
           OptimizerSpec.Zcost lam mu cs cw c) /\
        (forall c, In c (c_values r) -> (c < oc)%Z ->
           OptimizerSpec.Zcost lam mu cs cw oc <
           OptimizerSpec.Zcost lam mu cs cw c)
    | _, _ => False
    end.
Proof.
  intros Hlam Hmu Hlo Hfits.
  rewrite sensitivity_analysis64_in_range
    by (exact Hmu || (intros c Hc; split; [lia | now apply Hfits])).
  rewrite sensitivity_explicit_range by exact Hmu.
  set (lo := fst (OptimizerSpec.sensitivity_range lam mu c_range)) in *.
  set (hi := snd (OptimizerSpec.sensitivity_range lam mu c_range)) in *.
  pose proof (sensitivity_run lam mu cs cw Hlam Hmu lo hi Hlo) as Hrun.
  cbv zeta in Hrun.
  assert (Hsorted : StronglySorted Z.lt
            (filter (OptimizerSpec.stable lam mu) (range2 lo (hi + 1))))
    by (apply StronglySorted_filter, range2_sorted).
  pose proof (in_stable_range lam mu lo hi) as Hin.
  destruct (filter (OptimizerSpec.stable lam mu) (range2 lo (hi + 1)))
    as [| c0 rest] eqn:Hseen.
  - eexists. split; [exact Hrun |]. cbn.
    split; [constructor |]. split; [exact Hin |].
    now repeat split.
  - destruct Hrun as (oc & Hmin & Hrun).
    eexists. split; [exact Hrun |].
    destruct (first_min_smallest _ _ _ Hsorted Hmin) as (H1 & H2 & H3).
    cbn [c_values total_costs server_costs waiting_costs utilizations
         wq_values lq_values optimal_c optimal_cost SensitivitySpec.table].
    split; [exact Hsorted |]. split; [exact Hin |].
    do 6 (split; [reflexivity |]).
    split; [exact H1 |]. split; [reflexivity |].
    split; assumption.
Qed.

(** X8 at λ = 120, μ = 30, costs 50 and 20, over the range [1, 8]. *)
Lemma sensitivity_analysis_table_witness :
  exists r,
    Binary64Range.sensitivity_analysis64 (mkCostOptimizer 120 30 50 20)
      (Some (1, 8)%Z) = Ok r /\
    StronglySorted Z.lt (c_values r) /\
    (forall c, In c (c_values r) <->
       (fst (OptimizerSpec.sensitivity_range 120 30 (Some (1, 8)%Z)) <= c <=
        snd (OptimizerSpec.sensitivity_range 120 30 (Some (1, 8)%Z)))%Z /\
       Formula.rho 120 30 c < 1) /\
    total_costs r = map (OptimizerSpec.Zcost 120 30 50 20) (c_values r) /\
    server_costs r = map (fun c => inject_Z c * 50) (c_values r) /\
    waiting_costs r =
      map (fun c => Formula.Lq 120 30 c * 20) (c_values r) /\
    utilizations r = map (Formula.rho 120 30) (c_values r) /\
    wq_values r = map (Formula.Wq 120 30) (c_values r) /\
    lq_values r = map (Formula.Lq 120 30) (c_values r) /\
    match optimal_c r, optimal_cost r with
    | None, None => c_values r = []
    | Some oc, Some t =>
        In oc (c_values r) /\
        t = OptimizerSpec.Zcost 120 30 50 20 oc /\
        (forall c, In c (c_values r) ->
           OptimizerSpec.Zcost 120 30 50 20 oc <=
           OptimizerSpec.Zcost 120 30 50 20 c) /\
        (forall c, In c (c_values r) -> (c < oc)%Z ->
           OptimizerSpec.Zcost 120 30 50 20 oc <
           OptimizerSpec.Zcost 120 30 50 20 c)
    | _, _ => False
    end.
Proof.
  apply (sensitivity_analysis_table 120 30 50 20 (Some (1, 8)%Z));
    [reflexivity | reflexivity | vm_compute; congruence |].
  intros c Hc. apply (in_binary64_range_le 120 30 8); [exact (proj2 Hc) |].
  vm_compute. reflexivity.
Defined.

(** X9.  On a range that starts at or above ⌈λ/μ⌉+1 (the automatic range
    does) and whose powers and factorials are within the binary64 range,
    [sensitivity_analysis] and [optimize] without SLA report the same
    thing: the same counts with the same costs, Lq, Wq and ρ in the
    same order, and the same optimum and optimal cost; one has no optimum
    exactly when the other fails. *)
Theorem sensitivity_agrees_with_optimize (lam mu cs cw : Q)
  (c_range : option (Z * Z)) :
  0 < lam -> 0 < mu ->
  (Qceiling (lam / mu) + 1 <=
   fst (OptimizerSpec.sensitivity_range lam mu c_range))%Z ->
  (forall c,
     (fst (OptimizerSpec.sensitivity_range lam mu c_range) <= c <=
      snd (OptimizerSpec.sensitivity_range lam mu c_range))%Z ->
     Binary64Range.in_binary64_range lam mu c = true) ->
  exists r s,
    Binary64Range.optimize64 (mkCostOptimizer lam mu cs cw)
      (fst (OptimizerSpec.sensitivity_range lam mu c_range))
      (snd (OptimizerSpec.sensitivity_range lam mu c_range)) None = Ok r /\
    Binary64Range.sensitivity_analysis64 (mkCostOptimizer lam mu cs cw)
      c_range = Ok s /\
    match r with
    | Infeasible _ =>
        c_values s = [] /\ optimal_c s = None /\ optimal_cost s = None
    | Optimal oc total _ _ _ rows _ =>
        optimal_c s = Some oc /\
        (exists t, total = Finite t /\ optimal_cost s = Some t) /\
        map r_c rows = c_values s /\
        map r_cost rows = total_costs s /\
        map r_Lq rows = lq_values s /\
        map r_Wq rows = wq_values s /\
        map r_rho rows = utilizations s
    end.
Proof.
  intros Hlam Hmu Hlo Hfits.
  pose proof (ceiling_ratio_pos lam mu Hlam Hmu) as Hceil.
  rewrite sensitivity_analysis64_in_range
    by (exact Hmu || (intros c Hc; split; [lia | now apply Hfits])).
  rewrite optimize64_in_range
    by (assumption || (intros c Hc; apply Hfits; lia)).
  rewrite sensitivity_explicit_range by exact Hmu.
  set (lo := fst (OptimizerSpec.sensitivity_range lam mu c_range)) in *.
  set (hi := snd (OptimizerSpec.sensitivity_range lam mu c_range)) in *.
  pose proof (sensitivity_run lam mu cs cw Hlam Hmu lo hi ltac:(lia))
    as Hrun.
  cbv zeta in Hrun.
  destruct (optimize_total lam mu cs cw lo hi None Hlam Hmu)
    as (r & Hr & Hshape).
  assert (Hsame : OptimizerSpec.feasible_range lam mu None lo hi =
                  filter (OptimizerSpec.stable lam mu) (range2 lo (hi + 1))).
  { unfold OptimizerSpec.feasible_range, OptimizerSpec.true_min.
    rewrite Z.max_l by lia. apply filter_ext. intro c.
    unfold OptimizerSpec.feasible, OptimizerSpec.within_sla.
    apply andb_true_r. }
  rewrite Hsame in Hshape.
  exists r.
  destruct (filter (OptimizerSpec.stable lam mu) (range2 lo (hi + 1)))
    as [| c0 rest] eqn:Hseen.
  - eexists. split; [exact Hr |]. split; [exact Hrun |].
    destruct r as [msg | oc total server waiting m rows sla'].
    + now repeat split.
    + destruct Hshape as ((before & after & Hnil & _) & _).
      now destruct before.
  - destruct Hrun as (oc' & Hmin' & Hrun).
    eexists. split; [exact Hr |]. split; [exact Hrun |].
    destruct r as [msg | oc total server waiting m rows sla'];
      [discriminate |].
    destruct Hshape as (Hmin & -> & ->).
    rewrite (first_min_unique _ _ _ _ Hmin Hmin').
    cbn [c_values total_costs server_costs waiting_costs utilizations
         wq_values lq_values optimal_c optimal_cost SensitivitySpec.table].
    rewrite !map_map. cbn [OptimizerSpec.row r_c r_cost r_Lq r_Wq r_rho].
    rewrite map_id.
    split; [reflexivity |]. split; [now eexists |].
    now repeat split.
Qed.

(** X9 at λ = 120, μ = 30, costs 50 and 20, with the automatic range. *)
Lemma sensitivity_agrees_with_optimize_witness :
  exists r s,
    Binary64Range.optimize64 (mkCostOptimizer 120 30 50 20)
      (fst (OptimizerSpec.sensitivity_range 120 30 None))
      (snd (OptimizerSpec.sensitivity_range 120 30 None)) None = Ok r /\
    Binary64Range.sensitivity_analysis64 (mkCostOptimizer 120 30 50 20) None
    = Ok s /\
    match r with
    | Infeasible _ =>
        c_values s = [] /\ optimal_c s = None /\ optimal_cost s = None
    | Optimal oc total _ _ _ rows _ =>
        optimal_c s = Some oc /\
        (exists t, total = Finite t /\ optimal_cost s = Some t) /\
        map r_c rows = c_values s /\
        map r_cost rows = total_costs s /\
        map r_Lq rows = lq_values s /\
        map r_Wq rows = wq_values s /\
        map r_rho rows = utilizations s
    end.
Proof.
  apply (sensitivity_agrees_with_optimize 120 30 50 20 None);
    [reflexivity | reflexivity | vm_compute; congruence |].
  intros c Hc. apply (in_binary64_range_le 120 30 25); [exact (proj2 Hc) |].
  vm_compute. reflexivity.
Defined.

Lemma range2_head (a b : Z) :
  (a < b)%Z -> range2 a b = a :: range2 (a + 1) b.
Proof.
  intro H. unfold range2.
  replace (Z.to_nat (b - a)) with (S (Z.to_nat (b - (a + 1)))) by lia.
  simpl. f_equal; [lia |]. rewrite <- seq_shift, map_map.
  apply map_ext. intro i. lia.
Qed.

Lemma MMcQueue_init_zero_capacity (lam mu : Q) (c : Z) :
  c = 0%Z \/ mu == 0 -> MMcQueue_init lam mu c = Raise ZeroDivisionError.
Proof.
  intro H. unfold MMcQueue_init.
  rewrite pydiv_zero by (apply capacity_zero; exact H). reflexivity.
Qed.

Lemma for_each_app {S A : Type} (body : S -> A -> res S) (xs ys : list A)
  (s : S) :
  for_each (xs ++ ys) body s =
  (s' <- for_each xs body s ;; for_each ys body s').
Proof.
  revert s. induction xs as [| x xs IH]; intro s; simpl; [reflexivity |].
  destruct (body s x); simpl; auto.
Qed.

(** X10.  [optimize] does not evaluate counts whose mean wait exceeds the
    SLA: when the powers and factorials of the counts scanned are within
    the binary64 range, the flag ['meets_sla'] is true in every row of
    ['all_results'], every row is stable, and every row's Wq is within the
    SLA. *)
Theorem optimize_rows_meet_sla (lam mu cs cw : Q) (c_min c_max : Z)
  (sla : option Q) :
  0 < lam -> 0 < mu ->
  (forall c, (Z.max c_min (Qceiling (lam / mu) + 1) <= c <= c_max)%Z ->
     Binary64Range.in_binary64_range lam mu c = true) ->
  exists r,
    Binary64Range.optimize64 (mkCostOptimizer lam mu cs cw) c_min c_max sla
    = Ok r /\
    match r with
    | Infeasible _ => True
    | Optimal _ _ _ _ _ rows _ =>
        Forall (fun row =>
                  r_meets_sla row = true /\
                  0 < r_rho row < 1 /\
                  forall s, sla = Some s -> r_Wq row <= s) rows
    end.
Proof.
  intros Hlam Hmu Hfits.
  rewrite (optimize64_in_range lam mu cs cw c_min c_max sla Hlam Hmu Hfits).
  destruct (optimize_total lam mu cs cw c_min c_max sla Hlam Hmu)
    as (r & Hr & Hshape).
  exists r. split; [exact Hr |].
  destruct r as [msg | oc total server waiting m rows sla']; [exact I |].
  destruct Hshape as (_ & _ & ->).
  apply Forall_forall. intros row Hrow. apply in_map_iff in Hrow.
  destruct Hrow as (c & <- & Hc). apply in_feasible_range in Hc.
  destruct Hc as (Hrange & Hstable & Hsla).
  pose proof (ceiling_ratio_pos lam mu Hlam Hmu) as Hceil.
  unfold OptimizerSpec.true_min in Hrange.
  destruct (formula_in_range lam mu c Hlam Hmu ltac:(lia) Hstable)
    as (Hrho & _).
  cbn [OptimizerSpec.row r_meets_sla r_rho r_Wq].
  split.
  - destruct sla as [s |]; [| reflexivity].
    destruct (truthy (Some s)); [| reflexivity].
    apply Qle_bool_iff. now apply Hsla.
  - split; [split; assumption | exact Hsla].
Qed.

(** X10 at λ = 120, μ = 30, costs 50 and 20, range [5, 15] and an SLA of
    0.005 hours. *)
Lemma optimize_rows_meet_sla_witness :
  exists r,
    Binary64Range.optimize64 (mkCostOptimizer 120 30 50 20) 5 15
      (Some (5 # 1000)) = Ok r /\
    match r with
    | Infeasible _ => True
    | Optimal _ _ _ _ _ rows _ =>
        Forall (fun row =>
                  r_meets_sla row = true /\
                  0 < r_rho row < 1 /\
                  forall s, Some (5 # 1000) = Some s -> r_Wq row <= s) rows
    end.
Proof.
  apply (optimize_rows_meet_sla 120 30 50 20 5 15 (Some (5 # 1000)));
    [reflexivity | reflexivity |].
  intros c Hc. apply (in_binary64_range_le 120 30 15); [lia |].
  vm_compute. reflexivity.
Defined.

(** X11.  A negative SLA threshold can never be met, because the mean
    wait of a queue is not negative: for valid rates, and powers and
    factorials within the binary64 range, [optimize] then returns the
    failure dictionary, whatever the costs and the bounds. *)
Theorem optimize_negative_sla (lam mu cs cw s : Q) (c_min c_max : Z) :
  0 < lam -> 0 < mu -> s < 0 ->
  (forall c, (Z.max c_min (Qceiling (lam / mu) + 1) <= c <= c_max)%Z ->
     Binary64Range.in_binary64_range lam mu c = true) ->
  Binary64Range.optimize64 (mkCostOptimizer lam mu cs cw) c_min c_max
    (Some s) =
  Ok (Infeasible "No se encontró solución factible").
Proof.
  intros Hlam Hmu Hs Hfits.
  rewrite (optimize64_in_range lam mu cs cw c_min c_max (Some s)
             Hlam Hmu Hfits).
  destruct (optimize_run lam mu cs cw c_min c_max (Some s) Hlam Hmu)
    as (st & [Hres Hbest] & ->).
  destruct (best_c st) as [b |]; [| reflexivity].
  exfalso. destruct Hbest as (_ & _ & Hmin).
  apply first_min_in in Hmin. destruct Hmin as [Hin _].
  apply in_feasible_range in Hin. destruct Hin as (Hrange & Hstable & Hsla).
  pose proof (ceiling_ratio_pos lam mu Hlam Hmu) as Hceil.
  unfold OptimizerSpec.true_min in Hrange.
  destruct (formula_in_range lam mu b Hlam Hmu ltac:(lia) Hstable)
    as (_ & _ & _ & _ & _ & _ & _ & Hwq & _).
  pose proof (Hsla s eq_refl). lra.
Qed.

(** X11 at λ = 120, μ = 30 and an SLA of minus one hour. *)
Lemma optimize_negative_sla_witness :
  Binary64Range.optimize64 (mkCostOptimizer 120 30 50 20) 1 50 (Some (-1)) =
  Ok (Infeasible "No se encontró solución factible").
Proof.
  apply (optimize_negative_sla 120 30 50 20 (-1) 1 50);
    [reflexivity | reflexivity | reflexivity |].
  intros c Hc. apply (in_binary64_range_le 120 30 50); [lia |].
  vm_compute. reflexivity.
Defined.

(** X12.  A service rate of zero makes every entry point of the
    optimiser raise [ZeroDivisionError]: [optimize] and the automatic
    range of [sensitivity_analysis] from [lambda_rate / mu_rate], an
    explicit non-empty range, [objective_function] on a positive count
    and [compare_scenarios] on a first complete scenario from the
    utilisation [lambda / (c·mu)].  Only [objective_function] on a
    non-positive count returns (the sentinel). *)
Theorem zero_service_rate_raises (self : CostOptimizer) :
  o_mu_rate self == 0 ->
  (forall c_min c_max sla,
     optimize self c_min c_max sla = Raise ZeroDivisionError) /\
  sensitivity_analysis self None = Raise ZeroDivisionError /\
  (forall lo hi, (lo <= hi)%Z ->
     sensitivity_analysis self (Some (lo, hi)) = Raise ZeroDivisionError) /\
  (forall x, (1 <= Qceiling x)%Z ->
     objective_function self x = Raise ZeroDivisionError) /\
  (forall x, (Qceiling x <= 0)%Z ->
     objective_function self x = Ok sentinel) /\
  (forall spec rest,
     compare_scenarios self (scenario_of spec :: rest) =
     Raise ZeroDivisionError).
Proof.
  intro Hmu. repeat split.
  - intros c_min c_max sla. unfold optimize.
    now rewrite pydiv_zero by exact Hmu.
  - unfold sensitivity_analysis. now rewrite pydiv_zero by exact Hmu.
  - intros lo hi Hle. unfold sensitivity_analysis. cbn [bind].
    rewrite range2_head by lia. cbn [for_each].
    unfold sensitivity_body.
    rewrite MMcQueue_init_zero_capacity by (right; exact Hmu).
    reflexivity.
  - intros x Hx. unfold objective_function, int_ceil.
    replace (Qceiling x <=? 0)%Z with false
      by (symmetry; apply Z.leb_gt; lia).
    rewrite MMcQueue_init_zero_capacity by (right; exact Hmu).
    reflexivity.
  - intros x Hx. unfold objective_function, int_ceil.
    replace (Qceiling x <=? 0)%Z with true
      by (symmetry; apply Z.leb_le; lia).
    reflexivity.
  - intros [[name cost_s] cost_w] rest.
    unfold compare_scenarios. cbn [for_each scenario_of].
    unfold compare_body. cbn [sc_cost_server sc_cost_waiting subscript bind].
    unfold optimize. cbn [o_lambda_rate o_mu_rate].
    now rewrite pydiv_zero by exact Hmu.
Qed.

(** X12 at λ = 120, μ = 0. *)
Lemma zero_service_rate_raises_witness :
  (forall c_min c_max sla,
     optimize (mkCostOptimizer 120 0 50 20) c_min c_max sla =
     Raise ZeroDivisionError) /\
  sensitivity_analysis (mkCostOptimizer 120 0 50 20) None =
    Raise ZeroDivisionError /\
  (forall lo hi, (lo <= hi)%Z ->
     sensitivity_analysis (mkCostOptimizer 120 0 50 20) (Some (lo, hi)) =
     Raise ZeroDivisionError) /\
  (forall x, (1 <= Qceiling x)%Z ->
     objective_function (mkCostOptimizer 120 0 50 20) x =
     Raise ZeroDivisionError) /\
  (forall x, (Qceiling x <= 0)%Z ->
     objective_function (mkCostOptimizer 120 0 50 20) x = Ok sentinel) /\
  (forall spec rest,
     compare_scenarios (mkCostOptimizer 120 0 50 20)
       (scenario_of spec :: rest) =
     Raise ZeroDivisionError).
Proof.
  apply (zero_service_rate_raises (mkCostOptimizer 120 0 50 20)).
  reflexivity.
Defined.

(** X13.  A sensitivity range that starts at zero servers raises
    [ZeroDivisionError] on its first count, whatever the rates: the
    queue constructor divides by [c·mu].  ([optimize] never reaches a
    count of zero, because it raises its lower bound to ⌈λ/μ⌉+1.) *)
Theorem sensitivity_analysis_from_zero (self : CostOptimizer) (hi : Z) :
  (0 <= hi)%Z ->
  sensitivity_analysis self (Some (0, hi)%Z) = Raise ZeroDivisionError.
Proof.
  intro Hhi. unfold sensitivity_analysis. cbn [bind].
  rewrite range2_head by lia. cbn [for_each].
  unfold sensitivity_body.
  rewrite MMcQueue_init_zero_capacity by now left.
  reflexivity.
Qed.

(** X13 at λ = 120, μ = 30 and the range [0, 10]. *)
Lemma sensitivity_analysis_from_zero_witness :
  sensitivity_analysis (mkCostOptimizer 120 30 50 20) (Some (0, 10)%Z) =
  Raise ZeroDivisionError.
Proof.
  apply (sensitivity_analysis_from_zero (mkCostOptimizer 120 30 50 20) 10).
  lia.
Defined.

(** With the default bounds and no SLA, [optimize] succeeds exactly when
    ⌈λ/μ⌉+1 does not exceed 50. *)
Lemma optimize_default_success (lam mu cs cw : Q) :
  0 < lam -> 0 < mu ->
  exists r,
    optimize (mkCostOptimizer lam mu cs cw) 1 50 None = Ok r /\
    success r = (Qceiling (lam / mu) + 1 <=? 50)%Z.
Proof.
  intros Hlam Hmu.
  pose proof (ceiling_ratio_pos lam mu Hlam Hmu) as Hceil.
  destruct (optimize_total lam mu cs cw 1 50 None Hlam Hmu)
    as (r & Hr & Hshape).
  exists r. split; [exact Hr |].
  destruct r as [msg | oc total server waiting m rows sla']; simpl.
  - symmetry. apply Z.leb_gt.
    destruct (Z.lt_ge_cases 50 (Qceiling (lam / mu) + 1)) as [H | H];
      [exact H | exfalso].
    assert (Hin : In (Qceiling (lam / mu) + 1)%Z
                    (OptimizerSpec.feasible_range lam mu None 1 50)).
    { apply in_feasible_range. unfold OptimizerSpec.true_min.
      split; [lia |]. split; [| discriminate].
      apply (above_threshold lam mu Hlam Hmu). lia. }
    rewrite Hshape in Hin. exact Hin.
  - symmetry. apply Z.leb_le.
    destruct Hshape as (Hmin & _). apply first_min_in in Hmin.
    destruct Hmin as [Hin _]. apply in_feasible_range in Hin.
    unfold OptimizerSpec.true_min in Hin. lia.
Qed.

(** The loop of [compare_scenarios] on complete scenarios returns. *)
Lemma compare_scenarios_complete (lam mu cs0 cw0 : Q)
  (specs : list (string * Q * Q)) :
  0 < lam -> 0 < mu ->
  exists results,
    compare_scenarios (mkCostOptimizer lam mu cs0 cw0)
      (map scenario_of specs) = Ok results.
Proof.
  intros Hlam Hmu. unfold compare_scenarios. generalize (@nil ScenarioResult).
  induction specs as [| [[name cost_s] cost_w] specs IH]; intro acc.
  - now exists acc.
  - destruct (optimize_default_success lam mu cost_s cost_w Hlam Hmu)
      as (r & Hr & _).
    cbn [map for_each scenario_of]. unfold compare_body at 1.
    cbn [sc_cost_server sc_cost_waiting sc_name subscript bind
         o_lambda_rate o_mu_rate].
    rewrite Hr. cbn [bind]. apply IH.
Qed.

(** X14.  [compare_scenarios] on complete scenario dictionaries and valid
    rates returns one result per scenario, in the order given; each is
    what [optimize], with its default bounds 1 and 50 and no SLA, returns
    for the rates of the optimiser and the costs of that scenario, tagged
    with the scenario's name.  The optimiser's own costs play no part,
    and all scenarios succeed or fail together: they succeed exactly when
    ⌈λ/μ⌉+1 does not exceed 50. *)
Theorem compare_scenarios_spec (lam mu cs0 cw0 : Q)
  (specs : list (string * Q * Q)) :
  0 < lam -> 0 < mu ->
  exists results,
    compare_scenarios (mkCostOptimizer lam mu cs0 cw0)
      (map scenario_of specs) = Ok results /\
    Forall2 (fun spec r =>
               scenario_name r = fst (fst spec) /\
               optimize (mkCostOptimizer lam mu (snd (fst spec)) (snd spec))
                 1 50 None = Ok (opt_result r) /\
               success (opt_result r) =
                 (Qceiling (lam / mu) + 1 <=? 50)%Z)
            specs results.
Proof.
  intros Hlam Hmu. unfold compare_scenarios.
  assert (Hgen : forall acc,
            exists results,
              for_each (map scenario_of specs)
                (compare_body (mkCostOptimizer lam mu cs0 cw0)) acc =
              Ok (acc ++ results) /\
              Forall2 (fun spec r =>
                scenario_name r = fst (fst spec) /\
                optimize (mkCostOptimizer lam mu (snd (fst spec)) (snd spec))
                  1 50 None = Ok (opt_result r) /\
                success (opt_result r) =
                  (Qceiling (lam / mu) + 1 <=? 50)%Z)
              specs results).
  { induction specs as [| [[name cost_s] cost_w] specs IH]; intro acc.
    - exists []. split; [simpl; now rewrite app_nil_r | constructor].
    - destruct (optimize_default_success lam mu cost_s cost_w Hlam Hmu)
        as (r & Hr & Hsucc).
      destruct (IH (acc ++ [mkScenarioResult r name])) as (rest & Hrest & Hall).
      exists (mkScenarioResult r name :: rest). split.
      + cbn [map for_each scenario_of]. unfold compare_body at 1.
        cbn [sc_cost_server sc_cost_waiting sc_name subscript bind
             o_lambda_rate o_mu_rate].
        rewrite Hr. cbn [bind]. rewrite Hrest.
        now rewrite <- app_assoc.
      + constructor; [| exact Hall]. now repeat split. }
  destruct (Hgen []) as (results & Hrun & Hall).
  exists results. split; assumption.
Qed.

(** X14 at λ = 120, μ = 30 with two scenarios. *)
Lemma compare_scenarios_spec_witness :
  exists results,
    compare_scenarios (mkCostOptimizer 120 30 50 20)
      (map scenario_of [("bajo"%string, 30, 20); ("alto"%string, 80, 10)])
      = Ok results /\
    Forall2 (fun spec r =>
               scenario_name r = fst (fst spec) /\
               optimize (mkCostOptimizer 120 30 (snd (fst spec)) (snd spec))
                 1 50 None = Ok (opt_result r) /\
               success (opt_result r) =
                 (Qceiling (120 / 30) + 1 <=? 50)%Z)
            [("bajo"%string, 30, 20); ("alto"%string, 80, 10)] results.
Proof.
  apply (compare_scenarios_spec 120 30 50 20
           [("bajo"%string, 30, 20); ("alto"%string, 80, 10)]);
    reflexivity.
Defined.

(** X15.  A scenario dictionary that lacks one of its keys makes
    [compare_scenarios] raise [KeyError], and the results of the
    scenarios before it are lost.  The costs are read before the
    optimisation and the name after it: the error names
    ['cost_server'], else ['cost_waiting'], else ['name']. *)
Theorem compare_scenarios_missing_key (lam mu cs0 cw0 : Q)
  (specs : list (string * Q * Q)) (bad : Scenario) (rest : list Scenario) :
  0 < lam -> 0 < mu ->
  sc_name bad = None \/ sc_cost_server bad = None \/
  sc_cost_waiting bad = None ->
  compare_scenarios (mkCostOptimizer lam mu cs0 cw0)
    (map scenario_of specs ++ bad :: rest) =
  Raise (KeyError
           match sc_cost_server bad, sc_cost_waiting bad with
           | None, _ => "cost_server"
           | Some _, None => "cost_waiting"
           | Some _, Some _ => "name"
           end).
Proof.
  intros Hlam Hmu Hbad. unfold compare_scenarios.
  rewrite for_each_app.
  destruct (compare_scenarios_complete lam mu cs0 cw0 specs Hlam Hmu)
    as (results & Hrun).
  unfold compare_scenarios in Hrun. rewrite Hrun. cbn [bind for_each].
  unfold compare_body.
  destruct bad as [[name |] [cost_s |] [cost_w |]];
    cbn [sc_cost_server sc_cost_waiting sc_name subscript bind
         o_lambda_rate o_mu_rate];
    try reflexivity.
  - exfalso. destruct Hbad as [H | [H | H]]; discriminate.
  - destruct (optimize_default_success lam mu cost_s cost_w Hlam Hmu)
      as (r & Hr & _).
    rewrite Hr. reflexivity.
Qed.

(** X15 with a second scenario that has no name. *)
Lemma compare_scenarios_missing_key_witness :
  compare_scenarios (mkCostOptimizer 120 30 50 20)
    (map scenario_of [("bajo"%string, 30, 20)]
     ++ mkScenario None (Some 80) (Some 10) :: []) =
  Raise (KeyError "name").
Proof.
  apply (compare_scenarios_missing_key 120 30 50 20
           [("bajo"%string, 30, 20)] (mkScenario None (Some 80) (Some 10))
           []); [reflexivity | reflexivity | now left].
Defined.

(* ================================================================== *)
(** * Further properties of the distribution fitter *)

Lemma fit_loop_all_fail (lib : Library) (data : list Q)
  (distributions : list string) :
  (forall name, In name distributions ->
     exists e, fit_one lib data name = Raise e) ->
  forall results out,
  exists out',
    fit_loop lib data distributions results out = Ok (results, out') /\
    map fst out' = map fst out ++ distributions.
Proof.
  induction distributions as [| d ds IH]; intros Hfail results out.
  - exists out. simpl. now rewrite app_nil_r.
  - destruct (Hfail d (or_introl eq_refl)) as [e He].
    destruct (IH (fun name Hn => Hfail name (or_intror Hn)) results
                (out ++ [(d, e)])) as (out' & Hrun & Hout).
    exists out'. simpl. rewrite He. split; [exact Hrun |].
    rewrite Hout, map_app, <- app_assoc. reflexivity.
Qed.

(** The first iteration of the loop of [get_best_distribution] fails
    when the criterion cannot be read and compared. *)
Lemma best_loop_raises (criterion : string) (e : exn)
  (items : list (string * FitInfo)) (b : Best) :
  items <> [] ->
  (forall info, criterion_value info criterion = Raise e) ->
  for_each items (best_body criterion) b = Raise e.
Proof.
  intros Hne Hraise. destruct items as [| [name info] items];
    [contradiction |].
  simpl. rewrite Hraise. reflexivity.
Qed.

(** X16.  With a non-empty cache [get_best_distribution] reads the
    entry [criterion] of every cached fit and keeps the smallest.  For
    ['log_likelihood'] it therefore returns the family with the lowest
    likelihood; for the keys ['params'] and ['dist_object'] the comparison
    with a float raises [TypeError]; any other key that is not ['aic'] or
    ['bic'] raises [KeyError]. *)
Theorem get_best_distribution_criterion (lib : Library)
  (self : DistributionFitter) (data : list Q) (criterion : string) :
  fitted_distributions self <> [] ->
  (criterion = "log_likelihood"%string ->
   exists name info,
     get_best_distribution lib self data criterion =
       Ok (mkBest (Some name) (Finite (log_likelihood info))
             (Some (params info)), self) /\
     first_min (fun item => log_likelihood (snd item))
       (fitted_distributions self) (name, info)) /\
  (criterion = "params"%string \/ criterion = "dist_object"%string ->
   get_best_distribution lib self data criterion = Raise TypeError) /\
  (~ In criterion
       ["aic"; "bic"; "log_likelihood"; "params"; "dist_object"]%string ->
   get_best_distribution lib self data criterion =
   Raise (KeyError criterion)).
Proof.
  intro Hne. rewrite get_best_distribution_nonempty by exact Hne.
  split; [| split].
  - intros ->.
    destruct (best_scan "log_likelihood" log_likelihood
                (fun _ => eq_refl) (fitted_distributions self) []
                (mkBest None PosInf None)) as (b & -> & Hinv).
    { split; reflexivity. }
    simpl in Hinv. unfold best_inv in Hinv.
    destruct (best_name b) as [name |].
    + destruct Hinv as (info & -> & Hmin).
      exists name, info. split; [reflexivity | exact Hmin].
    + destruct Hinv as [Hnil _]. contradiction.
  - intros Hkey.
    rewrite (best_loop_raises criterion TypeError) ; [reflexivity | exact Hne |].
    intro info. destruct Hkey as [-> | ->]; reflexivity.
  - intros Hkey.
    rewrite (best_loop_raises criterion (KeyError criterion));
      [reflexivity | exact Hne |].
    intro info. unfold criterion_value.
    repeat match goal with
    | |- context [String.eqb criterion ?k] =>
        let E := fresh "E" in
        destruct (String.eqb criterion k) eqn:E;
        [apply String.eqb_eq in E; exfalso; apply Hkey; subst criterion;
         simpl; tauto |]
    end.
    reflexivity.
Qed.

(** X16 on a cache that holds one fit. *)
Lemma get_best_distribution_criterion_witness :
  ("log_likelihood"%string = "log_likelihood"%string ->
   exists name info,
     get_best_distribution ToyStats.lib
       (mkDistributionFitter
      [("expon"%string, mkFitInfo [1; 2] ToyStats.expon (-3) 10 11)] []) [1; 3] "log_likelihood" =
       Ok (mkBest (Some name) (Finite (log_likelihood info))
             (Some (params info)),
           (mkDistributionFitter
      [("expon"%string, mkFitInfo [1; 2] ToyStats.expon (-3) 10 11)] [])) /\
     first_min (fun item => log_likelihood (snd item))
       (fitted_distributions
          (mkDistributionFitter
      [("expon"%string, mkFitInfo [1; 2] ToyStats.expon (-3) 10 11)] [])) (name, info)) /\
  ("log_likelihood"%string = "params"%string \/
   "log_likelihood"%string = "dist_object"%string ->
   get_best_distribution ToyStats.lib
     (mkDistributionFitter
      [("expon"%string, mkFitInfo [1; 2] ToyStats.expon (-3) 10 11)] []) [1; 3] "log_likelihood" =
   Raise TypeError) /\
  (~ In "log_likelihood"%string
       ["aic"; "bic"; "log_likelihood"; "params"; "dist_object"]%string ->
   get_best_distribution ToyStats.lib
     (mkDistributionFitter
      [("expon"%string, mkFitInfo [1; 2] ToyStats.expon (-3) 10 11)] []) [1; 3] "log_likelihood" =
   Raise (KeyError "log_likelihood")).
Proof.
  apply (get_best_distribution_criterion ToyStats.lib
           (mkDistributionFitter
              [("expon"%string, mkFitInfo [1; 2] ToyStats.expon (-3) 10 11)]
              [])
           [1; 3] "log_likelihood").
  discriminate.
Defined.

(** X17.  When the cache is empty and none of the four default families
    can be fitted to the data, [get_best_distribution] raises nothing: it
    prints the four failures and returns [(None, None, inf)], whatever the
    criterion, even one that is no key of a fit. *)
Theorem get_best_distribution_nothing_fitted (lib : Library)
  (self : DistributionFitter) (data : list Q) (criterion : string) :
  fitted_distributions self = [] ->
  (forall name, In name default_distributions ->
     exists e, fit_one lib data name = Raise e) ->
  exists self',
    get_best_distribution lib self data criterion =
      Ok (mkBest None PosInf None, self') /\
    fitted_distributions self' = [] /\
    map fst (printed self') =
      map fst (printed self) ++ default_distributions.
Proof.
  intros Hcache Hfail.
  destruct (fit_loop_all_fail lib data default_distributions Hfail []
              (printed self)) as (out & Hrun & Hout).
  exists (mkDistributionFitter [] out).
  unfold get_best_distribution, fit_distributions.
  rewrite Hcache, Hrun. simpl. now repeat split.
Qed.

(** X17 on an empty sample, which no family of the stand-in library
    fits. *)
Lemma get_best_distribution_nothing_fitted_witness :
  exists self',
    get_best_distribution ToyStats.lib DistributionFitter_init []
      "no such key" =
      Ok (mkBest None PosInf None, self') /\
    fitted_distributions self' = [] /\
    map fst (printed self') =
      map fst (printed DistributionFitter_init) ++ default_distributions.
Proof.
  apply (get_best_distribution_nothing_fitted ToyStats.lib
           DistributionFitter_init [] "no such key").
  - reflexivity.
  - intros name Hname. simpl in Hname.
    destruct Hname as [<- | [<- | [<- | [<- | []]]]];
      eexists; vm_compute; reflexivity.
Defined.

Lemma fold_left_Qplus_acc (xs : list Q) (a : Q) :
  fold_left Qplus xs a == a + fold_left Qplus xs 0.
Proof.
  revert a. induction xs as [| x xs IH]; intro a; simpl.
  - ring.
  - rewrite (IH (a + x)), (IH (0 + x)). ring.
Qed.

Lemma sum_cons (x : Q) (xs : list Q) : sum (x :: xs) == x + sum xs.
Proof.
  unfold sum. simpl. rewrite fold_left_Qplus_acc. ring.
Qed.

(** A sum of consecutive differences collapses to the outer ones. *)
Lemma sum_telescope (g : nat -> Q) (n : Q) (m : nat) :
  sum (map (fun i => (g (S i) - g i) * n) (seq 0 m)) == (g m - g 0%nat) * n.
Proof.
  induction m as [| m IH].
  - unfold sum. simpl. ring.
  - rewrite seq_S, map_app. cbn [map Nat.add]. rewrite sum_snoc, IH. ring.
Qed.

Lemma nth_linspace (a b : Q) (i : nat) :
  (i <= n_bins)%nat ->
  nth i (linspace a b) 0 =
  inject_Z (Z.of_nat i) * ((b - a) / inject_Z (Z.of_nat n_bins)) + a.
Proof.
  intro Hi. unfold linspace.
  set (f := fun i : nat =>
              inject_Z (Z.of_nat i) * ((b - a) / inject_Z (Z.of_nat n_bins))
              + a).
  rewrite (nth_indep _ 0 (f 0%nat))
    by (rewrite length_map, length_seq; lia).
  rewrite map_nth. rewrite seq_nth by lia. reflexivity.
Qed.

Lemma length_linspace (a b : Q) : List.length (linspace a b) = S n_bins.
Proof. unfold linspace. now rewrite length_map, length_seq. Qed.

Lemma fold_left_Qmin_le (xs : list Q) (x : Q) : fold_left Qmin xs x <= x.
Proof.
  revert x. induction xs as [| y xs IH]; intro x; simpl.
  - apply Qle_refl.
  - eapply Qle_trans; [apply IH | apply Q.le_min_l].
Qed.

Lemma fold_left_Qmax_ge (xs : list Q) (x : Q) : x <= fold_left Qmax xs x.
Proof.
  revert x. induction xs as [| y xs IH]; intro x; simpl.
  - apply Qle_refl.
  - eapply Qle_trans; [apply Q.le_max_l | apply IH].
Qed.

(** The outer edges of the histogram are in order. *)
Lemma outer_edges_ordered (data : list Q) :
  fst (outer_edges data) <= snd (outer_edges data).
Proof.
  unfold outer_edges. destruct data as [| x xs]; simpl.
  - discriminate.
  - pose proof (fold_left_Qmin_le xs x). pose proof (fold_left_Qmax_ge xs x).
    destruct (Qeq_bool _ _); simpl; lra.
Qed.

Lemma map_snd_combine {A B : Type} (xs : list A) (ys : list B) :
  List.length xs = List.length ys -> map snd (combine xs ys) = ys.
Proof.
  revert ys. induction xs as [| x xs IH]; intros [| y ys] H;
    simpl in *; try discriminate; try reflexivity.
  f_equal. apply IH. lia.
Qed.

Lemma map_snd_filter {A B : Type} (p : B -> bool) (l : list (A * B)) :
  map snd (filter (fun ab => p (snd ab)) l) = filter p (map snd l).
Proof.
  induction l as [| [a b] l IH]; simpl; [reflexivity |].
  destruct (p b); simpl; now rewrite IH.
Qed.

(** Each list element above 5 takes more than 5 out of the total of a
    list of non-negative numbers. *)
Lemma filter_sum_bound (xs : list Q) :
  Forall (fun x => 0 <= x) xs ->
  5 * inject_Z (Z.of_nat (List.length (filter (Qltb 5) xs))) <= sum xs /\
  (filter (Qltb 5) xs <> [] ->
   5 * inject_Z (Z.of_nat (List.length (filter (Qltb 5) xs))) < sum xs).
Proof.
  induction 1 as [| x xs Hx Hxs [IH1 IH2]].
  - split; [vm_compute; discriminate | intro H; now elim H].
  - cbn [filter]. destruct (Qltb 5 x) eqn:E.
    + apply Qltb_lt in E. cbn [List.length].
      rewrite Nat2Z.inj_succ, <- Z.add_1_r, inject_Z_plus, sum_cons.
      change (inject_Z 1) with 1.
      split; [lra | intros _; lra].
    + rewrite sum_cons. split; [lra |].
      intro Hne. specialize (IH2 Hne). lra.
Qed.

Lemma histogram_edges (data : list Q) :
  snd (histogram data) =
  linspace (fst (outer_edges data)) (snd (outer_edges data)).
Proof.
  unfold histogram. now destruct (outer_edges data).
Qed.

Lemma histogram_observed_length (data : list Q) :
  List.length (fst (histogram data)) = n_bins.
Proof.
  unfold histogram. destruct (outer_edges data). simpl. reflexivity.
Qed.

(** X18.  For a fitted distribution function that is non-decreasing with
    values in [0, 1], the expected counts that [goodness_of_fit_tests]
    computes add up to [n·(F(last edge) − F(first edge))], hence to at
    most the sample size n; since only the bins whose expected count
    exceeds 5 are kept, fewer than n/5 bins reach the chi-square test.  A
    sample of at most five observations leaves it no bin at all, and the
    twenty bins can all be kept only with more than a hundred
    observations. *)
Theorem chi_square_bins_bounded (data : list Q) (dist : Distribution)
  (params : list Q) :
  (forall x y, x <= y -> d_cdf dist x params <= d_cdf dist y params) ->
  (forall x, 0 <= d_cdf dist x params <= 1) ->
  sum (expected_counts (fun x => d_cdf dist x params)
         (snd (histogram data)) (List.length data)) ==
  (d_cdf dist (snd (outer_edges data)) params
   - d_cdf dist (fst (outer_edges data)) params)
  * inject_Z (Z.of_nat (List.length data)) /\
  (masked_bins (fst (histogram data))
     (expected_counts (fun x => d_cdf dist x params)
        (snd (histogram data)) (List.length data)) = [] \/
   (5 * List.length
          (masked_bins (fst (histogram data))
             (expected_counts (fun x => d_cdf dist x params)
                (snd (histogram data)) (List.length data)))
    < List.length data)%nat).
Proof.
  intros Hmono Hrange.
  set (cdf := fun x => d_cdf dist x params).
  set (n := List.length data).
  set (a := fst (outer_edges data)). set (b := snd (outer_edges data)).
  pose proof (outer_edges_ordered data) as Hab. fold a b in Hab.
  rewrite histogram_edges. fold a b.
  set (expected := expected_counts cdf (linspace a b) n).
  assert (Hn : 0 <= inject_Z (Z.of_nat n))
    by (change 0 with (inject_Z 0); rewrite <- Zle_Qle; lia).
  assert (Hstep : 0 <= (b - a) / inject_Z (Z.of_nat n_bins)).
  { apply Qle_shift_div_l; [reflexivity | lra]. }
  assert (Htotal : sum expected ==
                   (cdf b - cdf a) * inject_Z (Z.of_nat n)).
  { subst expected. unfold expected_counts.
    rewrite length_linspace. replace (S n_bins - 1)%nat with n_bins by lia.
    rewrite (sum_telescope (fun i => cdf (nth i (linspace a b) 0))).
    rewrite !nth_linspace by lia.
    assert (E0 : inject_Z (Z.of_nat 0)
                 * ((b - a) / inject_Z (Z.of_nat n_bins)) + a == a)
      by (change (inject_Z (Z.of_nat 0)) with 0; ring).
    assert (E1 : inject_Z (Z.of_nat n_bins)
                 * ((b - a) / inject_Z (Z.of_nat n_bins)) + a == b)
      by (field; discriminate).
    assert (Ha : cdf (inject_Z (Z.of_nat 0)
                      * ((b - a) / inject_Z (Z.of_nat n_bins)) + a)
                 == cdf a).
    { apply Qle_antisym; apply Hmono; rewrite E0; apply Qle_refl. }
    assert (Hb : cdf (inject_Z (Z.of_nat n_bins)
                      * ((b - a) / inject_Z (Z.of_nat n_bins)) + a)
                 == cdf b).
    { apply Qle_antisym; apply Hmono; rewrite E1; apply Qle_refl. }
    rewrite Ha, Hb. reflexivity. }
  split; [exact Htotal |].
  assert (Hnonneg : Forall (fun x => 0 <= x) expected).
  { subst expected. unfold expected_counts.
    rewrite length_linspace. replace (S n_bins - 1)%nat with n_bins by lia.
    apply Forall_forall. intros x Hx. apply in_map_iff in Hx.
    destruct Hx as (i & <- & Hi). apply in_seq in Hi.
    rewrite !nth_linspace by lia.
    apply Qmult_le_0_compat; [| exact Hn].
    assert (Hle : cdf (inject_Z (Z.of_nat i)
                       * ((b - a) / inject_Z (Z.of_nat n_bins)) + a) <=
                  cdf (inject_Z (Z.of_nat (S i))
                       * ((b - a) / inject_Z (Z.of_nat n_bins)) + a)).
    { apply Hmono.
      rewrite Nat2Z.inj_succ, <- Z.add_1_r, inject_Z_plus.
      change (inject_Z 1) with 1.
      set (step := (b - a) / inject_Z (Z.of_nat n_bins)) in *.
      set (k := inject_Z (Z.of_nat i)).
      assert (E : (k + 1) * step + a == k * step + a + step) by ring.
      rewrite E. lra. }
    lra. }
  assert (Hlen : List.length (fst (histogram data)) = List.length expected).
  { rewrite histogram_observed_length. subst expected.
    unfold expected_counts.
    rewrite length_map, length_seq, length_linspace. lia. }
  set (kept := masked_bins (fst (histogram data)) expected).
  assert (Hkept : List.length kept =
                  List.length (filter (Qltb 5) expected)).
  { subst kept. unfold masked_bins.
    rewrite <- (length_map snd), (map_snd_filter (Qltb 5)).
    now rewrite map_snd_combine. }
  destruct (filter_sum_bound expected Hnonneg) as [_ Hstrict].
  destruct kept as [| k0 kept'] eqn:Ek; [now left | right].
  assert (Hne : filter (Qltb 5) expected <> []).
  { intro E. rewrite E in Hkept. discriminate. }
  specialize (Hstrict Hne). rewrite <- Hkept in Hstrict.
  assert (Hdiff : cdf b - cdf a <= 1).
  { pose proof (Hrange a). pose proof (Hrange b). subst cdf. simpl. lra. }
  assert (Hbound : sum expected <= inject_Z (Z.of_nat n)).
  { rewrite Htotal.
    rewrite <- (Qmult_1_l (inject_Z (Z.of_nat n))) at 2.
    apply Qmult_le_compat_r; assumption. }
  assert (Hq : inject_Z (5 * Z.of_nat (List.length (k0 :: kept')))
               < inject_Z (Z.of_nat n)).
  { rewrite inject_Z_mult. change (inject_Z 5) with 5. lra. }
  rewrite <- Zlt_Qlt in Hq. lia.
Qed.

Lemma toy_cdf_monotone (x y : Q) :
  x <= y ->
  d_cdf ToyStats.expon x [1; 1] <= d_cdf ToyStats.expon y [1; 1].
Proof.
  intro H. cbn [d_cdf ToyStats.expon]. unfold ToyStats.clamp01.
  apply Q.max_le_compat_l, Q.min_le_compat_l.
  unfold Qdiv. apply Qmult_le_compat_r; [lra | discriminate].
Qed.

Lemma toy_cdf_range (x : Q) : 0 <= d_cdf ToyStats.expon x [1; 1] <= 1.
Proof.
  cbn [d_cdf ToyStats.expon]. unfold ToyStats.clamp01. split.
  - apply Q.le_max_l.
  - apply Q.max_lub; [discriminate | apply Q.le_min_l].
Qed.

(** X18 on the sample [1; 2; 3] and the stand-in exponential family. *)
Lemma chi_square_bins_bounded_witness :
  sum (expected_counts (fun x => d_cdf ToyStats.expon x [1; 1])
         (snd (histogram [1; 2; 3])) (List.length [1; 2; 3])) ==
  (d_cdf ToyStats.expon (snd (outer_edges [1; 2; 3])) [1; 1]
   - d_cdf ToyStats.expon (fst (outer_edges [1; 2; 3])) [1; 1])
  * inject_Z (Z.of_nat (List.length [1; 2; 3])) /\
  (masked_bins (fst (histogram [1; 2; 3]))
     (expected_counts (fun x => d_cdf ToyStats.expon x [1; 1])
        (snd (histogram [1; 2; 3])) (List.length [1; 2; 3])) = [] \/
   (5 * List.length
          (masked_bins (fst (histogram [1; 2; 3]%Q))
             (expected_counts (fun x => d_cdf ToyStats.expon x [1; 1]%Q)
                (snd (histogram [1; 2; 3]%Q)) (List.length [1; 2; 3]%Q)))
    < List.length [1; 2; 3]%Q)%nat).
Proof.
  apply (chi_square_bins_bounded [1; 2; 3] ToyStats.expon [1; 1]).
  - exact toy_cdf_monotone.
  - exact toy_cdf_range.
Defined.

(* ================================================================== *)
(** * Invariants of the simulation *)

Lemma before_true (s x : scheduled) :
  before s x = true -> at_time s <= at_time x.
Proof.
  unfold before. destruct (at_time s ?= at_time x) eqn:E; intro H.
  - apply Qeq_alt in E. rewrite E. apply Qle_refl.
  - apply Qlt_alt in E. now apply Qlt_le_weak.
  - discriminate.
Qed.

Lemma before_false (s x : scheduled) :
  before s x = false -> at_time x <= at_time s.
Proof.
  unfold before. destruct (at_time s ?= at_time x) eqn:E; intro H.
  - apply Qeq_alt in E. rewrite E. apply Qle_refl.
  - discriminate.
  - apply Qgt_alt in E. now apply Qlt_le_weak.
Qed.

Lemma enqueue_Forall (P : scheduled -> Prop) (s : scheduled)
  (q : list scheduled) :
  P s -> Forall P q -> Forall P (enqueue s q).
Proof.
  intros Hs. induction 1 as [| x q Hx Hq IH]; simpl.
  - now repeat constructor.
  - destruct (before s x); repeat constructor; assumption.
Qed.

Lemma enqueue_sorted (s : scheduled) (q : list scheduled) :
  StronglySorted time_le q -> StronglySorted time_le (enqueue s q).
Proof.
  induction 1 as [| x q Hq IH Hx]; simpl.
  - repeat constructor.
  - destruct (before s x) eqn:E.
    + constructor; [now constructor |].
      apply before_true in E. constructor; [exact E |].
      eapply Forall_impl; [| exact Hx].
      intros y Hy. unfold time_le in *. lra.
    + constructor; [exact IH |].
      apply enqueue_Forall; [| exact Hx].
      now apply before_false.
Qed.

Lemma count_enqueue (p : event -> bool) (s : scheduled)
  (q : list scheduled) :
  count_events p (enqueue s q) = count_events p (s :: q).
Proof.
  unfold count_events. induction q as [| x q IH]; [reflexivity |].
  cbn [enqueue]. destruct (before s x); [reflexivity |].
  cbn [filter] in *. destruct (p (what x)), (p (what s));
    cbn [List.length] in *; lia.
Qed.

Lemma count_app (p : event -> bool) (a b : list scheduled) :
  count_events p (a ++ b) = (count_events p a + count_events p b)%nat.
Proof.
  unfold count_events. now rewrite filter_app, length_app.
Qed.

Lemma count_cons (p : event -> bool) (s : scheduled) (q : list scheduled) :
  count_events p (s :: q) =
  ((if p (what s) then 1 else 0) + count_events p q)%nat.
Proof.
  unfold count_events. cbn [filter]. now destruct (p (what s)).
Qed.

Section SimulationInvariants.
Variable G : Type.
Variable np_random_seed : Z -> res G.
Variable expon_rvs : Q -> G -> Q * G.
Variable self : QueueSimulator.
Hypothesis distinct_ws : wait_times self <> system_times self.
Hypothesis distinct_wq : wait_times self <> queue_lengths self.
Hypothesis distinct_sq : system_times self <> queue_lengths self.

Lemma schedule_order (e : Env G) (prio : nat) (delay : Q) (ev : event) :
  order_inv G e -> 0 <= delay ->
  match arrival_of ev with
  | Some arrive => arrive <= now G e
  | None => True
  end ->
  order_inv G (schedule G e prio delay ev).
Proof.
  intros (Hsorted & Hnow & Hput & Harr) Hdelay Hev.
  unfold order_inv, schedule. cbn [queue now put_queue].
  split; [now apply enqueue_sorted |].
  split; [apply enqueue_Forall; [cbn; lra | exact Hnow] |].
  split; [exact Hput |].
  apply enqueue_Forall; [exact Hev | exact Harr].
Qed.

Lemma pop_order (e : Env G) (s : scheduled) (rest : list scheduled) :
  order_inv G e -> queue G e = s :: rest ->
  order_inv G
    (mkEnv G (at_time s) (next_number G e) rest (rng G e) (users G e)
       (put_queue G e) (customer_count G e)) /\
  now G e <= at_time s /\
  match arrival_of (what s) with
  | Some arrive => arrive <= at_time s
  | None => True
  end.
Proof.
  intros (Hsorted & Hnow & Hput & Harr) Hq. rewrite Hq in *.
  inversion Hsorted as [| ? ? Hrest Hs]; subst.
  inversion Hnow as [| ? ? Hs0 Hnow']; subst.
  inversion Harr as [| ? ? Ha Harr']; subst.
  split; [| split; [exact Hs0 |]].
  - unfold order_inv. cbn [queue now put_queue].
    split; [exact Hrest |]. split; [exact Hs |].
    split.
    + eapply Forall_impl; [| exact Hput]. intros a Ha'.
      cbn beta in Ha'. lra.
    + eapply Forall_impl; [| exact Harr'].
      intros x Hx. cbn beta in Hx.
      destruct (arrival_of (what x)); [lra | exact I].
  - destruct (arrival_of (what s)); [lra | exact I].
Qed.

Lemma draw_fields (scale : Q) (e : Env G) :
  now G (snd (draw G expon_rvs scale e)) = now G e /\
  queue G (snd (draw G expon_rvs scale e)) = queue G e /\
  users G (snd (draw G expon_rvs scale e)) = users G e /\
  put_queue G (snd (draw G expon_rvs scale e)) = put_queue G e.
Proof.
  unfold draw. destruct (expon_rvs scale (rng G e)). now cbn.
Qed.

(** A timeout leaves the order invariant and adds one event. *)
Lemma timeout_spec (e e' : Env G) (delay : Q) (ev : event) :
  timeout G e delay ev = Ok e' ->
  0 <= delay /\ e' = schedule G e NORMAL delay ev.
Proof.
  unfold timeout. destruct (Qltb delay 0) eqn:E; [discriminate |].
  apply Qltb_ge in E. now intros [= <-].
Qed.

Lemma trigger_put_inv (pending : list scheduled) (e : Env G) (σ : store) :
  order_inv G e ->
  count_inv G self (pending ++ queue G e) e σ ->
  order_inv G (trigger_put G (c_servers self) e) /\
  count_inv G self
    (pending ++ queue G (trigger_put G (c_servers self) e))
    (trigger_put G (c_servers self) e) σ.
Proof.
  intros Hord Hcnt. unfold trigger_put.
  destruct (put_queue G e) as [| arrive waiting] eqn:Hpq; [now split |].
  destruct (Z.of_nat (users G e) <? c_servers self)%Z eqn:Hfree;
    [| now split].
  apply Z.ltb_lt in Hfree.
  split.
  - apply schedule_order.
    + destruct Hord as (H1 & H2 & H3 & H4).
      unfold order_inv. cbn [queue now put_queue].
      rewrite Hpq in H3. inversion H3; subst. now repeat split.
    + lra.
    + cbn. destruct Hord as (_ & _ & H3 & _). rewrite Hpq in H3.
      now inversion H3.
  - destruct Hcnt as (Hu & Hcap & Hw & Hq & Hrest).
    unfold count_inv, schedule. cbn [queue users put_queue now].
    rewrite !count_app in *. rewrite !count_enqueue, !count_cons.
    cbn [what is_granted is_service_done is_customer_start].
    rewrite Hpq in Hq. cbn [List.length] in Hq.
    repeat split; try tauto; lia.
Qed.

Lemma deref_append_same (σ : store) (l : nat) (x : Q) :
  is_Some (σ !! l) -> deref (list_append l x σ) l = deref σ l ++ [x].
Proof.
  intro H. rewrite deref_list_append by exact H. now rewrite Nat.eqb_refl.
Qed.

Lemma deref_append_other (σ : store) (l l' : nat) (x : Q) :
  l <> l' -> is_Some (σ !! l') -> deref (list_append l x σ) l' = deref σ l'.
Proof.
  intros Hne H. rewrite deref_list_append by exact H.
  replace (l =? l')%nat with false by (symmetry; now apply Nat.eqb_neq).
  apply app_nil_r.
Qed.

Lemma order_inv_ext (e e' : Env G) :
  now G e' = now G e -> queue G e' = queue G e ->
  put_queue G e' = put_queue G e ->
  order_inv G e -> order_inv G e'.
Proof.
  unfold order_inv. intros -> -> ->. tauto.
Qed.

Ltac simplify_counts Hev Hcnt :=
  unfold count_inv, schedule in *;
  cbn [queue users put_queue now customer_count] in *;
  rewrite ?count_enqueue, ?count_cons in *; rewrite Hev in Hcnt;
  cbn [what is_granted is_service_done is_customer_start] in *.

Lemma resume_inv (e0 e' : Env G) (σ σ' : store) (s : scheduled) :
  order_inv G e0 ->
  match arrival_of (what s) with
  | Some arrive => arrive <= now G e0
  | None => True
  end ->
  count_inv G self (s :: queue G e0) e0 σ ->
  what s <> Until ->
  resume G expon_rvs self (what s) e0 σ = Ok (e', σ') ->
  sim_inv G self e' σ'.
Proof.
  intros Hord Harr Hcnt Hnot Hres.
  destruct (what s) as [| | | arrive | arrive | |] eqn:Hev;
    unfold resume, customer_generator, customer in Hres.
  - (* the generator starts *)
    destruct (pydiv 1 (s_lambda_rate self)) as [scale | |];
      try discriminate.
    cbn [bind] in Hres.
    destruct (draw G expon_rvs scale e0) as [gap e1] eqn:Hdraw.
    destruct (draw_fields scale e0) as (Hn & Hq & Hu & Hp).
    rewrite Hdraw in Hn, Hq, Hu, Hp. cbn [snd] in Hn, Hq, Hu, Hp.
    destruct (timeout G e1 gap GeneratorWake) as [e2 | |] eqn:Ht;
      try discriminate.
    cbn [bind] in Hres. injection Hres as <- <-.
    apply timeout_spec in Ht. destruct Ht as [Hgap ->].
    split.
    + apply schedule_order; [| exact Hgap | exact I].
      now apply (order_inv_ext e0).
    + simplify_counts Hev Hcnt. rewrite Hq, Hu, Hp. exact Hcnt.
  - (* the generator wakes up: an arrival *)
    cbv iota beta in Hres.
    set (ea := schedule G
                 (mkEnv G (now G e0) (next_number G e0) (queue G e0)
                    (rng G e0) (users G e0) (put_queue G e0)
                    (S (customer_count G e0))) URGENT 0 CustomerStart) in *.
    destruct (pydiv 1 (s_lambda_rate self)) as [scale | |];
      try discriminate.
    cbn [bind] in Hres.
    destruct (draw G expon_rvs scale ea) as [gap e1] eqn:Hdraw.
    destruct (draw_fields scale ea) as (Hn & Hq & Hu & Hp).
    rewrite Hdraw in Hn, Hq, Hu, Hp. cbn [snd] in Hn, Hq, Hu, Hp.
    destruct (timeout G e1 gap GeneratorWake) as [e2 | |] eqn:Ht;
      try discriminate.
    cbn [bind] in Hres. injection Hres as <- <-.
    apply timeout_spec in Ht. destruct Ht as [Hgap ->].
    assert (Horda : order_inv G ea).
    { subst ea. apply schedule_order; [| lra | exact I].
      now apply (order_inv_ext e0). }
    split.
    + apply schedule_order; [| exact Hgap | exact I].
      now apply (order_inv_ext ea).
    + subst ea. simplify_counts Hev Hcnt. rewrite Hq, Hu, Hp.
      rewrite ?count_enqueue, ?count_cons.
      cbn [what is_granted is_service_done is_customer_start].
      destruct Hcnt as (H1 & H2 & H3 & H4 & H5 & H6 & H7 & H8 & H9 & H10
                        & H11).
      rewrite deref_append_same by exact H11.
      rewrite !deref_append_other by (assumption || congruence).
      rewrite length_app. cbn [List.length].
      repeat split; try assumption; try lia;
        try (now apply list_append_is_Some).
      * apply Forall_app. split; [exact H7 |]. constructor; [| constructor].
        change 0 with (inject_Z 0). rewrite <- Zle_Qle. lia.
      * destruct (deref σ (queue_lengths self)) as [| first rest];
          [| exact H8].
        cbn [List.length] in H4. cbn [app].
        destruct (put_queue G e0); [reflexivity | cbn in H4; lia].
  - (* the customer's process starts: it requests a server *)
    injection Hres as <- <-.
    set (ea := mkEnv G (now G e0) (next_number G e0) (queue G e0)
                 (rng G e0) (users G e0) (put_queue G e0 ++ [now G e0])
                 (customer_count G e0)) in *.
    assert (Horda : order_inv G ea).
    { destruct Hord as (H1 & H2 & H3 & H4).
      unfold order_inv. subst ea. cbn [queue now put_queue].
      repeat split; try assumption.
      apply Forall_app. split; [exact H3 |].
      constructor; [apply Qle_refl | constructor]. }
    assert (Hcnta : count_inv G self ([] ++ queue G ea) ea σ).
    { subst ea. simplify_counts Hev Hcnt. cbn [app].
      rewrite length_app. cbn [List.length].
      intuition lia. }
    apply (trigger_put_inv [] ea σ Horda Hcnta).
  - (* the request is granted: the wait is recorded *)
    destruct (pydiv 1 (s_mu_rate self)) as [scale | |]; try discriminate.
    cbn [bind] in Hres.
    destruct (draw G expon_rvs scale e0) as [service e1] eqn:Hdraw.
    destruct (draw_fields scale e0) as (Hn & Hq & Hu & Hp).
    rewrite Hdraw in Hn, Hq, Hu, Hp. cbn [snd] in Hn, Hq, Hu, Hp.
    destruct (timeout G e1 service (ServiceDone arrive)) as [e2 | |] eqn:Ht;
      try discriminate.
    cbn [bind] in Hres. injection Hres as <- <-.
    apply timeout_spec in Ht. destruct Ht as [Hservice ->].
    cbn [arrival_of] in Harr.
    split.
    + apply schedule_order; [| exact Hservice |].
      * now apply (order_inv_ext e0).
      * cbn [arrival_of]. rewrite Hn. exact Harr.
    + simplify_counts Hev Hcnt. rewrite Hq, Hu, Hp.
      destruct Hcnt as (H1 & H2 & H3 & H4 & H5 & H6 & H7 & H8 & H9 & H10
                        & H11).
      rewrite deref_append_same by exact H9.
      rewrite !deref_append_other by (assumption || congruence).
      rewrite length_app. cbn [List.length].
      repeat split; try assumption; try lia;
        try (now apply list_append_is_Some).
      apply Forall_app. split; [exact H5 |]. constructor; [| constructor].
      lra.
  - (* the service ends: the system time is recorded *)
    injection Hres as <- <-. cbn [arrival_of] in Harr.
    split.
    + destruct Hord as (H1 & H2 & H3 & H4).
      unfold order_inv, schedule. cbn [queue now put_queue].
      split; [now apply enqueue_sorted |].
      split; [apply enqueue_Forall; [cbn; lra | exact H2] |].
      split; [exact H3 |].
      apply enqueue_Forall; [exact I | exact H4].
    + simplify_counts Hev Hcnt.
      destruct Hcnt as (H1 & H2 & H3 & H4 & H5 & H6 & H7 & H8 & H9 & H10
                        & H11).
      rewrite deref_append_same by exact H10.
      rewrite !deref_append_other by (assumption || congruence).
      rewrite length_app. cbn [List.length].
      repeat split; try assumption; try lia;
        try (now apply list_append_is_Some).
      apply Forall_app. split; [exact H6 |]. constructor; [| constructor].
      lra.
  - (* the release is processed: the next request is served *)
    injection Hres as <- <-.
    apply (trigger_put_inv [] e0 σ Hord).
    simplify_counts Hev Hcnt. exact Hcnt.
  - now elim Hnot.
Qed.

Lemma env_run_inv (fuel : nat) :
  forall (e e' : Env G) (σ σ' : store),
    sim_inv G self e σ ->
    env_run G expon_rvs fuel self e σ = Some (Ok (e', σ')) ->
    sim_inv G self e' σ'.
Proof.
  induction fuel as [| fuel IH]; intros e e' σ σ' [Hord Hcnt] Hrun;
    [discriminate |].
  cbn [env_run] in Hrun.
  destruct (queue G e) as [| s rest] eqn:Hq; [discriminate |].
  destruct (pop_order e s rest Hord Hq) as (Hord0 & Hnow & Harr).
  set (e0 := mkEnv G (at_time s) (next_number G e) rest (rng G e)
               (users G e) (put_queue G e) (customer_count G e)) in *.
  assert (Hcnt0 : count_inv G self (s :: queue G e0) e0 σ) by exact Hcnt.
  destruct (what s) eqn:Hev;
    try (destruct (resume G expon_rvs self _ e0 σ) as [[e1 σ1] | |] eqn:Hres;
         try discriminate;
         apply (IH e1 e' σ1 σ'); [| exact Hrun];
         apply (resume_inv e0 e1 σ σ1 s Hord0);
         [rewrite Hev; exact Harr | exact Hcnt0
          | rewrite Hev; discriminate | rewrite Hev; exact Hres]).
  injection Hrun as <- <-. split; [exact Hord0 |].
  unfold count_inv in *. rewrite !count_cons in Hcnt0. rewrite Hev in Hcnt0.
  exact Hcnt0.
Qed.

(** What a completed run on fresh lists has recorded. *)
Lemma run_simulation_inv (fuel : nat) (seed : Z) (σ σ1 : store)
  (r : SimulationResult) :
  (forall which, σ !! list_of self which = Some []) ->
  run_simulation G np_random_seed expon_rvs fuel self seed σ =
    Some (Ok (r, σ1)) ->
  r = result_of self σ1 /\
  exists e, sim_inv G self e σ1.
Proof.
  intros Hfresh Hrun. unfold run_simulation in Hrun.
  destruct (np_random_seed seed) as [g | |]; try discriminate.
  destruct (c_servers self <=? 0)%Z eqn:Hc; [discriminate |].
  apply Z.leb_gt in Hc.
  destruct (Qle_bool (sim_time self) 0) eqn:HT; [discriminate |].
  assert (HTpos : 0 < sim_time self).
  { apply Qnot_le_lt. intro H. apply Qle_bool_iff in H. congruence. }
  set (env := schedule G (schedule G (mkEnv G 0 0 [] g 0 [] 0) URGENT 0
                            GeneratorStart) URGENT (sim_time self) Until)
    in *.
  destruct (env_run G expon_rvs fuel self env σ) as [[[e' σ'] | |] |] eqn:He;
    try discriminate.
  destruct (pydiv (s_lambda_rate self) (s_mu_rate self)) as [a | |] eqn:Ha;
    try discriminate.
  cbn [bind] in Hrun. injection Hrun as <- <-.
  split.
  - unfold result_of. unfold pydiv in Ha.
    destruct (Qeq_bool (s_mu_rate self) 0); [discriminate |].
    now injection Ha as <-.
  - exists e'. apply (env_run_inv fuel env e' σ σ'); [| exact He].
    pose proof (Hfresh WaitTimes) as Hw.
    pose proof (Hfresh SystemTimes) as Hs.
    pose proof (Hfresh QueueLengths) as Hl. cbn [list_of] in Hw, Hs, Hl.
    split.
    + subst env. apply schedule_order; [| lra | exact I].
      apply schedule_order; [| lra | exact I].
      unfold order_inv. cbn [queue now put_queue].
      repeat split; constructor.
    + unfold count_inv, deref. rewrite Hw, Hs, Hl. subst env.
      unfold schedule. cbn [queue users put_queue now default].
      rewrite !count_enqueue, !count_cons.
      cbn [what is_granted is_service_done is_customer_start enqueue
           count_events filter List.length].
      repeat split; try constructor; try lia; eauto.
Qed.
End SimulationInvariants.

Lemma np_mean_nonneg (xs : list Q) :
  Forall (fun x => 0 <= x) xs ->
  match np_mean xs with Some m => 0 <= m | None => xs = [] end.
Proof.
  intro H. destruct xs as [| x xs]; [reflexivity |].
  cbn [np_mean]. apply Qle_shift_div_l.
  - change 0 with (inject_Z 0). rewrite <- Zlt_Qlt. cbn [List.length]. lia.
  - rewrite Qmult_0_l. now apply sum_nonneg.
Qed.

(** X19.  What a completed run of a freshly built simulator has
    recorded.  Waiting times, system times and queue lengths are
    non-negative.  Every customer that left the system had started
    service, and every customer that started service had been counted on
    arrival, so [system_times] is no longer than [wait_times], which is no
    longer than [queue_lengths]; the customers that started service
    without finishing it are at most as many as the servers.
    ['total_customers'] counts the customers that started service before
    the horizon, not the arrivals.  The queue length is recorded before
    the arriving customer joins the queue, so the first sample is 0.  The
    mean waiting time is [nan] exactly when no customer started service,
    and non-negative otherwise.  A run returns only for a positive
    number of servers, a positive horizon and a non-zero service rate. *)
Theorem simulation_samples_consistent (G : Type)
  (np_random_seed : Z -> res G) (expon_rvs : Q -> G -> Q * G)
  (fuel : nat) (lam mu : Q) (c : Z) (T : Q) (seed : Z) (σ0 σ σ1 : store)
  (self : QueueSimulator) (r : SimulationResult) :
  QueueSimulator_init lam mu c T σ0 = (self, σ) ->
  run_simulation G np_random_seed expon_rvs fuel self seed σ =
    Some (Ok (r, σ1)) ->
  Forall (fun x => 0 <= x) (deref σ1 (r_wait_times r)) /\
  Forall (fun x => 0 <= x) (deref σ1 (r_system_times r)) /\
  Forall (fun x => 0 <= x) (deref σ1 (r_queue_lengths r)) /\
  (List.length (deref σ1 (r_system_times r))
   <= List.length (deref σ1 (r_wait_times r))
   <= List.length (deref σ1 (r_queue_lengths r)))%nat /\
  (Z.of_nat (List.length (deref σ1 (r_wait_times r)))
   <= Z.of_nat (List.length (deref σ1 (r_system_times r))) + c)%Z /\
  total_customers r = List.length (deref σ1 (r_wait_times r)) /\
  match deref σ1 (r_queue_lengths r) with
  | [] => True
  | first :: _ => first = 0
  end /\
  match Wq_simulated r with
  | Some wq => 0 <= wq /\ total_customers r <> 0%nat
  | None => total_customers r = 0%nat
  end /\
  (0 < c)%Z /\ 0 < T /\ ~ mu == 0.
Proof.
  intros Hinit Hrun.
  destruct (QueueSimulator_init_lists _ _ _ _ _ _ _ Hinit)
    as (Hfresh & Hws & Hwq & Hsq & Hl & Hm & Hc & HT).
  destruct (run_simulation_inv G np_random_seed expon_rvs self Hws Hwq Hsq
              fuel seed σ σ1 r Hfresh Hrun)
    as (-> & e & _ & Hcnt).
  destruct Hcnt as (H1 & H2 & H3 & H4 & H5 & H6 & H7 & H8 & _).
  unfold result_of.
  cbn [r_wait_times r_system_times r_queue_lengths total_customers
       Wq_simulated].
  split; [exact H5 |]. split; [exact H6 |]. split; [exact H7 |].
  split; [lia |]. split; [lia |]. split; [reflexivity |].
  split; [exact H8 |]. split.
  - pose proof (np_mean_nonneg _ H5) as Hmean.
    destruct (np_mean (deref σ1 (wait_times self))) as [wq |] eqn:E.
    + split; [exact Hmean |]. intro Hz.
      apply length_zero_iff_nil in Hz. rewrite Hz in E. discriminate.
    + now rewrite Hmean.
  - unfold run_simulation in Hrun.
    destruct (np_random_seed seed) as [g | |]; try discriminate.
    destruct (c_servers self <=? 0)%Z eqn:Ec; [discriminate |].
    apply Z.leb_gt in Ec.
    destruct (Qle_bool (sim_time self) 0) eqn:Et; [discriminate |].
    destruct (env_run G expon_rvs fuel self _ σ) as [[[e' σ'] | |] |];
      try discriminate.
    unfold pydiv in Hrun.
    destruct (Qeq_bool (s_mu_rate self) 0) eqn:Em; [discriminate |].
    rewrite <- Hc, <- HT, <- Hm.
    split; [exact Ec |]. split.
    + apply Qnot_le_lt. intro H. apply Qle_bool_iff in H. congruence.
    + now apply Qeq_bool_neq.
Qed.

(** X19 with the stand-in generator, λ = 2, μ = 1, one server and a
    horizon of 10. *)
Lemma simulation_samples_consistent_witness :
  exists r σ1,
    run_simulation Z ToyRandom.seed ToyRandom.rvs 200
      (fst (QueueSimulator_init 2 1 1 10 ∅)) 42
      (snd (QueueSimulator_init 2 1 1 10 ∅)) = Some (Ok (r, σ1)) /\
    Forall (fun x => 0 <= x) (deref σ1 (r_wait_times r)) /\
    Forall (fun x => 0 <= x) (deref σ1 (r_system_times r)) /\
    Forall (fun x => 0 <= x) (deref σ1 (r_queue_lengths r)) /\
    (List.length (deref σ1 (r_system_times r))
     <= List.length (deref σ1 (r_wait_times r))
     <= List.length (deref σ1 (r_queue_lengths r)))%nat /\
    (Z.of_nat (List.length (deref σ1 (r_wait_times r)))
     <= Z.of_nat (List.length (deref σ1 (r_system_times r))) + 1)%Z /\
    total_customers r = List.length (deref σ1 (r_wait_times r)) /\
    match deref σ1 (r_queue_lengths r) with
    | [] => True
    | first :: _ => first = 0
    end /\
    match Wq_simulated r with
    | Some wq => 0 <= wq /\ total_customers r <> 0%nat
    | None => total_customers r = 0%nat
    end /\
    (0 < 1)%Z /\ 0 < 10 /\ ~ 1 == 0.
Proof.
  assert (Hrun : exists r σ1,
             run_simulation Z ToyRandom.seed ToyRandom.rvs 200
               (fst (QueueSimulator_init 2 1 1 10 ∅)) 42
               (snd (QueueSimulator_init 2 1 1 10 ∅)) =
             Some (Ok (r, σ1))).
  { eexists. eexists. vm_compute. reflexivity. }
  destruct Hrun as (r & σ1 & Hrun).
  exists r, σ1. split; [exact Hrun |].
  apply (simulation_samples_consistent Z ToyRandom.seed ToyRandom.rvs 200
           2 1 1 10 42 ∅ _ _ _ _ eq_refl Hrun).
Defined.

(** X20.  [run_simulation] rejects a simulator that cannot run, once the
    seed is accepted: a number of servers of zero or less, or a horizon of
    zero or less, raises [ValueError] (from the resource and from
    [env.run]); otherwise an arrival rate of zero raises
    [ZeroDivisionError] when the generator computes its first gap
    [1/lambda_rate].  Nothing in [__init__] checks any of this. *)
Theorem run_simulation_rejects (G : Type) (np_random_seed : Z -> res G)
  (expon_rvs : Q -> G -> Q * G) (fuel : nat) (self : QueueSimulator)
  (seed : Z) (σ : store) (g : G) :
  np_random_seed seed = Ok g ->
  (c_servers self <= 0)%Z \/ sim_time self <= 0 \/
  s_lambda_rate self == 0 ->
  run_simulation G np_random_seed expon_rvs (S fuel) self seed σ =
  Some (Raise (if (c_servers self <=? 0)%Z || Qle_bool (sim_time self) 0
               then ValueError else ZeroDivisionError)).
Proof.
  intros Hseed Hbad. unfold run_simulation. rewrite Hseed.
  destruct (c_servers self <=? 0)%Z eqn:Ec; [reflexivity |].
  apply Z.leb_gt in Ec.
  destruct (Qle_bool (sim_time self) 0) eqn:Et; [reflexivity |].
  assert (HT : 0 < sim_time self).
  { apply Qnot_le_lt. intro H. apply Qle_bool_iff in H. congruence. }
  destruct Hbad as [H | [H | Hlam]]; [lia | lra |].
  cbn [orb]. unfold schedule. cbn [now next_number queue enqueue].
  assert (Hb : before (mkScheduled (0 + sim_time self) URGENT 1 Until)
                 (mkScheduled (0 + 0) URGENT 0 GeneratorStart) = false).
  { unfold before. cbn [at_time].
    assert (E : (0 + sim_time self ?= 0 + 0) = Gt)
      by (apply Qgt_alt; lra).
    now rewrite E. }
  rewrite Hb. cbn [env_run queue what resume]. unfold customer_generator.
  rewrite pydiv_zero by exact Hlam. reflexivity.
Qed.

(** X20 with an arrival rate of zero. *)
Lemma run_simulation_rejects_witness :
  run_simulation Z ToyRandom.seed ToyRandom.rvs 1
    (mkQueueSimulator 0 1 1 10 0 1 2) 42 ∅ =
  Some (Raise (if (c_servers (mkQueueSimulator 0 1 1 10 0 1 2) <=? 0)%Z
                  || Qle_bool (sim_time (mkQueueSimulator 0 1 1 10 0 1 2)) 0
               then ValueError else ZeroDivisionError)).
Proof.
  apply (run_simulation_rejects Z ToyRandom.seed ToyRandom.rvs 0
           (mkQueueSimulator 0 1 1 10 0 1 2) 42 ∅ 42%Z).
  - reflexivity.
  - right. right. reflexivity.
Defined.

(* ================================================================== *)
(** * Properties of the log processor *)

Lemma length_np_diff (a : list Q) :
  List.length (np_diff a) = (List.length a - 1)%nat.
Proof.
  induction a as [| x [| y rest] IH]; try reflexivity.
  change (np_diff (x :: y :: rest)) with ((y - x) :: np_diff (y :: rest)).
  cbn [List.length] in *. lia.
Qed.

Lemma last_cons_default {A : Type} (l : list A) (a d : A) :
  last (a :: l) d = last l a.
Proof.
  revert a d. induction l as [| b l IH]; intros a d; [reflexivity |].
  change (last (a :: b :: l) d) with (last (b :: l) d).
  now rewrite (IH b d), (IH b a).
Qed.

Lemma sum_np_diff (first : Q) (rest : list Q) :
  sum (np_diff (first :: rest)) == last rest first - first.
Proof.
  revert first. induction rest as [| y rest IH]; intro first.
  - unfold sum. simpl. ring.
  - change (np_diff (first :: y :: rest))
      with ((y - first) :: np_diff (y :: rest)).
    rewrite sum_cons, IH.
    rewrite (last_cons_default rest y first).
    ring.
Qed.

Lemma nth_np_diff (a : list Q) (i : nat) :
  (S i < List.length a)%nat ->
  nth i (np_diff a) 0 = nth (S i) a 0 - nth i a 0.
Proof.
  revert i. induction a as [| x [| y rest] IH]; intros i Hi;
    cbn [List.length] in Hi; try lia.
  change (np_diff (x :: y :: rest)) with ((y - x) :: np_diff (y :: rest)).
  destruct i as [| i]; [reflexivity |].
  cbn [nth]. rewrite IH by (cbn [List.length]; lia). reflexivity.
Qed.

(** X21.  When the frame has a column ['arrival_time'],
    [calculate_interarrival_times] returns the differences of its
    consecutive entries and never looks at ['timestamp']: one value fewer
    than there are rows, and values that add up to the last arrival time
    minus the first, whatever the order of the rows. *)
Theorem interarrival_from_arrival_time (self : DataProcessor)
  (df : option DataFrame) (d : DataFrame) (first : Q) (rest : list Q) :
  frame_argument self df = Some d ->
  arrival_time d = Some (first :: rest) ->
  exists gaps,
    calculate_interarrival_times self df = Ok gaps /\
    List.length gaps = List.length rest /\
    (forall i, (i < List.length rest)%nat ->
       nth i gaps 0 = nth i rest 0 - nth i (first :: rest) 0) /\
    sum gaps == last rest first - first.
Proof.
  intros Hframe Hcol. exists (np_diff (first :: rest)).
  unfold calculate_interarrival_times. rewrite Hframe. cbn [columns bind].
  rewrite Hcol. split; [reflexivity |].
  split; [rewrite length_np_diff; cbn [List.length]; lia |].
  split; [| apply sum_np_diff].
  intros i Hi. rewrite nth_np_diff by (cbn [List.length]; lia).
  reflexivity.
Qed.

(** X21 on a frame of three rows, given as argument. *)
Lemma interarrival_from_arrival_time_witness :
  exists gaps,
    calculate_interarrival_times DataProcessor_init
      (Some (mkDataFrame 3 (Some [1; 4; 9]) (Some [0; 0; 0]) None))
      = Ok gaps /\
    List.length gaps = List.length [4; 9] /\
    (forall i, (i < List.length [4; 9]%Q)%nat ->
       nth i gaps 0 = nth i [4; 9] 0 - nth i (1 :: [4; 9]) 0) /\
    sum gaps == last [4; 9] 1 - 1.
Proof.
  apply (interarrival_from_arrival_time DataProcessor_init
           (Some (mkDataFrame 3 (Some [1; 4; 9]) (Some [0; 0; 0]) None))
           (mkDataFrame 3 (Some [1; 4; 9]) (Some [0; 0; 0]) None)
           1 [4; 9]); reflexivity.
Defined.

Lemma nth_whole_seconds (timestamps : list Q) (i : nat) :
  nth i (whole_seconds timestamps) 0 =
  inject_Z (Qfloor (nth i timestamps 0)).
Proof.
  unfold whole_seconds.
  exact (map_nth (fun t => inject_Z (Qfloor t)) timestamps 0 i).
Qed.

(** X22.  Without ['arrival_time'] the gaps are taken between the
    timestamps cut down to whole seconds: every gap is an integer number
    of seconds and differs from the exact gap by less than one second, so
    two requests within the same second are zero seconds apart. *)
Theorem interarrival_from_timestamp (self : DataProcessor)
  (df : option DataFrame) (d : DataFrame) (timestamps : list Q) :
  frame_argument self df = Some d ->
  arrival_time d = None ->
  timestamp d = Some timestamps ->
  exists gaps,
    calculate_interarrival_times self df = Ok gaps /\
    List.length gaps = (List.length timestamps - 1)%nat /\
    forall i, (S i < List.length timestamps)%nat ->
      nth i gaps 0 =
        inject_Z (Qfloor (nth (S i) timestamps 0)
                  - Qfloor (nth i timestamps 0)) /\
      nth i gaps 0 - 1 <
        nth (S i) timestamps 0 - nth i timestamps 0 <
        nth i gaps 0 + 1.
Proof.
  intros Hframe Harr Hts. exists (np_diff (whole_seconds timestamps)).
  unfold calculate_interarrival_times. rewrite Hframe. cbn [columns bind].
  rewrite Harr, Hts. split; [reflexivity |].
  split.
  { rewrite length_np_diff. unfold whole_seconds.
    now rewrite length_map. }
  intros i Hi.
  rewrite nth_np_diff by (unfold whole_seconds; now rewrite length_map).
  rewrite !nth_whole_seconds.
  set (a := nth i timestamps 0). set (b := nth (S i) timestamps 0).
  pose proof (Qfloor_le a). pose proof (Qlt_floor a).
  pose proof (Qfloor_le b). pose proof (Qlt_floor b).
  rewrite inject_Z_plus in *. change (inject_Z 1) with 1 in *.
  split.
  - unfold Zminus. rewrite inject_Z_plus, inject_Z_opp. reflexivity.
  - split; lra.
Qed.

(** X22 on three timestamps, two of them within the same second. *)
Lemma interarrival_from_timestamp_witness :
  exists gaps,
    calculate_interarrival_times
      (mkDataProcessor
         (Some (mkDataFrame 3 None (Some [10 # 4; 11 # 4; 21 # 4]) None)))
      None = Ok gaps /\
    List.length gaps =
      (List.length [10 # 4; 11 # 4; 21 # 4] - 1)%nat /\
    forall i, (S i < List.length [10 # 4; 11 # 4; 21 # 4])%nat ->
      nth i gaps 0 =
        inject_Z (Qfloor (nth (S i) [10 # 4; 11 # 4; 21 # 4] 0)
                  - Qfloor (nth i [10 # 4; 11 # 4; 21 # 4] 0)) /\
      nth i gaps 0 - 1 <
        nth (S i) [10 # 4; 11 # 4; 21 # 4] 0
        - nth i [10 # 4; 11 # 4; 21 # 4] 0 <
        nth i gaps 0 + 1.
Proof.
  apply (interarrival_from_timestamp
           (mkDataProcessor
              (Some (mkDataFrame 3 None (Some [10 # 4; 11 # 4; 21 # 4])
                       None)))
           None
           (mkDataFrame 3 None (Some [10 # 4; 11 # 4; 21 # 4]) None)
           [10 # 4; 11 # 4; 21 # 4]); reflexivity.
Defined.

Lemma np_diff_nil_iff (a : list Q) :
  np_diff a = [] <-> (List.length a <= 1)%nat.
Proof.
  pose proof (length_np_diff a) as H. split; intro E.
  - rewrite E in H. cbn [List.length] in H. lia.
  - apply length_zero_iff_nil. lia.
Qed.

Lemma describe_ok (np_sqrt : Q -> Q) (a : list Q) :
  a <> [] ->
  exists s, describe np_sqrt a = Ok s /\ s_mean s = mean_value a.
Proof.
  intro H. destruct a as [| x rest]; [contradiction |].
  eexists. split; reflexivity.
Qed.

Lemma inject_nat_pos (n : nat) : (0 < n)%nat -> 0 < inject_Z (Z.of_nat n).
Proof.
  intro H. change 0 with (inject_Z 0). rewrite <- Zlt_Qlt. lia.
Qed.

Lemma Qdiv_nonzero (a b : Q) : ~ a == 0 -> ~ b == 0 -> ~ a / b == 0.
Proof.
  intros Ha Hb E. apply Ha.
  assert (H : a == b * (a / b)) by (symmetry; now apply Qmult_div_r).
  rewrite H, E. ring.
Qed.

(** X23.  The rates that [get_statistics] estimates from a frame with
    the columns ['arrival_time'] and ['service_time'].  The arrival rate
    is the number of gaps divided by the time between the first and the
    last row, so it depends on those two rows and on the number of rows
    only; the service rate is the number of rows divided by the total
    service time; the traffic intensity is their quotient, the mean
    service time over the mean gap. *)
Theorem get_statistics_rates (np_sqrt : Q -> Q) (self : DataProcessor)
  (df : option DataFrame) (d : DataFrame) (first : Q)
  (rest services : list Q) :
  frame_argument self df = Some d ->
  arrival_time d = Some (first :: rest) -> rest <> [] ->
  service_time d = Some services -> services <> [] ->
  ~ last rest first == first -> ~ sum services == 0 ->
  exists st r,
    get_statistics np_sqrt self df = Ok st /\
    total_requests st = n_rows d /\
    st_rates st = Some r /\
    s_mean (st_interarrival st) ==
      (last rest first - first) / inject_Z (Z.of_nat (List.length rest)) /\
    lambda_per_second r ==
      inject_Z (Z.of_nat (List.length rest)) / (last rest first - first) /\
    lambda_per_hour r == 3600 * lambda_per_second r /\
    mu_per_second r ==
      inject_Z (Z.of_nat (List.length services)) / sum services /\
    mu_per_hour r == 3600 * mu_per_second r /\
    traffic_intensity r ==
      mean_value services * lambda_per_second r.
Proof.
  intros Hframe Harr Hrest Hserv Hservices Hspan Htotal.
  assert (Hgaps : np_diff (first :: rest) <> []).
  { intro E. apply np_diff_nil_iff in E. cbn [List.length] in E.
    destruct rest; [contradiction | cbn [List.length] in E; lia]. }
  assert (Hlen : List.length (np_diff (first :: rest)) = List.length rest)
    by (rewrite length_np_diff; cbn [List.length]; lia).
  assert (Hn : 0 < inject_Z (Z.of_nat (List.length rest))).
  { apply inject_nat_pos. destruct rest; [contradiction |].
    cbn [List.length]. lia. }
  assert (Hm : 0 < inject_Z (Z.of_nat (List.length services))).
  { apply inject_nat_pos. destruct services; [contradiction |].
    cbn [List.length]. lia. }
  assert (Hmean : mean_value (np_diff (first :: rest)) ==
                  (last rest first - first)
                  / inject_Z (Z.of_nat (List.length rest))).
  { unfold mean_value. now rewrite Hlen, sum_np_diff. }
  assert (Hspan' : ~ last rest first - first == 0) by (intro E; lra).
  assert (Hmean0 : ~ mean_value (np_diff (first :: rest)) == 0).
  { intro E. rewrite Hmean in E. revert E.
    apply Qdiv_nonzero; [exact Hspan' | lra]. }
  assert (Hsmean0 : ~ mean_value services == 0).
  { unfold mean_value. apply Qdiv_nonzero; [exact Htotal | lra]. }
  destruct (describe_ok np_sqrt _ Hgaps) as (ia & Hia & Hia_mean).
  destruct (describe_ok np_sqrt _ Hservices) as (sv & Hsv & _).
  assert (Hmu0 : ~ 1 / mean_value services == 0)
    by (apply Qdiv_nonzero; [discriminate | exact Hsmean0]).
  eexists. eexists.
  unfold get_statistics, calculate_interarrival_times.
  rewrite Hframe. cbn [frame_argument columns bind].
  rewrite Harr. cbn [bind]. rewrite Hserv, Hia. cbn [bind].
  rewrite Hsv. cbn [bind].
  rewrite (npdiv_ok 1 _ Hmean0). cbn [bind].
  rewrite (npdiv_ok 1 _ Hsmean0). cbn [bind].
  rewrite (npdiv_ok _ _ Hmu0). cbn [bind].
  split; [reflexivity |].
  cbn [total_requests st_rates st_interarrival lambda_per_second
       lambda_per_hour mu_per_second mu_per_hour traffic_intensity].
  split; [reflexivity |]. split; [reflexivity |].
  cbn [lambda_per_second lambda_per_hour mu_per_second mu_per_hour
       traffic_intensity].
  split; [rewrite Hia_mean; exact Hmean |].
  split; [rewrite Hmean; field; split; lra |].
  split; [ring |].
  split; [unfold mean_value; field; split; lra |].
  split; [ring |].
  field. split; assumption.
Qed.

(** X23 on three rows that arrive at 0, 2 and 6 seconds and take one
    second each. *)
Lemma get_statistics_rates_witness :
  exists st r,
    get_statistics (fun x => x) DataProcessor_init
      (Some (mkDataFrame 3 (Some [0; 2; 6]) None (Some [1; 1; 1])))
      = Ok st /\
    total_requests st =
      n_rows (mkDataFrame 3 (Some [0; 2; 6]) None (Some [1; 1; 1])) /\
    st_rates st = Some r /\
    s_mean (st_interarrival st) ==
      (last [2; 6] 0 - 0) / inject_Z (Z.of_nat (List.length [2; 6])) /\
    lambda_per_second r ==
      inject_Z (Z.of_nat (List.length [2; 6])) / (last [2; 6] 0 - 0) /\
    lambda_per_hour r == 3600 * lambda_per_second r /\
    mu_per_second r ==
      inject_Z (Z.of_nat (List.length [1; 1; 1])) / sum [1; 1; 1] /\
    mu_per_hour r == 3600 * mu_per_second r /\
    traffic_intensity r ==
      mean_value [1; 1; 1] * lambda_per_second r.
Proof.
  apply (get_statistics_rates (fun x => x) DataProcessor_init
           (Some (mkDataFrame 3 (Some [0; 2; 6]) None (Some [1; 1; 1])))
           (mkDataFrame 3 (Some [0; 2; 6]) None (Some [1; 1; 1]))
           0 [2; 6] [1; 1; 1]);
    try reflexivity; try discriminate; vm_compute; discriminate.
Defined.

(** X24.  [get_statistics] needs at least two rows: on a frame with
    fewer rows there is no gap between arrivals, and the minimum of the
    empty array of gaps raises [ValueError] (the mean and the standard
    deviation before it are [nan] and raise nothing).  A frame that has
    neither ['arrival_time'] nor ['timestamp'] raises [ValueError] as
    well. *)
Theorem get_statistics_needs_two_rows (np_sqrt : Q -> Q)
  (self : DataProcessor) (df : option DataFrame) (d : DataFrame) :
  frame_argument self df = Some d ->
  frame_ok d ->
  (n_rows d <= 1)%nat \/ (arrival_time d = None /\ timestamp d = None) ->
  get_statistics np_sqrt self df = Raise ValueError.
Proof.
  intros Hframe (Harr & Hts & _) Hfew.
  unfold get_statistics, calculate_interarrival_times.
  rewrite Hframe. cbn [frame_argument columns bind].
  destruct (arrival_time d) as [values |].
  - destruct Hfew as [Hfew | [Hno _]]; [| discriminate].
    cbn [column_ok] in Harr. cbn [bind].
    replace (np_diff values) with (@nil Q)
      by (symmetry; apply np_diff_nil_iff; lia).
    reflexivity.
  - destruct (timestamp d) as [timestamps |]; [| reflexivity].
    destruct Hfew as [Hfew | [_ Hno]]; [| discriminate].
    cbn [column_ok] in Hts. cbn [bind].
    replace (np_diff (whole_seconds timestamps)) with (@nil Q).
    + reflexivity.
    + symmetry. apply np_diff_nil_iff. unfold whole_seconds.
      rewrite length_map. lia.
Qed.

(** X24 on a frame with a single row. *)
Lemma get_statistics_needs_two_rows_witness :
  get_statistics (fun x => x) DataProcessor_init
    (Some (mkDataFrame 1 (Some [5]) None (Some [1]))) = Raise ValueError.
Proof.
  apply (get_statistics_needs_two_rows (fun x => x) DataProcessor_init
           (Some (mkDataFrame 1 (Some [5]) None (Some [1])))
           (mkDataFrame 1 (Some [5]) None (Some [1]))).
  - reflexivity.
  - repeat split.
  - left. cbn. lia.
Defined.

(** X25.  The three ways in which the methods report a missing input.
    Before any file has been loaded, a call without a frame raises
    [AttributeError], because [self.data] is still [None].  On a frame
    with neither ['arrival_time'] nor ['timestamp'] the two statistics
    methods raise [ValueError], while [detect_patterns] raises nothing and
    returns a dictionary whose only entry is ['error'].  On a frame with a
    column ['timestamp'] but no rows [detect_patterns] raises
    [ValueError], from the maximum of an empty table. *)
Theorem missing_input_reports (np_sqrt : Q -> Q) (self : DataProcessor) :
  (dp_data self = None ->
   calculate_interarrival_times self None =
     Raise (AttributeError "columns") /\
   get_statistics np_sqrt self None = Raise (AttributeError "columns") /\
   detect_patterns self None = Raise (AttributeError "columns")) /\
  (forall d,
     arrival_time d = None -> timestamp d = None ->
     calculate_interarrival_times self (Some d) = Raise ValueError /\
     get_statistics np_sqrt self (Some d) = Raise ValueError /\
     detect_patterns self (Some d) =
       Ok (PatternsError "Se requiere columna timestamp")) /\
  (forall d,
     timestamp d = Some [] ->
     detect_patterns self (Some d) = Raise ValueError).
Proof.
  unfold get_statistics, calculate_interarrival_times, detect_patterns.
  split; [| split].
  - intro H. cbn [frame_argument]. rewrite !H. cbn [frame_argument].
    rewrite !H. now repeat split.
  - intros d Ha Ht. cbn [frame_argument columns bind]. rewrite Ha, Ht.
    now repeat split.
  - intros d Ht. cbn [frame_argument columns bind]. now rewrite Ht.
Qed.

Lemma hour_of_range (t : Q) : (0 <= hour_of t < 24)%Z.
Proof. unfold hour_of. apply Z.mod_pos_bound. lia. Qed.

Lemma count_hour_cons (x : Z) (hours : list Z) (h : Z) :
  count_hour (x :: hours) h =
  ((if (h =? x)%Z then 1 else 0) + count_hour hours h)%nat.
Proof.
  unfold count_hour. cbn [filter]. now destruct (h =? x)%Z.
Qed.

Lemma list_sum_indicator (x : Z) :
  (0 <= x < 24)%Z ->
  list_sum (map (fun h => if (h =? x)%Z then 1 else 0)%nat (range 24)) = 1%nat.
Proof.
  intro H. apply in_range in H. vm_compute in H.
  repeat (destruct H as [<- | H]; [reflexivity |]). contradiction.
Qed.

Lemma list_sum_map_add {A : Type} (f g : A -> nat) (l : list A) :
  list_sum (map (fun a => f a + g a)%nat l) =
  (list_sum (map f l) + list_sum (map g l))%nat.
Proof.
  induction l as [| a l IH]; [reflexivity |]. simpl in *. lia.
Qed.

(** Every row falls in one of the twenty-four hours. *)
Lemma count_hour_total (hours : list Z) :
  Forall (fun h => (0 <= h < 24)%Z) hours ->
  list_sum (map (count_hour hours) (range 24)) = List.length hours.
Proof.
  induction 1 as [| x hours Hx Hrest IH].
  - vm_compute. reflexivity.
  - rewrite (map_ext _ _ (count_hour_cons x hours)).
    rewrite (list_sum_map_add (fun h => if (h =? x)%Z then 1 else 0)%nat).
    rewrite list_sum_indicator by exact Hx. rewrite IH. reflexivity.
Qed.

Lemma list_sum_filter_nonzero (l : list (Z * nat)) :
  list_sum (map snd (filter (fun entry => negb (snd entry =? 0)%nat) l)) =
  list_sum (map snd l).
Proof.
  induction l as [| [h n] l IH]; [reflexivity |].
  cbn [filter snd].
  destruct (Nat.eqb_spec n 0) as [-> | Hn]; simpl in *; lia.
Qed.

Lemma groupby_size_total (hours : list Z) :
  Forall (fun h => (0 <= h < 24)%Z) hours ->
  list_sum (map snd (groupby_size hours)) = List.length hours.
Proof.
  intro H. unfold groupby_size.
  rewrite list_sum_filter_nonzero, map_map. cbn [snd].
  now apply count_hour_total.
Qed.

Lemma in_groupby_size (hours : list Z) (h : Z) (n : nat) :
  In (h, n) (groupby_size hours) <->
  (0 <= h < 24)%Z /\ n = count_hour hours h /\ (1 <= n)%nat.
Proof.
  unfold groupby_size. rewrite filter_In, in_map_iff. cbn [snd].
  split.
  - intros [(h' & [= <- <-] & Hin) Hn]. apply in_range in Hin.
    apply negb_true_iff, Nat.eqb_neq in Hn. repeat split; lia.
  - intros (Hh & -> & Hn). split.
    + exists h. split; [reflexivity | now apply in_range].
    + apply negb_true_iff, Nat.eqb_neq. lia.
Qed.

Lemma groupby_size_sorted (hours : list Z) :
  StronglySorted Z.lt (map fst (groupby_size hours)).
Proof.
  unfold groupby_size.
  assert (H : forall (p : Z * nat -> bool) (l : list Z) (f : Z -> nat),
            StronglySorted Z.lt l ->
            StronglySorted Z.lt
              (map fst (filter p (map (fun h => (h, f h)) l)))).
  { intros p l f. induction 1 as [| x l Hl IH Hx]; [constructor |].
    cbn [map filter]. destruct (p (x, f x)); [| exact IH].
    cbn [map fst]. constructor; [exact IH |].
    apply Forall_forall. intros y Hy. apply in_map_iff in Hy.
    destruct Hy as ([y' n] & <- & Hin). apply filter_In in Hin.
    destruct Hin as [Hin _]. apply in_map_iff in Hin.
    destruct Hin as (z & [= <- <-] & Hz).
    rewrite Forall_forall in Hx. now apply Hx. }
  apply H. apply range2_sorted.
Qed.

Lemma idxmin_from_first_min (entries seen : list (Z * nat))
  (best : Z * nat) :
  first_min count_cost seen best ->
  first_min count_cost (seen ++ entries) (idxmin_from best entries).
Proof.
  revert seen best. induction entries as [| entry rest IH];
    intros seen best H.
  - now rewrite app_nil_r.
  - cbn [idxmin_from].
    replace (seen ++ entry :: rest) with ((seen ++ [entry]) ++ rest)
      by (rewrite <- app_assoc; reflexivity).
    destruct (Nat.ltb_spec (snd entry) (snd best)) as [Hlt | Hge];
      apply IH.
    + apply (first_min_take count_cost seen best entry H).
      unfold count_cost. rewrite <- Zlt_Qlt. lia.
    + apply (first_min_keep count_cost seen best entry H).
      unfold count_cost. rewrite <- Zle_Qle. lia.
Qed.

Lemma idxmax_from_first_min (entries seen : list (Z * nat))
  (best : Z * nat) :
  first_min (fun entry => - count_cost entry) seen best ->
  first_min (fun entry => - count_cost entry) (seen ++ entries)
    (idxmax_from best entries).
Proof.
  revert seen best. induction entries as [| entry rest IH];
    intros seen best H.
  - now rewrite app_nil_r.
  - cbn [idxmax_from].
    replace (seen ++ entry :: rest) with ((seen ++ [entry]) ++ rest)
      by (rewrite <- app_assoc; reflexivity).
    destruct (Nat.ltb_spec (snd best) (snd entry)) as [Hlt | Hge];
      apply IH.
    + apply (first_min_take (fun entry => - count_cost entry) seen best
               entry H).
      unfold count_cost.
      assert (inject_Z (Z.of_nat (snd best))
              < inject_Z (Z.of_nat (snd entry)))
        by (rewrite <- Zlt_Qlt; lia).
      lra.
    + apply (first_min_keep (fun entry => - count_cost entry) seen best
               entry H).
      unfold count_cost.
      assert (inject_Z (Z.of_nat (snd entry))
              <= inject_Z (Z.of_nat (snd best)))
        by (rewrite <- Zle_Qle; lia).
      lra.
Qed.

(** In a table ordered by hour, the first minimum of a cost is in the
    table, bounds the cost of every entry and is the earliest hour that
    attains it. *)
Lemma first_min_earliest (cost : Z * nat -> Q) (l : list (Z * nat))
  (best : Z * nat) :
  StronglySorted Z.lt (map fst l) ->
  first_min cost l best ->
  In best l /\
  forall entry, In entry l ->
    cost best <= cost entry /\
    (cost entry <= cost best -> (fst best <= fst entry)%Z).
Proof.
  intros Hsorted (l1 & l2 & -> & Hbefore & Hafter).
  split; [apply in_or_app; right; now left |].
  intros entry Hin. apply in_app_or in Hin.
  destruct Hin as [Hin | [<- | Hin]].
  - pose proof (Hbefore entry Hin). split; [lra | intro; lra].
  - split; [apply Qle_refl | intro; lia].
  - split; [now apply Hafter |]. intros _.
    rewrite map_app in Hsorted. cbn [map] in Hsorted.
    pose proof (StronglySorted_after (map fst l1) (map fst l2) (fst best)
                  (fst entry) Hsorted (in_map fst _ _ Hin)).
    lia.
Qed.

Lemma sum_count_cost (l : list (Z * nat)) :
  sum (map (fun entry => inject_Z (Z.of_nat (snd entry))) l) ==
  inject_Z (Z.of_nat (list_sum (map snd l))).
Proof.
  induction l as [| [h n] l IH].
  - reflexivity.
  - cbn [map snd]. rewrite sum_cons, IH.
    change (list_sum (n :: map snd l)) with (n + list_sum (map snd l))%nat.
    rewrite Nat2Z.inj_add, inject_Z_plus. reflexivity.
Qed.

Lemma list_sum_bound (l : list (Z * nat)) (m : nat) :
  (forall entry, In entry l -> (snd entry <= m)%nat) ->
  (list_sum (map snd l) <= m * List.length l)%nat.
Proof.
  induction l as [| e l IH]; intro H; [cbn; lia |].
  pose proof (H e (or_introl eq_refl)).
  specialize (IH (fun entry Hin => H entry (or_intror Hin))).
  simpl in *. lia.
Qed.

(** X26.  On a frame with a non-empty column ['timestamp'],
    [detect_patterns] returns the table of the hours of the day that
    have at least one request, in ascending order, each with its number
    of requests; the numbers add up to the number of rows.  The peak hour
    is the earliest of the busiest hours; the low hour is the earliest of
    the least busy hours among those that have requests, so an hour
    without any request is never reported and ['low_hour_requests'] is at
    least 1.  The peak-to-average ratio is the peak count over the mean
    count of the hours of the table, and is at least 1. *)
Theorem detect_patterns_spec (self : DataProcessor)
  (df : option DataFrame) (d : DataFrame) (timestamps : list Q) :
  frame_argument self df = Some d ->
  timestamp d = Some timestamps ->
  timestamps <> [] ->
  exists ph pr lh lr dist ratio,
    detect_patterns self df = Ok (PatternsFound ph pr lh lr dist ratio) /\
    (forall h n, In (h, n) dist <->
       (0 <= h < 24)%Z /\
       n = count_hour (map hour_of timestamps) h /\ (1 <= n)%nat) /\
    StronglySorted Z.lt (map fst dist) /\
    list_sum (map snd dist) = List.length timestamps /\
    In (ph, pr) dist /\ In (lh, lr) dist /\
    (forall h n, In (h, n) dist ->
       (lr <= n <= pr)%nat /\
       (n = pr -> (ph <= h)%Z) /\ (n = lr -> (lh <= h)%Z)) /\
    (1 <= lr)%nat /\
    1 <= ratio /\
    ratio * inject_Z (Z.of_nat (List.length timestamps)) ==
      inject_Z (Z.of_nat pr) * inject_Z (Z.of_nat (List.length dist)).
Proof.
  intros Hframe Hts Hne.
  set (hours := map hour_of timestamps).
  assert (Hhours : Forall (fun h => (0 <= h < 24)%Z) hours).
  { apply Forall_forall. intros h Hh. apply in_map_iff in Hh.
    destruct Hh as (t & <- & _). apply hour_of_range. }
  pose proof (groupby_size_total hours Hhours) as Htotal.
  pose proof (groupby_size_sorted hours) as Hsorted.
  pose proof (in_groupby_size hours) as Hin.
  assert (Hlen : List.length hours = List.length timestamps)
    by (subst hours; apply length_map).
  unfold detect_patterns. rewrite Hframe. cbn [columns bind]. rewrite Hts.
  fold hours.
  destruct (groupby_size hours) as [| first rest] eqn:Hgroup.
  { exfalso. cbn in Htotal. destruct timestamps; [contradiction |].
    cbn [List.length] in Hlen. lia. }
  set (dist := first :: rest) in *.
  pose proof (idxmax_from_first_min rest [first] first
                (first_min_single _ first)) as Hpeak.
  pose proof (idxmin_from_first_min rest [first] first
                (first_min_single _ first)) as Hlow.
  cbn [app] in Hpeak, Hlow. fold dist in Hpeak, Hlow.
  destruct (first_min_earliest _ dist _ Hsorted Hpeak) as [Hpin Hpall].
  destruct (first_min_earliest _ dist _ Hsorted Hlow) as [Hlin Hlall].
  set (peak := idxmax_from first rest) in *.
  set (low := idxmin_from first rest) in *.
  assert (Hbounds : forall entry, In entry dist ->
            (snd low <= snd entry <= snd peak)%nat /\
            (snd entry = snd peak -> (fst peak <= fst entry)%Z) /\
            (snd entry = snd low -> (fst low <= fst entry)%Z)).
  { intros entry He.
    destruct (Hpall entry He) as [Hp1 Hp2].
    destruct (Hlall entry He) as [Hl1 Hl2].
    unfold count_cost in *.
    assert (Hple : (snd entry <= snd peak)%nat).
    { apply Nat2Z.inj_le. rewrite Zle_Qle. lra. }
    assert (Hlle : (snd low <= snd entry)%nat).
    { apply Nat2Z.inj_le. rewrite Zle_Qle. lra. }
    split; [lia |]. split.
    - intro E. apply Hp2. rewrite E. apply Qle_refl.
    - intro E. apply Hl2. rewrite E. apply Qle_refl. }
  assert (Hk : 0 < inject_Z (Z.of_nat (List.length dist)))
    by (apply inject_nat_pos; subst dist; cbn [List.length]; lia).
  assert (Hn : 0 < inject_Z (Z.of_nat (List.length timestamps))).
  { apply inject_nat_pos. destruct timestamps; [contradiction |].
    cbn [List.length]. lia. }
  assert (Hsum : sum (map (fun entry => inject_Z (Z.of_nat (snd entry)))
                        dist) ==
                 inject_Z (Z.of_nat (List.length timestamps))).
  { rewrite sum_count_cost, Htotal, Hlen. reflexivity. }
  assert (Hmean : mean_value
                    (map (fun entry => inject_Z (Z.of_nat (snd entry)))
                       dist) ==
                  inject_Z (Z.of_nat (List.length timestamps))
                  / inject_Z (Z.of_nat (List.length dist))).
  { unfold mean_value. now rewrite Hsum, length_map. }
  assert (Hmean0 : ~ mean_value
                       (map (fun entry => inject_Z (Z.of_nat (snd entry)))
                          dist) == 0).
  { intro E. rewrite Hmean in E. revert E.
    apply Qdiv_nonzero; lra. }
  rewrite (npdiv_ok _ _ Hmean0). cbn [bind].
  exists (fst peak), (snd peak), (fst low), (snd low), dist. eexists.
  split; [reflexivity |].
  split; [intros h n; apply Hin |].
  split; [exact Hsorted |].
  split; [rewrite Htotal; exact Hlen |].
  split; [now rewrite <- surjective_pairing |].
  split; [now rewrite <- surjective_pairing |].
  split; [intros h n He; apply (Hbounds (h, n) He) |].
  split.
  { rewrite (surjective_pairing low) in Hlin. apply Hin in Hlin. lia. }
  assert (Hle : inject_Z (Z.of_nat (List.length timestamps))
                <= inject_Z (Z.of_nat (snd peak))
                   * inject_Z (Z.of_nat (List.length dist))).
  { rewrite <- inject_Z_mult, <- Nat2Z.inj_mul, <- Zle_Qle.
    apply Nat2Z.inj_le. rewrite <- Hlen, <- Htotal.
    apply list_sum_bound. intros entry He. now apply Hbounds. }
  split.
  - rewrite Hmean. apply Qle_shift_div_l.
    + apply Qdiv_pos; assumption.
    + rewrite Qmult_1_l. apply Qle_shift_div_r; assumption.
  - rewrite Hmean. field. lra.
Qed.

(** X26 on four requests: two at hour 1, one at hour 3 and one at hour 5
    of the first day. *)
Lemma detect_patterns_spec_witness :
  exists ph pr lh lr dist ratio,
    detect_patterns DataProcessor_init
      (Some (mkDataFrame 4 None (Some [3600; 4000; 11000; 18000]) None))
      = Ok (PatternsFound ph pr lh lr dist ratio) /\
    (forall h n, In (h, n) dist <->
       (0 <= h < 24)%Z /\
       n = count_hour (map hour_of [3600; 4000; 11000; 18000]) h /\
       (1 <= n)%nat) /\
    StronglySorted Z.lt (map fst dist) /\
    list_sum (map snd dist) = List.length [3600; 4000; 11000; 18000] /\
    In (ph, pr) dist /\ In (lh, lr) dist /\
    (forall h n, In (h, n) dist ->
       (lr <= n <= pr)%nat /\
       (n = pr -> (ph <= h)%Z) /\ (n = lr -> (lh <= h)%Z)) /\
    (1 <= lr)%nat /\
    1 <= ratio /\
    ratio * inject_Z (Z.of_nat (List.length [3600; 4000; 11000; 18000])) ==
      inject_Z (Z.of_nat pr) * inject_Z (Z.of_nat (List.length dist)).
Proof.
  apply (detect_patterns_spec DataProcessor_init
           (Some (mkDataFrame 4 None (Some [3600; 4000; 11000; 18000])
                    None))
           (mkDataFrame 4 None (Some [3600; 4000; 11000; 18000]) None)
           [3600; 4000; 11000; 18000]);
    [reflexivity | reflexivity | discriminate].
Defined.

Lemma length_cumsum_from (acc : Q) (a : list Q) :
  List.length (cumsum_from acc a) = List.length a.
Proof.
  revert acc. induction a as [| x a IH]; intro acc; [reflexivity |].
  cbn [cumsum_from List.length]. now rewrite IH.
Qed.

Lemma length_np_cumsum (a : list Q) :
  List.length (np_cumsum a) = List.length a.
Proof.
  destruct a as [| x a]; [reflexivity |].
  cbn [np_cumsum List.length]. now rewrite length_cumsum_from.
Qed.

(** The differences of the running sums are the summands. *)
Lemma np_diff_cumsum_from (rest : list Q) (acc : Q) :
  Forall2 Qeq (np_diff (acc :: cumsum_from acc rest)) rest.
Proof.
  revert acc. induction rest as [| x rest IH]; intro acc.
  - constructor.
  - cbn [cumsum_from].
    change (np_diff (acc :: (acc + x) :: cumsum_from (acc + x) rest))
      with ((acc + x - acc)
            :: np_diff ((acc + x) :: cumsum_from (acc + x) rest)).
    constructor; [ring | apply IH].
Qed.

Lemma np_diff_np_cumsum (a : list Q) :
  Forall2 Qeq (np_diff (np_cumsum a)) (tl a).
Proof.
  destruct a as [| x rest]; [constructor |].
  apply np_diff_cumsum_from.
Qed.

Lemma drop_while_all (p : Ascii.ascii -> bool) (l : list Ascii.ascii) :
  (forall ch, In ch l -> p ch = true) -> drop_while p l = [].
Proof.
  induction l as [| ch l IH]; intro H; [reflexivity |].
  cbn [drop_while]. rewrite (H ch (or_introl eq_refl)).
  apply IH. intros ch' Hin. apply H. now right.
Qed.

(** A path without a slash has no directory part. *)
Lemma dirname_bare (path : string) :
  (forall ch, In ch (list_ascii_of_string path) -> ch <> slash) ->
  dirname path = ""%string.
Proof.
  intro H. unfold dirname.
  rewrite drop_while_all; [reflexivity |].
  intros ch Hin. apply in_rev in Hin.
  apply negb_true_iff. unfold is_slash. apply Ascii.eqb_neq.
  now apply H.
Qed.

Lemma toy_draws_length (scale : Q) (k : nat) (g : Z) :
  List.length (fst (ToySystem.draws scale k g)) = k.
Proof.
  revert g. induction k as [| k IH]; intro g; [reflexivity |].
  cbn [ToySystem.draws]. destruct (ToyRandom.rvs scale g) as [x g2].
  specialize (IH g2). destruct (ToySystem.draws scale k g2) as [rest g3].
  cbn [fst List.length] in *. now rewrite IH.
Qed.

(** X27.  The frame that [generate_synthetic_data] returns, read back by
    the processor.  It has [n_requests] rows and its three columns are
    complete.  Its arrival times are the running sums of the gaps drawn,
    so [calculate_interarrival_times] recovers the gaps drawn except the
    first one, which is the arrival time of the first request. *)
Theorem synthetic_data_round_trip (G : Type) (np_random_seed : Z -> res G)
  (np_random_exponential : Q -> Z -> G -> res (list Q * G))
  (pd_to_datetime : string -> res Q) (FS : Type)
  (os_makedirs : string -> FS -> res FS)
  (to_csv : DataFrame -> string -> FS -> res FS)
  (n_requests : Z) (lambda_rate mu_rate : Q)
  (start_date output_file : string) (fs fs' : FS) (df : DataFrame) (g' : G)
  (self : DataProcessor) :
  (forall scale size g values g1,
     np_random_exponential scale size g = Ok (values, g1) ->
     List.length values = Z.to_nat size) ->
  generate_synthetic_data G np_random_seed np_random_exponential
    pd_to_datetime FS os_makedirs to_csv n_requests lambda_rate mu_rate
    start_date output_file fs = Ok (df, g', fs') ->
  exists g0 scale gaps g1,
    np_random_seed 42%Z = Ok g0 /\
    pydiv 1 (lambda_rate / 3600) = Ok scale /\
    np_random_exponential scale n_requests g0 = Ok (gaps, g1) /\
    n_rows df = Z.to_nat n_requests /\
    frame_ok df /\
    arrival_time df = Some (np_cumsum gaps) /\
    exists interarrival,
      calculate_interarrival_times self (Some df) = Ok interarrival /\
      Forall2 Qeq interarrival (tl gaps).
Proof.
  intros Hsize Hrun. unfold generate_synthetic_data in Hrun.
  destruct (np_random_seed 42%Z) as [g0 | |]; try discriminate.
  cbn [bind] in Hrun.
  destruct (pydiv 1 (lambda_rate / 3600)) as [scale | |];
    try discriminate.
  cbn [bind] in Hrun.
  destruct (np_random_exponential scale n_requests g0)
    as [[gaps g1] | |] eqn:Hgaps; try discriminate.
  cbn [bind] in Hrun.
  destruct (pydiv 1 (mu_rate / 3600)) as [scale' | |]; try discriminate.
  cbn [bind] in Hrun.
  destruct (np_random_exponential scale' n_requests g1)
    as [[services g2] | |] eqn:Hserv; try discriminate.
  cbn [bind] in Hrun.
  destruct (pd_to_datetime start_date) as [start | |]; try discriminate.
  cbn [bind] in Hrun.
  destruct (os_makedirs (dirname output_file) fs) as [fs1 | |];
    try discriminate.
  cbn [bind] in Hrun.
  destruct (to_csv _ output_file fs1) as [fs2 | |]; try discriminate.
  cbn [bind] in Hrun. injection Hrun as <- <- <-.
  exists g0, scale, gaps, g1.
  split; [reflexivity |]. split; [reflexivity |].
  split; [exact Hgaps |]. split; [reflexivity |].
  apply Hsize in Hgaps, Hserv.
  split.
  { unfold frame_ok. cbn [n_rows arrival_time timestamp service_time
                          column_ok].
    now rewrite length_map, length_np_cumsum. }
  split; [reflexivity |].
  exists (np_diff (np_cumsum gaps)). split; [reflexivity |].
  apply np_diff_np_cumsum.
Qed.

(** X27 with the stand-ins: four requests at λ = 120 and μ = 30 per
    hour. *)
Lemma synthetic_data_round_trip_witness :
  exists df g' fs',
    generate_synthetic_data Z ToyRandom.seed ToySystem.exponential
      ToySystem.to_datetime (list string) ToySystem.makedirs
      ToySystem.to_csv 4 120 30 "1970-01-01" "data/server_logs.csv" []
      = Ok (df, g', fs') /\
    exists g0 scale gaps g1,
      ToyRandom.seed 42%Z = Ok g0 /\
      pydiv 1 (120 / 3600) = Ok scale /\
      ToySystem.exponential scale 4 g0 = Ok (gaps, g1) /\
      n_rows df = Z.to_nat 4 /\
      frame_ok df /\
      arrival_time df = Some (np_cumsum gaps) /\
      exists interarrival,
        calculate_interarrival_times DataProcessor_init (Some df)
          = Ok interarrival /\
        Forall2 Qeq interarrival (tl gaps).
Proof.
  assert (Hrun : exists df g' fs',
             generate_synthetic_data Z ToyRandom.seed ToySystem.exponential
               ToySystem.to_datetime (list string) ToySystem.makedirs
               ToySystem.to_csv 4 120 30 "1970-01-01"
               "data/server_logs.csv" [] = Ok (df, g', fs')).
  { do 3 eexists. vm_compute. reflexivity. }
  destruct Hrun as (df & g' & fs' & Hrun).
  exists df, g', fs'. split; [exact Hrun |].
  apply (synthetic_data_round_trip Z ToyRandom.seed ToySystem.exponential
           ToySystem.to_datetime (list string) ToySystem.makedirs
           ToySystem.to_csv 4 120 30 "1970-01-01" "data/server_logs.csv"
           [] fs' df g' DataProcessor_init); [| exact Hrun].
  intros scale size g values g1. unfold ToySystem.exponential.
  destruct (Qltb scale 0); [discriminate |].
  destruct (size <? 0)%Z; [discriminate |].
  intros [= H]. change values with (fst (values, g1)). rewrite <- H.
  apply toy_draws_length.
Defined.

(** X28.  An output file given without a directory cannot be written:
    its directory name is the empty string, and since [os.makedirs]
    refuses the empty path, [generate_synthetic_data] raises after all
    the data have been generated; it returns no frame and writes no
    file. *)
Theorem synthetic_data_bare_file_name (G : Type)
  (np_random_seed : Z -> res G)
  (np_random_exponential : Q -> Z -> G -> res (list Q * G))
  (pd_to_datetime : string -> res Q) (FS : Type)
  (os_makedirs : string -> FS -> res FS)
  (to_csv : DataFrame -> string -> FS -> res FS)
  (n_requests : Z) (lambda_rate mu_rate : Q)
  (start_date output_file : string) (fs : FS) :
  (forall ch, In ch (list_ascii_of_string output_file) -> ch <> slash) ->
  (forall fs0, exists e, os_makedirs ""%string fs0 = Raise e) ->
  dirname output_file = ""%string /\
  forall result,
    generate_synthetic_data G np_random_seed np_random_exponential
      pd_to_datetime FS os_makedirs to_csv n_requests lambda_rate mu_rate
      start_date output_file fs <> Ok result.
Proof.
  intros Hbare Hrefuse.
  pose proof (dirname_bare output_file Hbare) as Hdir.
  split; [exact Hdir |].
  intros result Hrun. unfold generate_synthetic_data in Hrun.
  destruct (np_random_seed 42%Z) as [g0 | |]; try discriminate.
  cbn [bind] in Hrun.
  destruct (pydiv 1 (lambda_rate / 3600)) as [scale | |];
    try discriminate.
  cbn [bind] in Hrun.
  destruct (np_random_exponential scale n_requests g0)
    as [[gaps g1] | |]; try discriminate.
  cbn [bind] in Hrun.
  destruct (pydiv 1 (mu_rate / 3600)) as [scale' | |]; try discriminate.
  cbn [bind] in Hrun.
  destruct (np_random_exponential scale' n_requests g1)
    as [[services g2] | |]; try discriminate.
  cbn [bind] in Hrun.
  destruct (pd_to_datetime start_date) as [start | |]; try discriminate.
  cbn [bind] in Hrun.
  rewrite Hdir in Hrun. destruct (Hrefuse fs) as [e He].
  rewrite He in Hrun. discriminate.
Qed.

(** X28 with the stand-ins and the file name [server_logs.csv]: the call
    raises the error of [os.makedirs]. *)
Lemma synthetic_data_bare_file_name_witness :
  generate_synthetic_data Z ToyRandom.seed ToySystem.exponential
    ToySystem.to_datetime (list string) ToySystem.makedirs
    ToySystem.to_csv 4 120 30 "1970-01-01" "server_logs.csv" []
    = Raise (LibraryError "FileNotFoundError") /\
  dirname "server_logs.csv" = ""%string /\
  forall result,
    generate_synthetic_data Z ToyRandom.seed ToySystem.exponential
      ToySystem.to_datetime (list string) ToySystem.makedirs
      ToySystem.to_csv 4 120 30 "1970-01-01" "server_logs.csv" []
      <> Ok result.
Proof.
  split; [vm_compute; reflexivity |].
  apply (synthetic_data_bare_file_name Z ToyRandom.seed
           ToySystem.exponential ToySystem.to_datetime (list string)
           ToySystem.makedirs ToySystem.to_csv 4 120 30 "1970-01-01"
           "server_logs.csv" []).
  - intros ch Hin. vm_compute in Hin.
    repeat (destruct Hin as [<- | Hin]; [discriminate |]). contradiction.
  - intro fs0. eexists. reflexivity.
Defined.

(* ================================================================== *)
(** * The data for the plots *)

(** The best cached fit by AIC. *)
Lemma get_best_distribution_aic (lib : Library) (self : DistributionFitter)
  (data : list Q) :
  fitted_distributions self <> [] ->
  exists name info,
    first_min (fun item => aic (snd item)) (fitted_distributions self)
      (name, info) /\
    get_best_distribution lib self data "aic" =
    Ok (mkBest (Some name) (Finite (aic info)) (Some (params info)), self).
Proof.
  intro Hne. rewrite get_best_distribution_nonempty by exact Hne.
  destruct (best_scan "aic" aic (fun _ => eq_refl)
              (fitted_distributions self) [] (mkBest None PosInf None))
    as (b & -> & Hinv).
  { split; reflexivity. }
  simpl in Hinv. unfold best_inv in Hinv.
  destruct (best_name b) as [name |].
  - destruct Hinv as (info & -> & Hmin). now exists name, info.
  - destruct Hinv as [Hnil _]. contradiction.
Qed.

(** X29.  The defaults of [plot_fit].  Called without a distribution on
    a fitter whose cache is not empty, it plots the cached family of
    least AIC with the parameters cached for it, whatever sample it is
    given: the call equals the one that names that family and those
    parameters.  Called with a distribution but without parameters, it
    raises [TypeError] as soon as the family exists.  Called without a
    distribution when nothing is cached and none of the default families
    can be fitted, it raises [TypeError] as well, because the best name is
    [None]. *)
Theorem plot_fit_defaults (lib : Library)
  (d_ppf d_pdf : Distribution -> list Q -> list Q -> res (list Q))
  (np_percentile : list Q -> list Q -> res (list Q))
  (self : DistributionFitter) :
  (fitted_distributions self <> [] ->
   exists name info,
     first_min (fun item => aic (snd item)) (fitted_distributions self)
       (name, info) /\
     forall data,
       plot_fit lib d_ppf d_pdf np_percentile self data None None =
       plot_fit lib d_ppf d_pdf np_percentile self data (Some name)
         (Some (params info))) /\
  (forall data name dist,
     stats_getattr lib name = Ok dist ->
     plot_fit lib d_ppf d_pdf np_percentile self data (Some name) None =
     Raise TypeError) /\
  (forall data,
     fitted_distributions self = [] ->
     (forall name, In name default_distributions ->
        exists e, fit_one lib data name = Raise e) ->
     plot_fit lib d_ppf d_pdf np_percentile self data None None =
     Raise TypeError).
Proof.
  split; [| split].
  - intro Hne.
    destruct (get_best_distribution_aic lib self [] Hne)
      as (name & info & Hmin & _).
    exists name, info. split; [exact Hmin |]. intro data.
    destruct (get_best_distribution_aic lib self data Hne)
      as (name' & info' & Hmin' & Hbest).
    pose proof (first_min_unique _ _ _ _ Hmin Hmin') as E.
    injection E as <- <-.
    unfold plot_fit. rewrite Hbest. reflexivity.
  - intros data name dist Hdist. unfold plot_fit. cbn [bind].
    rewrite Hdist. reflexivity.
  - intros data Hcache Hfail.
    destruct (fit_loop_all_fail lib data default_distributions Hfail []
                (printed self)) as (out & Hrun & _).
    unfold plot_fit, get_best_distribution, fit_distributions.
    rewrite Hcache, Hrun. reflexivity.
Qed.

(* ================================================================== *)
(** * The dashboard *)

Lemma optimize_total_metrics (lam mu cs cw : Q) (c_min c_max : Z) :
  0 < lam -> 0 < mu ->
  exists r,
    optimize (mkCostOptimizer lam mu cs cw) c_min c_max None = Ok r /\
    match r with
    | Infeasible _ =>
        (c_max < Z.max c_min (Qceiling (lam / mu) + 1))%Z
    | Optimal oc total _ _ m _ _ =>
        (Z.max c_min (Qceiling (lam / mu) + 1) <= oc <= c_max)%Z /\
        total = Finite (OptimizerSpec.Zcost lam mu cs cw oc) /\
        m = Stable (Formula.metrics lam mu oc)
    end.
Proof.
  intros Hlam Hmu.
  destruct (optimize_run lam mu cs cw c_min c_max None Hlam Hmu)
    as (st & [Hres Hbest] & ->).
  destruct (best_c st) as [b |].
  - destruct Hbest as (Hcost & Hmet & Hmin). rewrite Hmet. simpl.
    eexists. split; [reflexivity |]. cbv beta iota.
    apply first_min_in in Hmin. destruct Hmin as [Hin _].
    apply in_feasible_range in Hin.
    unfold OptimizerSpec.true_min in Hin. now repeat split.
  - destruct Hbest as (Hnil & _ & _).
    eexists. split; [reflexivity |]. cbv beta iota.
    destruct (Z.lt_ge_cases c_max (Z.max c_min (Qceiling (lam / mu) + 1)))
      as [H | H]; [exact H | exfalso].
    assert (Hin : In (Z.max c_min (Qceiling (lam / mu) + 1))
                    (OptimizerSpec.feasible_range lam mu None c_min c_max)).
    { apply in_feasible_range. unfold OptimizerSpec.true_min.
      split; [lia |]. split; [| discriminate].
      apply (above_threshold lam mu Hlam Hmu). lia. }
    rewrite Hnil in Hin. exact Hin.
Qed.

(** Below the slider maximum every power and factorial that a stable
    count needs is within the binary64 range. *)
Lemma Qpower_nat_le (a b : Q) (n : nat) :
  0 <= a -> a <= b -> a ^ Z.of_nat n <= b ^ Z.of_nat n.
Proof.
  intros Ha Hab. induction n as [| n IH]; [discriminate |].
  rewrite !Qpower_succ_nat.
  pose proof (Qpower_0_le a (Z.of_nat n) Ha) as Hpow.
  apply Qle_trans with (b ^ Z.of_nat n * a).
  - apply Qmult_le_compat_r; assumption.
  - rewrite !(Qmult_comm (b ^ Z.of_nat n)).
    apply Qmult_le_compat_r; [exact Hab | lra].
Qed.

Lemma slider_powers_in_range :
  forallb (fun n => Qltb (29 ^ n) Binary64Range.limit &&
                    Binary64Range.representable (factorial n))
    (range (c_max_slider_max + 1)) = true.
Proof. vm_compute. reflexivity. Qed.

Lemma slider_in_range (lam mu : Q) (servers : Z) :
  0 < lam -> 0 < mu ->
  (Qceiling (lam / mu) + 1 <= servers <= c_max_slider_max)%Z ->
  Binary64Range.in_binary64_range lam mu servers = true.
Proof.
  intros Hlam Hmu Hc. unfold c_max_slider_max in Hc.
  pose proof (Qle_ceiling (lam / mu)) as Hceil.
  pose proof (Qdiv_pos lam mu Hlam Hmu) as Hratio.
  assert (Ha : lam / mu <= 29).
  { assert (H : inject_Z (Qceiling (lam / mu)) <= inject_Z 29)
      by (rewrite <- Zle_Qle; lia).
    change (inject_Z 29) with 29 in H. lra. }
  unfold Binary64Range.in_binary64_range. apply forallb_forall.
  intros n Hn. apply in_range in Hn.
  pose proof slider_powers_in_range as Hall.
  rewrite forallb_forall in Hall.
  specialize (Hall n ltac:(apply in_range; unfold c_max_slider_max; lia)).
  apply andb_true_iff in Hall. destruct Hall as [Hpow Hfact].
  apply andb_true_iff. split; [| exact Hfact].
  apply Qltb_lt in Hpow. apply Qltb_lt.
  assert (H0 : 0 <= (lam / mu) ^ n) by (apply Qpower_0_le; lra).
  rewrite Qabs_pos by exact H0.
  apply Qle_lt_trans with (29 ^ n); [| exact Hpow].
  rewrite <- (Z2Nat.id n) by lia. apply Qpower_nat_le; lra.
Qed.

(** No step of the analytic model raises [ValueError]. *)
Lemma bind_no_ValueError {A B : Type} (m : res A) (k : A -> res B) :
  m <> Raise ValueError -> (forall a, k a <> Raise ValueError) ->
  bind m k <> Raise ValueError.
Proof.
  intros Hm Hk. destruct m as [a | e |]; cbn [bind];
    [apply Hk | intros [= ->]; now apply Hm | discriminate].
Qed.

Lemma pydiv_no_ValueError (x y : Q) : pydiv x y <> Raise ValueError.
Proof. unfold pydiv. destruct (Qeq_bool y 0); discriminate. Qed.

Lemma npdiv_no_ValueError (x y : Q) : npdiv x y <> Raise ValueError.
Proof. unfold npdiv. destruct (Qeq_bool y 0); discriminate. Qed.

Lemma p0_term64_no_ValueError (lam mu : Q) (n : Z) :
  Binary64Range.p0_term64 lam mu n <> Raise ValueError.
Proof.
  unfold Binary64Range.p0_term64.
  apply bind_no_ValueError; [apply pydiv_no_ValueError |]. intro r.
  apply bind_no_ValueError.
  - unfold Binary64Range.pypow64, pypow.
    destruct ((n <? 0)%Z && Qeq_bool r 0); cbn [bind]; [discriminate |].
    destruct (Binary64Range.representable (r ^ n)); discriminate.
  - intro p. destruct (Binary64Range.factorial64 n);
      [apply npdiv_no_ValueError | discriminate].
Qed.

Lemma comprehension_no_ValueError {A B : Type} (f : A -> res B)
  (xs : list A) :
  (forall x, f x <> Raise ValueError) ->
  comprehension f xs <> Raise ValueError.
Proof.
  intro Hf. induction xs as [| x xs IH]; cbn [comprehension];
    [discriminate |].
  apply bind_no_ValueError; [apply Hf |]. intro y.
  apply bind_no_ValueError; [exact IH |]. discriminate.
Qed.

Lemma calculate_metrics64_no_ValueError (self : MMcQueue) :
  Binary64Range.calculate_metrics64 self <> Raise ValueError.
Proof.
  unfold Binary64Range.calculate_metrics64.
  destruct (negb (is_stable self)); [discriminate |]. cbv zeta.
  apply bind_no_ValueError.
  { unfold Binary64Range._calculate_p0_64. cbv zeta.
    apply bind_no_ValueError;
      [apply comprehension_no_ValueError, p0_term64_no_ValueError |].
    intro terms.
    apply bind_no_ValueError; [apply p0_term64_no_ValueError |]. intro t.
    apply bind_no_ValueError; [apply pydiv_no_ValueError |]. intro i.
    apply npdiv_no_ValueError. }
  intro p0.
  apply bind_no_ValueError; [apply p0_term64_no_ValueError |]. intro t.
  apply bind_no_ValueError; [apply pydiv_no_ValueError |]. intro i.
  apply bind_no_ValueError; [apply npdiv_no_ValueError |]. intro lq.
  apply bind_no_ValueError; [apply npdiv_no_ValueError |]. intro wq.
  apply bind_no_ValueError; [apply pydiv_no_ValueError |]. intro a.
  apply bind_no_ValueError; [apply pydiv_no_ValueError |]. intro s.
  discriminate.
Qed.

Lemma metric_no_ValueError (key : string) (field : Metrics -> Q)
  (d : MetricsResult) :
  metric key field d <> Raise ValueError.
Proof.
  destruct d as [r message | m]; cbn [metric]; [| discriminate].
  apply bind_no_ValueError.
  - unfold unstable_getitem.
    repeat match goal with
           | |- context [if ?b then _ else _] => destruct b
           end; discriminate.
  - intros [x | b | s]; discriminate.
Qed.

Lemma queue_analysis_no_ValueError (lam mu : Q) (c_selected : Z) :
  queue_analysis lam mu c_selected <> Raise ValueError.
Proof.
  unfold queue_analysis.
  apply bind_no_ValueError.
  { unfold MMcQueue_init.
    apply bind_no_ValueError; [apply pydiv_no_ValueError | discriminate]. }
  intro queue.
  apply bind_no_ValueError; [apply calculate_metrics64_no_ValueError |].
  intro metrics.
  repeat (apply bind_no_ValueError; [apply metric_no_ValueError | intro]).
  discriminate.
Qed.

(** A power out of range among the terms ends the comprehension of
    [_calculate_p0] in an [OverflowError]. *)
Lemma p0_term64_outcome (lam mu : Q) (n : Z) :
  0 < mu -> (0 <= n)%Z ->
  if Binary64Range.representable ((lam / mu) ^ n)
  then exists t, Binary64Range.p0_term64 lam mu n = Ok t
  else Binary64Range.p0_term64 lam mu n = Raise OverflowError.
Proof.
  intros Hmu Hn. unfold Binary64Range.p0_term64.
  rewrite pydiv_ok by lra. cbn [bind].
  unfold Binary64Range.pypow64. rewrite pypow_nonneg by exact Hn.
  cbn [bind].
  destruct (Binary64Range.representable ((lam / mu) ^ n));
    [| reflexivity].
  cbn [bind]. unfold Binary64Range.factorial64.
  destruct (Binary64Range.representable (factorial n)); [| now eexists].
  rewrite npdiv_ok; [now eexists |].
  pose proof (factorial_pos n Hn). lra.
Qed.

Lemma comprehension_overflows (lam mu : Q) (xs : list Z) (n : Z) :
  0 < mu -> (forall x, In x xs -> (0 <= x)%Z) -> In n xs ->
  Binary64Range.representable ((lam / mu) ^ n) = false ->
  comprehension (Binary64Range.p0_term64 lam mu) xs = Raise OverflowError.
Proof.
  intros Hmu. induction xs as [| x xs IH]; intros Hpos Hin Hbad;
    [destruct Hin |].
  cbn [comprehension].
  pose proof (p0_term64_outcome lam mu x Hmu (Hpos x (or_introl eq_refl)))
    as Hx.
  destruct (Binary64Range.representable ((lam / mu) ^ x)) eqn:E.
  - destruct Hx as [t ->]. cbn [bind].
    destruct Hin as [-> | Hin]; [congruence |].
    rewrite IH; [reflexivity | | exact Hin | exact Hbad].
    intros y Hy. apply Hpos. now right.
  - rewrite Hx. reflexivity.
Qed.

Lemma calculate_metrics64_overflows (lam mu : Q) (servers n : Z) :
  0 < lam -> 0 < mu -> (1 <= servers)%Z ->
  Formula.rho lam mu servers < 1 ->
  (0 <= n <= servers)%Z ->
  Binary64Range.representable ((lam / mu) ^ n) = false ->
  Binary64Range.calculate_metrics64
    (mkMMcQueue lam mu servers (Formula.rho lam mu servers)) =
  Raise OverflowError.
Proof.
  intros Hlam Hmu Hc Hrho Hn Hbad.
  unfold Binary64Range.calculate_metrics64, is_stable. cbn [rho].
  rewrite (proj2 (Qltb_lt _ _) Hrho). cbn [negb]. cbv zeta.
  unfold Binary64Range._calculate_p0_64. cbv zeta.
  cbn [lambda_rate mu_rate c rho].
  destruct (Z.eq_dec n servers) as [-> | Hne].
  - destruct (comprehension (Binary64Range.p0_term64 lam mu) (range servers))
      as [terms | e |] eqn:E; cbn [bind].
    + pose proof (p0_term64_outcome lam mu servers Hmu ltac:(lia)) as Hx.
      rewrite Hbad in Hx. rewrite Hx. reflexivity.
    + destruct (Forall_Exists_dec
                  (fun x => Binary64Range.representable ((lam / mu) ^ x) = true)
                  (fun x => bool_dec _ true) (range servers))
        as [Hall | Hex].
      * exfalso. revert E.
        assert (Hok : forall xs,
                  (forall x, In x xs -> (0 <= x)%Z) ->
                  Forall (fun x =>
                     Binary64Range.representable ((lam / mu) ^ x) = true) xs ->
                  exists ts,
                    comprehension (Binary64Range.p0_term64 lam mu) xs = Ok ts).
        { induction xs as [| x xs IH]; intros Hpos Hxs; [now eexists |].
          inversion Hxs as [| ? ? Hx Hrest]; subst.
          pose proof (p0_term64_outcome lam mu x Hmu
                        (Hpos x (or_introl eq_refl))) as Ht.
          rewrite Hx in Ht. destruct Ht as [t Ht].
          destruct (IH (fun y Hy => Hpos y (or_intror Hy)) Hrest) as [ts Hts].
          exists (t :: ts). cbn [comprehension]. rewrite Ht. cbn [bind].
          rewrite Hts. reflexivity. }
        destruct (Hok (range servers)
                    (fun x Hx => proj1 (proj1 (in_range _ _) Hx)) Hall)
          as [ts ->].
        discriminate.
      * apply Exists_exists in Hex. destruct Hex as (x & Hx & Hxbad).
        apply not_true_is_false in Hxbad.
        rewrite (comprehension_overflows lam mu (range servers) x Hmu) in E;
          [congruence | | exact Hx | exact Hxbad].
        intros y Hy. apply in_range in Hy. lia.
    + exfalso.
      assert (Hnf : forall xs,
                (forall x, In x xs -> (0 <= x)%Z) ->
                comprehension (Binary64Range.p0_term64 lam mu) xs
                <> NonFinite).
      { induction xs as [| x xs IH]; intro Hpos; [discriminate |].
        cbn [comprehension].
        pose proof (p0_term64_outcome lam mu x Hmu
                      (Hpos x (or_introl eq_refl))) as Ht.
        destruct (Binary64Range.representable ((lam / mu) ^ x)).
        - destruct Ht as [t ->]. cbn [bind].
          specialize (IH (fun y Hy => Hpos y (or_intror Hy))).
          destruct (comprehension _ xs); cbn [bind];
            [discriminate | discriminate | contradiction].
        - rewrite Ht. discriminate. }
      apply (Hnf (range servers)); [| exact E].
      intros y Hy. apply in_range in Hy. lia.
  - rewrite (comprehension_overflows lam mu (range servers) n Hmu);
      [reflexivity | | | exact Hbad].
    + intros y Hy. apply in_range in Hy. lia.
    + apply in_range. lia.
Qed.

(** X30.  What the dashboard shows for valid rates.  Its sliders start at
    ⌈λ/μ⌉+1 and the sidebar offers at most 30 servers; for every number
    of servers in between the tab "Queue Analysis" shows the five
    closed-form metrics: no key is missing and nothing is raised.  Its
    handler for [ValueError] is never taken, whatever the inputs.  A
    stable count that needs a power [(λ/μ)^n] outside the binary64 range
    makes the tab raise [OverflowError], which the handler does not
    catch.  With at most 30 servers the tab "Cost Optimization" shows a
    result exactly when the maximum number of servers is at least
    ⌈λ/μ⌉+1, and otherwise shows nothing. *)
Theorem dashboard_shows_stable_metrics (lam mu : Q) :
  0 < lam -> 0 < mu ->
  dashboard_c_min lam mu = Ok (Qceiling (lam / mu) + 1)%Z /\
  (forall c_selected,
     (Qceiling (lam / mu) + 1 <= c_selected <= c_max_slider_max)%Z ->
     queue_analysis_tab lam mu c_selected =
     Ok (Some (mkQueueAnalysis
                 (Formula.rho lam mu c_selected * 100)
                 (Formula.Lq lam mu c_selected)
                 (Formula.Wq lam mu c_selected * 60)
                 (Formula.Pwait lam mu c_selected * 100)
                 (Formula.W lam mu c_selected * 60)))) /\
  (forall c_selected, queue_analysis_tab lam mu c_selected <> Ok None) /\
  (forall c_selected n,
     (Qceiling (lam / mu) + 1 <= c_selected)%Z -> (0 <= n <= c_selected)%Z ->
     Binary64Range.representable ((lam / mu) ^ n) = false ->
     queue_analysis_tab lam mu c_selected = Raise OverflowError) /\
  (forall cs cw c_max, (c_max <= c_max_slider_max)%Z ->
     exists shown,
       cost_optimization_tab lam mu cs cw c_max = Ok shown /\
       match shown with
       | None => (c_max < Qceiling (lam / mu) + 1)%Z
       | Some (oc, total, wq) =>
           (Qceiling (lam / mu) + 1 <= oc <= c_max)%Z /\
           total = Finite (OptimizerSpec.Zcost lam mu cs cw oc) /\
           wq = Formula.Wq lam mu oc * 60
       end).
Proof.
  intros Hlam Hmu.
  assert (Hcmin : dashboard_c_min lam mu = Ok (Qceiling (lam / mu) + 1)%Z).
  { unfold dashboard_c_min. rewrite pydiv_ok by lra. reflexivity. }
  split; [exact Hcmin |].
  split; [| split; [| split]].
  - intros c Hc. unfold queue_analysis_tab, queue_analysis.
    destruct (above_threshold lam mu Hlam Hmu c (proj1 Hc)) as [H1 Hrho].
    rewrite MMcQueue_init_stable by assumption. cbn [bind].
    rewrite calculate_metrics64_in_range
      by (lia || now apply slider_in_range).
    rewrite calculate_metrics_stable by assumption. reflexivity.
  - intros c. unfold queue_analysis_tab.
    pose proof (queue_analysis_no_ValueError lam mu c) as Hno.
    destruct (queue_analysis lam mu c) as [shown | e |];
      [discriminate | | discriminate].
    destruct e; try discriminate. now contradiction Hno.
  - intros c n Hc Hn Hbad. unfold queue_analysis_tab, queue_analysis.
    destruct (above_threshold lam mu Hlam Hmu c Hc) as [H1 Hrho].
    rewrite MMcQueue_init_stable by assumption. cbn [bind].
    rewrite (calculate_metrics64_overflows lam mu c n) by assumption.
    reflexivity.
  - intros cs cw c_max Hmax. unfold cost_optimization_tab.
    rewrite Hcmin. cbn [bind].
    rewrite optimize64_in_range
      by (assumption ||
          (intros c Hc; apply slider_in_range; [assumption .. | lia])).
    destruct (optimize_total_metrics lam mu cs cw
                (Qceiling (lam / mu) + 1) c_max Hlam Hmu)
      as (r & -> & Hshape).
    cbn [bind]. rewrite Z.max_id in Hshape.
    destruct r as [msg | oc total server waiting m rows sla'].
    + exists None. split; [reflexivity | exact Hshape].
    + destruct Hshape as (Hrange & -> & ->).
      eexists. split; [reflexivity |]. now repeat split.
Qed.

(** X30 at the dashboard's initial values λ = 120 and μ = 30. *)
Lemma dashboard_shows_stable_metrics_witness :
  dashboard_c_min 120 30 = Ok (Qceiling (120 / 30) + 1)%Z /\
  (forall c_selected,
     (Qceiling (120 / 30) + 1 <= c_selected <= c_max_slider_max)%Z ->
     queue_analysis_tab 120 30 c_selected =
     Ok (Some (mkQueueAnalysis
                 (Formula.rho 120 30 c_selected * 100)
                 (Formula.Lq 120 30 c_selected)
                 (Formula.Wq 120 30 c_selected * 60)
                 (Formula.Pwait 120 30 c_selected * 100)
                 (Formula.W 120 30 c_selected * 60)))) /\
  (forall c_selected, queue_analysis_tab 120 30 c_selected <> Ok None) /\
  (forall c_selected n,
     (Qceiling (120 / 30) + 1 <= c_selected)%Z -> (0 <= n <= c_selected)%Z ->
     Binary64Range.representable ((120 / 30) ^ n) = false ->
     queue_analysis_tab 120 30 c_selected = Raise OverflowError) /\
  (forall cs cw c_max, (c_max <= c_max_slider_max)%Z ->
     exists shown,
       cost_optimization_tab 120 30 cs cw c_max = Ok shown /\
       match shown with
       | None => (c_max < Qceiling (120 / 30) + 1)%Z
       | Some (oc, total, wq) =>
           (Qceiling (120 / 30) + 1 <= oc <= c_max)%Z /\
           total = Finite (OptimizerSpec.Zcost 120 30 cs cw oc) /\
           wq = Formula.Wq 120 30 oc * 60
       end).
Proof.
  apply (dashboard_shows_stable_metrics 120 30); reflexivity.
Defined.

(** At the largest arrival rate and the smallest service rate of the
    sidebar, λ = 500 and μ = 1, the tab "Queue Analysis" raises
    [OverflowError] at 501 servers, from the power [(λ/μ)**115]. *)
Example dashboard_overflows_at_501_servers :
  Binary64Range.pypow64 (500 / 1) 115 = Raise OverflowError /\
  queue_analysis_tab 500 1 501 = Raise OverflowError.
Proof. split; vm_compute; reflexivity. Qed.
